(** * nanokoton: a shallow embedding of the kernel core

    The development follows the C++ sources of the kernel:
    the physical memory manager (mm/physical), the virtual memory
    manager (mm/virtual), the scheduler (task/scheduler), the AHCI
    driver (drivers/ahci) and the network stack (net/ethernet, net/ip,
    net/udp, net/tcp).  Machine integers are [Z] with the wrap-around
    written out; objects reached through pointers live in explicit
    stores; hardware and the time-stamp counter are oracles. *)

From Stdlib Require Import ZArith Lia Bool.
From stdpp Require Import base list gmap strings.

Local Open Scope Z_scope.

(** ** Machine integers *)

Module Ints.

Definition wrap (w x : Z) : Z := x mod 2 ^ w.

Definition u8 (x : Z) : Z := wrap 8 x.
Definition u16 (x : Z) : Z := wrap 16 x.
Definition u32 (x : Z) : Z := wrap 32 x.
Definition u64 (x : Z) : Z := wrap 64 x.

(** Modelled from the spec: [swap_endian_16] and [swap_endian_32]
    (lib/algorithm.hpp is not part of the sources); they exchange the
    bytes of a 16-bit and of a 32-bit value, which is how the network
    byte order of the wire protocols is turned into host order. *)
Definition swap_endian_16 (x : Z) : Z :=
  Z.lor (Z.shiftl (Z.land x 255) 8) (Z.land (Z.shiftr x 8) 255).

Definition swap_endian_32 (x : Z) : Z :=
  Z.lor (Z.lor (Z.shiftl (Z.land x 255) 24)
               (Z.shiftl (Z.land (Z.shiftr x 8) 255) 16))
        (Z.lor (Z.shiftl (Z.land (Z.shiftr x 16) 255) 8)
               (Z.land (Z.shiftr x 24) 255)).

(** A packed struct field read through [reinterpret_cast] on x86_64:
    a little-endian load from a byte buffer. *)
Definition byte_at (buf : list Z) (off : nat) : Z := default 0 (buf !! off).

Definition load16 (buf : list Z) (off : nat) : Z :=
  byte_at buf off + 256 * byte_at buf (off + 1).

Definition load32 (buf : list Z) (off : nat) : Z :=
  load16 buf off + 65536 * load16 buf (off + 2).

(** The timeout test of the receive loops, on the k-th read of the
    time-stamp counter of a call (the 0-th read is [start_time]):
    [current_time - start_time > timeout_ms * 1000000]. *)
Definition timed_out (tsc : nat -> Z) (timeout_ms : Z) (k : nat) : bool :=
  u64 (timeout_ms * 1000000) <? u64 (u64 (tsc k) - u64 (tsc 0%nat)).

(** The reads [k], ..., [k + n - 1] do not time out and read [k + n]
    does. *)
Fixpoint times_out_after (tsc : nat -> Z) (timeout_ms : Z) (k n : nat) : bool :=
  match n with
  | O => timed_out tsc timeout_ms k
  | S n' => negb (timed_out tsc timeout_ms k)
            && times_out_after tsc timeout_ms (S k) n'
  end.

End Ints.

(** ** Physical memory manager (mm/physical) *)

Module PMM.
Import Ints.

Definition PAGE_SIZE : Z := 4096.

(** Modelled from the spec: [Bitmap] (lib/bitmap.hpp is not part of the
    sources); one bit per page of a region, bit = 1 meaning allocated.
    [test] reads a bit and [set] writes one. *)
Definition test (bm : list bool) (i : nat) : bool := default false (bm !! i).
Definition set (bm : list bool) (i : nat) (v : bool) : list bool := <[i := v]> bm.

(** Modelled from the spec: [align_up] and [align_down]
    (lib/bitops.hpp is not part of the sources); rounding to a multiple
    of the alignment, in 64-bit arithmetic. *)
Definition align_up (x a : Z) : Z := u64 (((x + a - 1) / a) * a).
Definition align_down (x a : Z) : Z := (x / a) * a.

Record MemoryRegion := mkRegion {
  region_base : Z;
  region_size : Z;
  region_free_pages : Z;
  region_total_pages : Z;
  region_bitmap : list bool
}.

Record State := mkState {
  regions_ : list MemoryRegion;
  total_pages_ : Z;
  free_pages_ : Z;
  used_pages_ : Z;
  free_memory_ : Z;
  used_memory_ : Z;
  page_frames_allocated_ : Z;
  page_frames_freed_ : Z
}.

Definition in_region (r : MemoryRegion) (a : Z) : bool :=
  (region_base r <=? a) && (a <? u64 (region_base r + region_size r)).

Definition page_index (r : MemoryRegion) (a : Z) : nat :=
  Z.to_nat ((a - region_base r) / PAGE_SIZE).

(** [for (p = start; p < start + count; p++) bitmap->set(p, v)] *)
Fixpoint set_range (bm : list bool) (start count : nat) (v : bool) : list bool :=
  match count with
  | O => bm
  | S c => set_range (set bm start v) (S start) c v
  end.

(** [find_free_page_in_region]: the first clear bit, scanning upwards. *)
Fixpoint find_free_from (bm : list bool) (page n : nat) : option nat :=
  match n with
  | O => None
  | S n' => if negb (test bm page) then Some page
            else find_free_from bm (S page) n'
  end.

Definition find_free_page_in_region (r : MemoryRegion) : option nat :=
  find_free_from (region_bitmap r) 0 (Z.to_nat (region_total_pages r)).

Definition take_pages (r : MemoryRegion) (start count : nat) : MemoryRegion :=
  mkRegion (region_base r) (region_size r) (u64 (region_free_pages r - Z.of_nat count))
           (region_total_pages r) (set_range (region_bitmap r) start count true).

Definition charge (s : State) (rs : list MemoryRegion) (count : Z) : State :=
  mkState rs (total_pages_ s)
          (u64 (free_pages_ s - count)) (u64 (used_pages_ s + count))
          (u64 (free_memory_ s - count * PAGE_SIZE))
          (u64 (used_memory_ s + count * PAGE_SIZE))
          (u64 (page_frames_allocated_ s + count)) (page_frames_freed_ s).

Definition refund (s : State) (rs : list MemoryRegion) (count : Z) : State :=
  mkState rs (total_pages_ s)
          (u64 (free_pages_ s + count)) (u64 (used_pages_ s - count))
          (u64 (free_memory_ s + count * PAGE_SIZE))
          (u64 (used_memory_ s - count * PAGE_SIZE))
          (page_frames_allocated_ s) (u64 (page_frames_freed_ s + count)).

(** [allocate_page]: regions in order, first free page of the first
    region that has one. *)
Fixpoint allocate_page_in (rs : list MemoryRegion)
  : option (Z * list MemoryRegion) :=
  match rs with
  | [] => None
  | r :: rest =>
      match find_free_page_in_region r with
      | Some page =>
          Some (u64 (region_base r + Z.of_nat page * PAGE_SIZE),
                mkRegion (region_base r) (region_size r) (u64 (region_free_pages r - 1))
                         (region_total_pages r) (set (region_bitmap r) page true) :: rest)
      | None =>
          match allocate_page_in rest with
          | Some (a, rest') => Some (a, r :: rest')
          | None => None
          end
      end
  end.

Definition allocate_page (s : State) : option Z * State :=
  match allocate_page_in (regions_ s) with
  | Some (a, rs) => (Some a, charge s rs 1)
  | None => (None, s)
  end.

(** The scan of [allocate_pages] over one region: [consecutive] clear
    bits seen in a row, the run starting at [start]. *)
Fixpoint scan_run (bm : list bool) (count : Z) (page n consecutive start : nat)
  : option nat :=
  match n with
  | O => None
  | S n' =>
      if negb (test bm page) then
        let start' := if Nat.eqb consecutive 0 then page else start in
        let consecutive' := S consecutive in
        if Z.of_nat consecutive' =? count then Some start'
        else scan_run bm count (S page) n' consecutive' start'
      else scan_run bm count (S page) n' 0%nat start
  end.

Fixpoint allocate_pages_in (rs : list MemoryRegion) (count : Z)
  : option (Z * list MemoryRegion) :=
  match rs with
  | [] => None
  | r :: rest =>
      let skip :=
        match allocate_pages_in rest count with
        | Some (a, rest') => Some (a, r :: rest')
        | None => None
        end in
      if region_free_pages r <? count then skip
      else
        match scan_run (region_bitmap r) count 0 (Z.to_nat (region_total_pages r)) 0 0 with
        | Some start =>
            Some (u64 (region_base r + Z.of_nat start * PAGE_SIZE),
                  take_pages r start (Z.to_nat count) :: rest)
        | None => skip
        end
  end.

Definition allocate_pages (s : State) (count : Z) : option Z * State :=
  if count =? 0 then (None, s)
  else
    match allocate_pages_in (regions_ s) count with
    | Some (a, rs) => (Some a, charge s rs count)
    | None => (None, s)
    end.

(** [all_free] re-check of [allocate_aligned]. *)
Fixpoint all_free (bm : list bool) (start count : nat) : bool :=
  match count with
  | O => true
  | S c => if test bm start then false else all_free bm (S start) c
  end.

(** The scan of [allocate_aligned] over one region.  The alignment test
    is made on every page of the loop, and a page that fails it resets
    the run. *)
Fixpoint scan_aligned (r : MemoryRegion) (alignment count : Z)
  (page n consecutive start : nat) : option nat :=
  match n with
  | O => None
  | S n' =>
      let candidate_addr := u64 (region_base r + Z.of_nat page * PAGE_SIZE) in
      if candidate_addr mod alignment =? 0 then
        if negb (test (region_bitmap r) page) then
          let start' := if Nat.eqb consecutive 0 then page else start in
          let consecutive' := S consecutive in
          if (Z.of_nat consecutive' =? count)
             && all_free (region_bitmap r) start' (Z.to_nat count)
          then Some start'
          else scan_aligned r alignment count (S page) n' consecutive' start'
        else scan_aligned r alignment count (S page) n' 0%nat start
      else scan_aligned r alignment count (S page) n' 0%nat start
  end.

Fixpoint allocate_aligned_in (rs : list MemoryRegion) (count alignment : Z)
  : option (Z * list MemoryRegion) :=
  match rs with
  | [] => None
  | r :: rest =>
      let skip :=
        match allocate_aligned_in rest count alignment with
        | Some (a, rest') => Some (a, r :: rest')
        | None => None
        end in
      if region_free_pages r <? count then skip
      else
        match scan_aligned r alignment count 0 (Z.to_nat (region_total_pages r)) 0 0 with
        | Some start =>
            Some (u64 (region_base r + Z.of_nat start * PAGE_SIZE),
                  take_pages r start (Z.to_nat count) :: rest)
        | None => skip
        end
  end.

(** [alignment = max(alignment, PAGE_SIZE)], then rounded up to a
    multiple of the page size. *)
Definition effective_alignment (alignment : Z) : Z :=
  let a := Z.max alignment PAGE_SIZE in
  if negb (a mod PAGE_SIZE =? 0) then align_up a PAGE_SIZE else a.

Definition allocate_aligned (s : State) (count alignment : Z) : option Z * State :=
  if count =? 0 then (None, s)
  else
    match allocate_aligned_in (regions_ s) count (effective_alignment alignment) with
    | Some (a, rs) => (Some a, charge s rs count)
    | None => (None, s)
    end.

(** [free_page]: the first region that contains the address decides. *)
Fixpoint free_page_in (rs : list MemoryRegion) (page : Z)
  : option (list MemoryRegion) :=
  match rs with
  | [] => None
  | r :: rest =>
      if in_region r page then
        let idx := page_index r page in
        if region_total_pages r <=? Z.of_nat idx then None
        else if negb (test (region_bitmap r) idx) then None
        else Some (mkRegion (region_base r) (region_size r) (u64 (region_free_pages r + 1))
                            (region_total_pages r) (set (region_bitmap r) idx false) :: rest)
      else
        match free_page_in rest page with
        | Some rest' => Some (r :: rest')
        | None => None
        end
  end.

Definition free_page (s : State) (page : Z) : State :=
  if negb (page mod PAGE_SIZE =? 0) then s
  else
    match free_page_in (regions_ s) page with
    | Some rs => refund s rs 1
    | None => s
    end.

(** The loop of [free_pages]: a bit that is already clear is reported
    as a double free and left alone, a set bit is cleared. *)
Fixpoint clear_range (bm : list bool) (start count : nat) : list bool :=
  match count with
  | O => bm
  | S c =>
      clear_range (if negb (test bm start) then bm else set bm start false)
                  (S start) c
  end.

(** [free_pages]: after the loop the counters move by [count],
    whatever the loop found. *)
Fixpoint free_pages_in (rs : list MemoryRegion) (b count : Z)
  : option (list MemoryRegion) :=
  match rs with
  | [] => None
  | r :: rest =>
      if in_region r b then
        let start := page_index r b in
        if region_total_pages r <? u64 (Z.of_nat start + count) then None
        else Some (mkRegion (region_base r) (region_size r) (u64 (region_free_pages r + count))
                            (region_total_pages r)
                            (clear_range (region_bitmap r) start (Z.to_nat count)) :: rest)
      else
        match free_pages_in rest b count with
        | Some rest' => Some (r :: rest')
        | None => None
        end
  end.

Definition free_pages (s : State) (b count : Z) : State :=
  if negb (b mod PAGE_SIZE =? 0) then s
  else if count =? 0 then s
  else
    match free_pages_in (regions_ s) b count with
    | Some rs => refund s rs count
    | None => s
    end.

(** The loop of [mark_region] over the pages [page], ..., of one region:
    the bit is written, and the counters move only when it changed. *)
Fixpoint mark_pages (bm : list bool) (page n : nat) (used : bool) (delta : Z)
  : list bool * Z :=
  match n with
  | O => (bm, delta)
  | S n' =>
      let current_state := test bm page in
      mark_pages (set bm page used) (S page) n' used
                 (if Bool.eqb current_state used then delta
                  else if used then delta + 1 else delta - 1)
  end.

(** [mark_region]: every region that contains [base] is visited; [delta]
    is the number of pages that became used minus those that became
    free. *)
Fixpoint mark_region_in (rs : list MemoryRegion) (b sz : Z) (used : bool)
  : list MemoryRegion * Z :=
  match rs with
  | [] => ([], 0)
  | r :: rest =>
      let '(rest', d') := mark_region_in rest b sz used in
      if in_region r b then
        let start_page := (b - region_base r) / PAGE_SIZE in
        let end_page := Z.min (u64 (start_page + sz / PAGE_SIZE)) (region_total_pages r) in
        let '(bm, d) := mark_pages (region_bitmap r) (Z.to_nat start_page)
                                   (Z.to_nat (end_page - start_page)) used 0 in
        (mkRegion (region_base r) (region_size r) (u64 (region_free_pages r - d))
                  (region_total_pages r) bm :: rest', d + d')
      else (r :: rest', d')
  end.

Definition mark_region (s : State) (b sz : Z) (used : bool) : State :=
  let b := align_up b PAGE_SIZE in
  let sz := align_down sz PAGE_SIZE in
  if sz =? 0 then s
  else
    let '(rs, d) := mark_region_in (regions_ s) b sz used in
    mkState rs (total_pages_ s)
            (u64 (free_pages_ s - d)) (u64 (used_pages_ s + d))
            (u64 (free_memory_ s - d * PAGE_SIZE))
            (u64 (used_memory_ s + d * PAGE_SIZE))
            (page_frames_allocated_ s) (page_frames_freed_ s).

Definition is_page_free (s : State) (page : Z) : bool :=
  match List.find (fun r => in_region r page) (regions_ s) with
  | Some r => negb (test (region_bitmap r) (page_index r page))
  | None => false
  end.

Definition is_page_allocated (s : State) (page : Z) : bool :=
  match List.find (fun r => in_region r page) (regions_ s) with
  | Some r => test (region_bitmap r) (page_index r page)
  | None => false
  end.

(** What the counters are meant to track. *)
Definition clear_bits (s : State) : Z :=
  Z.of_nat (list_sum (map (fun r => length (filter (fun b => b = false) (region_bitmap r)))
                          (regions_ s))).

(** A PMM right after [init] over one free range of [n] pages. *)
Definition fresh (b : Z) (n : nat) : State :=
  mkState [mkRegion b (Z.of_nat n * PAGE_SIZE) (Z.of_nat n) (Z.of_nat n)
                    (replicate n false)]
          (Z.of_nat n) (Z.of_nat n) 0 (Z.of_nat n * PAGE_SIZE) 0 0 0.

(** A region that lies inside the 64-bit physical address space. *)
Definition region_in_range (r : MemoryRegion) : Prop :=
  0 <= region_base r /\ 0 <= region_total_pages r /\
  region_base r + region_total_pages r * PAGE_SIZE <= 2 ^ 64.

(** *** Counters and bitmaps *)

(** The clear bits of the bitmaps of a list of regions, and the pages
    the regions have. *)
Definition clear_in (rs : list MemoryRegion) : Z :=
  Z.of_nat (list_sum (map (fun r => length (filter (fun b => b = false) (region_bitmap r)))
                          rs)).

Definition pages_in (rs : list MemoryRegion) : Z :=
  Z.of_nat (list_sum (map (fun r => length (region_bitmap r)) rs)).

(** A region whose bitmap has one bit per page and whose counter of
    free pages is the number of clear bits. *)
Definition region_ok (r : MemoryRegion) : Prop :=
  length (region_bitmap r) = Z.to_nat (region_total_pages r) /\
  0 <= region_total_pages r /\
  region_free_pages r = clear_in [r].

(** The counters of the manager say what the bitmaps say. *)
Definition consistent (s : State) : Prop :=
  Forall region_ok (regions_ s) /\
  total_pages_ s = pages_in (regions_ s) /\ total_pages_ s < 2 ^ 52 /\
  free_pages_ s = clear_in (regions_ s) /\
  used_pages_ s = total_pages_ s - free_pages_ s /\
  free_memory_ s = free_pages_ s * PAGE_SIZE /\
  used_memory_ s = used_pages_ s * PAGE_SIZE.

End PMM.

(** ** Virtual memory manager (mm/virtual) *)

Module VMM.
Import Ints.

Definition PAGE_TABLE_ENTRIES : Z := 512.
Definition PAGE_SIZE : Z := 4096.

(** [enum class PageFlags] *)
Definition Present : Z := 1.
Definition Writable : Z := 2.
Definition UserAccessible : Z := 4.
Definition WriteThrough : Z := 8.
Definition CacheDisabled : Z := 16.
Definition HugePage : Z := 128.
Definition Global : Z := 256.
Definition NoExecute : Z := 2 ^ 63.

(** [PageTableEntry]: the 64-bit [raw] word and its bit fields. *)
Definition is_present (raw : Z) : bool := Z.testbit raw 0.
Definition is_huge (raw : Z) : bool := Z.testbit raw 7.

Definition get_address (raw : Z) : Z :=
  Z.shiftl (Z.land (Z.shiftr raw 12) (2 ^ 40 - 1)) 12.

Definition set_address (raw addr : Z) : Z :=
  Z.lor (Z.land raw (Z.lnot (Z.shiftl (2 ^ 40 - 1) 12)))
        (Z.shiftl (Z.land (Z.shiftr addr 12) (2 ^ 40 - 1)) 12).

Definition set_field (raw : Z) (bit : Z) (v : bool) : Z :=
  if v then Z.setbit raw bit else Z.clearbit raw bit.

Definition has_flag (flags flag : Z) : bool := negb (Z.land flags flag =? 0).

(** Physical memory, read and written in 64-bit words.  The sources
    reach a table through [phys_to_virt] and come back through
    [virt_to_phys] (arch headers, not part of the sources); the two are
    taken to be inverse, so a table pointer is its physical address. *)
Definition Memory : Type := Z -> Z.

Definition read (m : Memory) (table idx : Z) : Z := m (table + 8 * idx).

Definition write (m : Memory) (table idx v : Z) : Memory :=
  fun a => if a =? table + 8 * idx then v else m a.

(** [memset(table, 0, PAGE_SIZE)] *)
Definition zero_page (m : Memory) (p : Z) : Memory :=
  fun a => if (p <=? a) && (a <? p + PAGE_SIZE) then 0 else m a.

Record AddressSpace := mkSpace {
  pml4 : Z;
  allocated_pages : Z;
  mapped_pages : Z
}.

Record State := mkState {
  mem : Memory;
  current_space_ : AddressSpace;
  pmm : PMM.State;
  invalidated : list Z
}.

Definition count_table (sp : AddressSpace) (d : Z) : AddressSpace :=
  mkSpace (pml4 sp) (u64 (allocated_pages sp + d)) (mapped_pages sp).

Definition count_mapping (sp : AddressSpace) (d : Z) : AddressSpace :=
  mkSpace (pml4 sp) (allocated_pages sp) (u64 (mapped_pages sp + d)).

(** [indices[level] = (virt >> (12 + 9 * level)) & 0x1FF] *)
Definition index_of (virt : Z) (level : nat) : Z :=
  Z.land (Z.shiftr virt (12 + 9 * Z.of_nat level)) 511.

(** [get_next_table(&table[idx], level, allocate)]; [None] is the null
    pointer. *)
Definition get_next_table (s : State) (table idx : Z) (level : nat)
  (allocate : bool) : option Z * State :=
  if negb (is_present (read (mem s) table idx)) then
    if negb allocate then (None, s)
    else
      match PMM.allocate_page (pmm s) with
      | (None, p') => (None, mkState (mem s) (current_space_ s) p' (invalidated s))
      | (Some new_table_phys, p') =>
          let m1 := zero_page (mem s) new_table_phys in
          let e := set_field
                     (set_field
                        (set_field (set_address 0 new_table_phys) 0 true)
                        1 true)
                     2 (Nat.eqb level 0) in
          let m2 := write m1 table idx e in
          (Some (get_address (read m2 table idx)),
           mkState m2 (count_table (current_space_ s) 1) p' (invalidated s))
      end
  else (Some (get_address (read (mem s) table idx)), s).

(** The descent of [map_page_internal], [for (i = 3; i > 0; i--)]. *)
Fixpoint map_descend (s : State) (current virt : Z) (levels : list nat)
  : option Z * State :=
  match levels with
  | [] => (Some current, s)
  | i :: rest =>
      match get_next_table s current (index_of virt i) i true with
      | (None, s') => (None, s')
      | (Some next, s') => map_descend s' next virt rest
      end
  end.

Definition leaf_entry (phys flags : Z) : Z :=
  let e := set_address 0 phys in
  let e := set_field e 0 (has_flag flags Present) in
  let e := set_field e 1 (has_flag flags Writable) in
  let e := set_field e 2 (has_flag flags UserAccessible) in
  let e := set_field e 3 (has_flag flags WriteThrough) in
  let e := set_field e 4 (has_flag flags CacheDisabled) in
  let e := set_field e 8 (has_flag flags Global) in
  set_field e 63 (has_flag flags NoExecute).

Definition map_page_internal (s : State) (virt phys flags : Z) : bool * State :=
  if negb (virt mod PAGE_SIZE =? 0) || negb (phys mod PAGE_SIZE =? 0)
  then (false, s)
  else
    match map_descend s (pml4 (current_space_ s)) virt [3; 2; 1]%nat with
    | (None, s') => (false, s')
    | (Some pt, s') =>
        if is_present (read (mem s') pt (index_of virt 0)) then (false, s')
        else
          (true,
           mkState (write (mem s') pt (index_of virt 0) (leaf_entry phys flags))
                   (count_mapping (current_space_ s') 1)
                   (pmm s') (virt :: invalidated s'))
    end.

Definition map_page := map_page_internal.

(** The descent of [unmap_page_internal], [for (i = 3; i >= 0; i--)]:
    the visited tables, [tables[3]] first.  [None]: an entry on the way
    is not present. *)
Fixpoint unmap_descend (m : Memory) (current virt : Z) (levels : list nat)
  : option (list Z) :=
  match levels with
  | [] => Some [current]
  | i :: rest =>
      if negb (is_present (read m current (index_of virt i))) then None
      else
        match unmap_descend m (get_address (read m current (index_of virt i)))
                            virt rest with
        | Some ts => Some (current :: ts)
        | None => None
        end
  end.

Definition table_empty (m : Memory) (table : Z) : bool :=
  forallb (fun j => negb (is_present (read m table j)))
          (seqZ 0 PAGE_TABLE_ENTRIES).

(** What a call comes to: it returns, or it indexes [tables] past its
    [PAGE_TABLE_LEVELS] elements. *)
Inductive outcome :=
| Returned (b : bool) (s : State)
| OutOfBounds (s : State).

(** The pruning pass, [for (i = 1; i < PAGE_TABLE_LEVELS; i++)], over
    the array [tables] indexed by level. *)
Fixpoint prune (s : State) (tables : list Z) (virt : Z) (levels : list nat)
  : outcome :=
  match levels with
  | [] => Returned true s
  | i :: rest =>
      match tables !! i with
      | None => OutOfBounds s
      | Some table =>
          if table_empty (mem s) table then
            let s1 := mkState (mem s) (count_table (current_space_ s) (-1))
                              (PMM.free_page (pmm s) table) (invalidated s) in
            match tables !! S i with
            | None => OutOfBounds s1
            | Some parent =>
                prune (mkState (write (mem s1) parent (index_of virt (S i)) 0)
                               (current_space_ s1) (pmm s1) (invalidated s1))
                      tables virt rest
            end
          else prune s tables virt rest
      end
  end.

(** The state [unmap_page_internal] reaches before its pruning pass:
    the mapped frame handed to the PMM, the leaf entry zeroed, the
    mapping uncounted and its TLB entry invalidated. *)
Definition clear_leaf (s : State) (pt virt : Z) : State :=
  mkState (write (mem s) pt (index_of virt 0) 0)
          (count_mapping (current_space_ s) (-1))
          (PMM.free_page (pmm s) (get_address (read (mem s) pt (index_of virt 0))))
          (virt :: invalidated s).

Definition unmap_page_internal (s : State) (virt : Z) : outcome :=
  if negb (virt mod PAGE_SIZE =? 0) then Returned false s
  else
    match unmap_descend (mem s) (pml4 (current_space_ s)) virt [3; 2; 1]%nat with
    | None => Returned false s
    | Some walked =>
        let tables := reverse walked in
        match tables !! 0%nat with
        | None => OutOfBounds s
        | Some pt =>
            let entry := read (mem s) pt (index_of virt 0) in
            if negb (is_present entry) then Returned false s
            else prune (clear_leaf s pt virt) tables virt [1; 2; 3]%nat
        end
    end.

Definition unmap_page := unmap_page_internal.

(** [walk_page_table]: the address found, if any, and the level the
    walk stopped at. *)
Fixpoint walk_from (m : Memory) (current address : Z) (i : nat)
  : option Z * nat :=
  let e := read m current (index_of address i) in
  if negb (is_present e) then (None, i)
  else
    match i with
    | O => (Some (get_address e), O)
    | S i' =>
        if is_huge e then (Some (get_address e), i)
        else walk_from m (get_address e) address i'
    end.

Definition walk_page_table (s : State) (address : Z) : option Z * nat :=
  walk_from (mem s) (pml4 (current_space_ s)) address 3.

Definition get_physical_address (s : State) (virt : Z) : option Z :=
  match walk_page_table s virt with
  | (None, _) => None
  | (Some phys, level) =>
      let page_size := PAGE_SIZE * PAGE_TABLE_ENTRIES ^ Z.of_nat level in
      Some (u64 (phys + Z.land virt (u64 (page_size - 1))))
  end.

(** [init]: the kernel address space over a zero-filled PML4 taken
    from the PMM. *)
Definition init (m : Memory) (p : PMM.State) : option State :=
  match PMM.allocate_page p with
  | (None, _) => None
  | (Some pml4_phys, p') =>
      Some (mkState (zero_page m pml4_phys) (mkSpace pml4_phys 0 0) p' [])
  end.

Definition returned (o : outcome) : option bool :=
  match o with Returned b _ => Some b | OutOfBounds _ => None end.

Definition state_of (o : outcome) : State :=
  match o with Returned _ s | OutOfBounds s => s end.

(** A kernel address space booted over 64 free pages at 0x100000, and
    one more frame, 0x101000, taken from the PMM to be mapped. *)
Definition booted : State :=
  match init (fun _ => 0) (PMM.fresh 0x100000 64) with
  | Some s =>
      mkState (mem s) (current_space_ s) (snd (PMM.allocate_page (pmm s)))
              (invalidated s)
  | None => mkState (fun _ => 0) (mkSpace 0 0 0) (PMM.fresh 0x100000 64) []
  end.

(** [booted] with the frame mapped at 0x400000, Present and Writable. *)
Definition one_mapping : State :=
  snd (map_page booted 0x400000 0x101000 (Z.lor Present Writable)).

(** The run that takes the pruning pass past the PML4.  The frame of
    the PML4, 0x100000, is mapped at 0x400000 and unmapped again, which
    hands it to the PMM; [map_page] of [all_ones], the address whose
    four indices are 1, then gets that frame as its new table. *)
Definition all_ones : Z := 0x8040201000.

Definition pml4_mapped : State :=
  snd (map_page booted 0x400000 0x100000 (Z.lor Present Writable)).

Definition pml4_released : State := state_of (unmap_page pml4_mapped 0x400000).

Definition pml4_looped : State :=
  snd (map_page pml4_released all_ones 0x102000 (Z.lor Present Writable)).

End VMM.

(** ** Scheduler (task/scheduler) *)

Module Sched.
Import Ints.

Inductive ThreadState := Created | Ready | Running | Blocked | Sleeping | Dead.

Inductive ProcessState :=
| ProcCreated | ProcReady | ProcRunning | ProcBlocked | ProcSleeping
| ProcZombie | ProcDead.

Inductive SchedulingPolicy := RoundRobin | Priority | RealTime | Fair.

Definition ThreadState_eqb (a b : ThreadState) : bool :=
  match a, b with
  | Created, Created | Ready, Ready | Running, Running
  | Blocked, Blocked | Sleeping, Sleeping | Dead, Dead => true
  | _, _ => false
  end.

(** Threads and processes are heap objects; a pointer is a key of the
    store it points into, [0] being the null pointer. *)
Record Thread := mkThread {
  state_ : ThreadState;
  process_ : nat;
  sleep_until_ : Z;
  priority_ : Z
}.

Record Process := mkProcess {
  name_ : string;
  proc_state_ : ProcessState;
  cpu_time_used : Z
}.

Record RunQueue := mkQueue {
  threads : list nat;
  current_index : nat
}.

Record SchedulingStatistics := mkStats {
  total_context_switches : Z;
  total_processes_scheduled : Z;
  total_cpu_time : Z;
  idle_time : Z;
  last_switch_time : Z
}.

Record Scheduler := mkSched {
  run_queues_ : list RunQueue;
  idle_thread_ : nat;
  current_thread_ : nat;
  policy_ : SchedulingPolicy;
  time_slice_default_ : Z;
  last_schedule_time_ : Z;
  timer_ticks_ : Z;
  statistics_ : SchedulingStatistics;
  thread_heap : gmap nat Thread;
  process_heap : gmap nat Process;
  tsc_reads : nat;
(** the trace of [switch_to_thread]: the threads dispatched, latest first *)
dispatched : list nat
}.

Section WithClock.

(** [arch::CPU::read_tsc]: the value of the k-th read. *)
Variable tsc : nat -> Z.

Definition with_threads (s : Scheduler) (h : gmap nat Thread) : Scheduler :=
  mkSched (run_queues_ s) (idle_thread_ s) (current_thread_ s) (policy_ s)
          (time_slice_default_ s) (last_schedule_time_ s) (timer_ticks_ s)
          (statistics_ s) h (process_heap s) (tsc_reads s) (dispatched s).

Definition with_queues (s : Scheduler) (qs : list RunQueue) : Scheduler :=
  mkSched qs (idle_thread_ s) (current_thread_ s) (policy_ s)
          (time_slice_default_ s) (last_schedule_time_ s) (timer_ticks_ s)
          (statistics_ s) (thread_heap s) (process_heap s) (tsc_reads s)
          (dispatched s).

Definition with_current (s : Scheduler) (t : nat) : Scheduler :=
  mkSched (run_queues_ s) (idle_thread_ s) t (policy_ s)
          (time_slice_default_ s) (last_schedule_time_ s) (timer_ticks_ s)
          (statistics_ s) (thread_heap s) (process_heap s) (tsc_reads s)
          (dispatched s).

Definition read_tsc (s : Scheduler) : Z * Scheduler :=
  (u64 (tsc (tsc_reads s)),
   mkSched (run_queues_ s) (idle_thread_ s) (current_thread_ s) (policy_ s)
           (time_slice_default_ s) (last_schedule_time_ s) (timer_ticks_ s)
           (statistics_ s) (thread_heap s) (process_heap s) (S (tsc_reads s))
           (dispatched s)).

Definition get_state (h : gmap nat Thread) (t : nat) : ThreadState :=
  match h !! t with Some th => state_ th | None => Dead end.

Definition set_state (h : gmap nat Thread) (t : nat) (st : ThreadState)
  : gmap nat Thread :=
  match h !! t with
  | Some th => <[t := mkThread st (process_ th) (sleep_until_ th) (priority_ th)]> h
  | None => h
  end.

(** [Thread::should_wake_up] *)
Definition should_wake_up (h : gmap nat Thread) (t : nat) (current_time : Z) : bool :=
  match h !! t with
  | Some th => ThreadState_eqb (state_ th) Sleeping && (sleep_until_ th <=? current_time)
  | None => false
  end.

Definition validate_thread (s : Scheduler) (t : nat) : bool :=
  if Nat.eqb t 0 then false
  else
    match thread_heap s !! t with
    | None => false
    | Some th =>
        if ThreadState_eqb (state_ th) Dead then false
        else
          match process_heap s !! process_ th with
          | None => false
          | Some p =>
              match proc_state_ p with
              | ProcDead | ProcZombie => false
              | _ => true
              end
          end
    end.

Definition calculate_priority (s : Scheduler) (t : nat) : nat :=
  match thread_heap s !! t with
  | None => 0%nat
  | Some th =>
      match process_heap s !! process_ th with
      | None => 0%nat
      | Some _ =>
          let priority :=
            match policy_ s with
            | RoundRobin => 1%nat
            | Priority => Z.to_nat (u32 (priority_ th))
            | RealTime => 0%nat
            | Fair => 2%nat
            end in
          if (length (run_queues_ s) <=? priority)%nat
          then (length (run_queues_ s) - 1)%nat else priority
      end
  end.

Definition calculate_time_slice (s : Scheduler) (t : nat) : Z :=
  match thread_heap s !! t with
  | None => time_slice_default_ s
  | Some th =>
      match process_heap s !! process_ th with
      | None => time_slice_default_ s
      | Some p =>
          let base_slice := time_slice_default_ s in
          match policy_ s with
          | RoundRobin => base_slice
          | Priority => u64 (base_slice * u64 (4 - priority_ th)) / 4
          | RealTime => u64 (base_slice * 2)
          | Fair => u64 (base_slice * cpu_time_used p)
                    / u64 (total_cpu_time (statistics_ s) + 1)
          end
      end
  end.

Definition push_back (qs : list RunQueue) (band t : nat) : list RunQueue :=
  match qs !! band with
  | Some q => <[band := mkQueue (threads q ++ [t]) (current_index q)]> qs
  | None => qs
  end.

Definition add_thread (s : Scheduler) (t : nat) : Scheduler :=
  if negb (validate_thread s t) then s
  else
    let priority := calculate_priority s t in
    let priority :=
      if (length (run_queues_ s) <=? priority)%nat
      then (length (run_queues_ s) - 1)%nat else priority in
    with_queues (with_threads s (set_state (thread_heap s) t Ready))
                (push_back (run_queues_ s) priority t).

(** [cleanup_dead_threads]: Dead threads leave their queue and are
    destroyed; a Dead current thread is replaced by the idle thread. *)
Definition cleanup_dead_threads (s : Scheduler) : Scheduler :=
  let dead t := ThreadState_eqb (get_state (thread_heap s) t) Dead in
  let victims := concat (map (fun q => filter (fun t => dead t = true) (threads q))
                             (run_queues_ s)) in
  let qs := map (fun q => mkQueue (filter (fun t => dead t = false) (threads q))
                                  (current_index q))
                (run_queues_ s) in
  let cur := if existsb (Nat.eqb (current_thread_ s)) victims
             then idle_thread_ s else current_thread_ s in
  with_current
    (with_queues (with_threads s (foldr delete (thread_heap s) victims)) qs)
    cur.

(** The inner loop of [select_next_thread] over one band. *)
Fixpoint scan_band (s : Scheduler) (current_time : Z) (h : gmap nat Thread)
  (q : RunQueue) (n : nat) : option nat * RunQueue * gmap nat Thread :=
  match n with
  | O => (None, q, h)
  | S n' =>
      let thread := default 0%nat (threads q !! current_index q) in
      let q' := mkQueue (threads q)
                        ((current_index q + 1) mod length (threads q))%nat in
      if validate_thread (with_threads s h) thread then
        if ThreadState_eqb (get_state h thread) Ready then (Some thread, q', h)
        else if ThreadState_eqb (get_state h thread) Sleeping
                && should_wake_up h thread current_time
        then (Some thread, q', set_state h thread Ready)
        else scan_band s current_time h q' n'
      else scan_band s current_time h q' n'
  end.

Fixpoint select_bands (s : Scheduler) (current_time : Z) (h : gmap nat Thread)
  (qs : list RunQueue) : option nat * list RunQueue * gmap nat Thread :=
  match qs with
  | [] => (None, [], h)
  | q :: rest =>
      match threads q with
      | [] =>
          let '(r, rest', h') := select_bands s current_time h rest in
          (r, q :: rest', h')
      | _ =>
          let q0 := mkQueue (threads q)
                            (current_index q mod length (threads q))%nat in
          match scan_band s current_time h q0 (length (threads q0)) with
          | (Some t, q', h') => (Some t, q' :: rest, h')
          | (None, q', h') =>
              let '(r, rest', h'') := select_bands s current_time h' rest in
              (r, q' :: rest', h'')
          end
      end
  end.

Definition select_next_thread (s : Scheduler) : nat * Scheduler :=
  let '(current_time, s) := read_tsc s in
  let s := cleanup_dead_threads s in
  let '(r, qs, h) := select_bands s current_time (thread_heap s) (run_queues_ s) in
  let s := with_queues (with_threads s h) qs in
  match r with
  | Some t => (t, s)
  | None => (idle_thread_ s, s)
  end.

Definition charge_cpu (s : Scheduler) (old_thread : nat) (cpu_time : Z)
  : Scheduler :=
  let procs :=
    match thread_heap s !! old_thread with
    | Some th =>
        match process_heap s !! process_ th with
        | Some p => <[process_ th := mkProcess (name_ p) (proc_state_ p)
                                       (u64 (cpu_time_used p + cpu_time))]>
                      (process_heap s)
        | None => process_heap s
        end
    | None => process_heap s
    end in
  let st := statistics_ s in
  mkSched (run_queues_ s) (idle_thread_ s) (current_thread_ s) (policy_ s)
          (time_slice_default_ s) (last_schedule_time_ s) (timer_ticks_ s)
          (mkStats (total_context_switches st) (total_processes_scheduled st)
                   (u64 (total_cpu_time st + cpu_time)) (idle_time st)
                   (last_switch_time st))
          (thread_heap s) procs (tsc_reads s) (dispatched s).

Definition switch_to_thread (s : Scheduler) (thread : nat) : Scheduler :=
  if Nat.eqb thread 0 || Nat.eqb thread (current_thread_ s) then s
  else
    let old_thread := current_thread_ s in
    let s := with_current s thread in
    let s :=
      if negb (Nat.eqb old_thread 0) && negb (Nat.eqb old_thread (idle_thread_ s))
      then
        let s :=
          if ThreadState_eqb (get_state (thread_heap s) old_thread) Running
          then add_thread (with_threads s (set_state (thread_heap s) old_thread Ready))
                          old_thread
          else s in
        let '(current_time, s) := read_tsc s in
        charge_cpu s old_thread (u64 (current_time - last_schedule_time_ s))
      else s in
    let s := with_threads s (set_state (thread_heap s) thread Running) in
    let '(current_time, s) := read_tsc s in
    let st := statistics_ s in
    let scheduled := negb (Nat.eqb thread (idle_thread_ s)) in
    mkSched (run_queues_ s) (idle_thread_ s) (current_thread_ s) (policy_ s)
            (time_slice_default_ s) current_time (timer_ticks_ s)
            (mkStats (u64 (total_context_switches st + 1))
                     (if scheduled then u64 (total_processes_scheduled st + 1)
                      else total_processes_scheduled st)
                     (total_cpu_time st) (idle_time st) current_time)
            (thread_heap s) (process_heap s) (tsc_reads s)
            (thread :: dispatched s).

Definition wake_sleepers (s : Scheduler) (current_time : Z) : Scheduler :=
  let ids := concat (map threads (run_queues_ s)) in
  with_threads s
    (foldl (fun h t => if should_wake_up h t current_time
                       then set_state h t Ready else h)
           (thread_heap s) ids).

Definition handle_timer_tick (s : Scheduler) : Scheduler :=
  let s := mkSched (run_queues_ s) (idle_thread_ s) (current_thread_ s) (policy_ s)
                   (time_slice_default_ s) (last_schedule_time_ s)
                   (u64 (timer_ticks_ s + 1)) (statistics_ s) (thread_heap s)
                   (process_heap s) (tsc_reads s) (dispatched s) in
  let '(current_time, s) := read_tsc s in
  let s :=
    if negb (Nat.eqb (current_thread_ s) (idle_thread_ s)) then
      let time_slice := calculate_time_slice s (current_thread_ s) in
      if time_slice <? u64 (current_time - last_schedule_time_ s) then
        let '(next_thread, s) := select_next_thread s in
        if negb (Nat.eqb next_thread 0)
           && negb (Nat.eqb next_thread (current_thread_ s))
        then switch_to_thread s next_thread
        else s
      else s
    else s in
  cleanup_dead_threads (wake_sleepers s current_time).

Fixpoint ticks (n : nat) (s : Scheduler) : Scheduler :=
  match n with
  | O => s
  | S n' => ticks n' (handle_timer_tick s)
  end.

End WithClock.

(** The test of the inner loop of [select_next_thread]: a valid thread
    that is Ready, or Sleeping and due. *)
Definition runnable (s : Scheduler) (current_time : Z) (t : nat) : bool :=
  validate_thread s t
  && (ThreadState_eqb (get_state (thread_heap s) t) Ready
      || ThreadState_eqb (get_state (thread_heap s) t) Sleeping
         && should_wake_up (thread_heap s) t current_time).

(** What one scan of a band returns, for a heap [h] and a band [q]
    whose index stands inside it. *)
Definition scan_result (s : Scheduler) (ct : Z) (h : gmap nat Thread) (q : RunQueue)
  (n : nat) (r : option nat * RunQueue * gmap nat Thread) : Prop :=
  let len := length (threads q) in
  let c := current_index q in
  match r with
  | (Some t, q', h') =>
      exists i, (i < n)%nat /\
        threads q !! ((c + i) mod len)%nat = Some t /\
        runnable (with_threads s h) ct t = true /\
        (forall j t', (j < i)%nat -> threads q !! ((c + j) mod len)%nat = Some t' ->
                      runnable (with_threads s h) ct t' = false) /\
        q' = mkQueue (threads q) ((c + i + 1) mod len)%nat /\
        h' = set_state h t Ready
  | (None, q', h') =>
      h' = h /\ threads q' = threads q /\
      forall j t', (j < n)%nat -> threads q !! ((c + j) mod len)%nat = Some t' ->
                   runnable (with_threads s h) ct t' = false
  end.

(** The choice of [select_next_thread] among the bands [qs]: [t] is the
    first runnable thread, in cyclic order from the band's index, of
    the first band that has one; in [qs'] the index of that band
    stands just past [t]. *)
Definition first_runnable (s : Scheduler) (ct : Z) (qs qs' : list RunQueue)
  (t : nat) : Prop :=
  exists (band : nat) (q : RunQueue) (i : nat),
    qs !! band = Some q /\ (i < length (threads q))%nat /\
    threads q !! ((current_index q + i) mod length (threads q))%nat = Some t /\
    runnable s ct t = true /\
    (forall j t', (j < i)%nat ->
       threads q !! ((current_index q + j) mod length (threads q))%nat = Some t' ->
       runnable s ct t' = false) /\
    qs' !! band
      = Some (mkQueue (threads q)
                      ((current_index q + i + 1) mod length (threads q))%nat) /\
    (forall band' q' t', (band' < band)%nat -> qs !! band' = Some q' ->
       t' ∈ threads q' -> runnable s ct t' = false).

Definition none_runnable (s : Scheduler) (ct : Z) (qs : list RunQueue) : Prop :=
  forall q t, q ∈ qs -> t ∈ threads q -> runnable s ct t = false.

(** The entries of a thread in the run queues. *)
Definition queued (s : Scheduler) (t : nat) : nat :=
  length (filter (fun x => x = t) (concat (map threads (run_queues_ s)))).

(** The scheduler after [init]: four empty bands, the idle thread of the
    idle process current and Running. *)
Definition booted (time_slice : Z) : Scheduler :=
  mkSched (replicate 4 (mkQueue [] 0)) 1 1 RoundRobin time_slice 0 0
          (mkStats 0 0 0 0 0)
          {[ 1%nat := mkThread Running 1 0 0 ]}
          {[ 1%nat := mkProcess "idle" ProcRunning 0 ]}
          0 [].

(** [ProcessManager::create_process]: the process and its main thread,
    which is created Ready. *)
Definition create_process (s : Scheduler) (pid tid : nat) (name : string)
  : Scheduler :=
  mkSched (run_queues_ s) (idle_thread_ s) (current_thread_ s) (policy_ s)
          (time_slice_default_ s) (last_schedule_time_ s) (timer_ticks_ s)
          (statistics_ s)
          (<[tid := mkThread Ready pid 0 0]> (thread_heap s))
          (<[pid := mkProcess name ProcReady 0]> (process_heap s))
          (tsc_reads s) (dispatched s).

(** Processes "a" and "b", their main threads 2 and 3 enqueued, time
    slice 1, the idle thread current. *)
Definition two_processes : Scheduler :=
  let s := booted 1 in
  let s := create_process s 2 2 "a" in
  let s := create_process s 3 3 "b" in
  add_thread (add_thread s 2) 3.

(** [two_processes] after the main thread of "a" was given the
    processor, on a clock that stands still. *)
Definition a_running : Scheduler := switch_to_thread (fun _ => 0) two_processes 2.

End Sched.

(** ** AHCI driver (drivers/ahci) *)

Module AHCI.
Import Ints.

Record PortInfo := mkPort {
  sector_count : Z;
  sector_size : Z;
  supports_48bit : bool;
  initialized : bool
}.

Record HBAPRDTEntry := mkPRDT {
  data_base_address : Z;
  data_base_address_upper : Z;
  byte_count : Z;
  interrupt_on_completion : bool
}.

Record FISRegisterH2D := mkFIS {
  fis_type : Z;
  command_control : bool;
  command : Z;
  lba0 : Z; lba1 : Z; lba2 : Z; device : Z;
  lba3 : Z; lba4 : Z; lba5 : Z;
  count_low : Z; count_high : Z
}.

(** Slot 0 as the call leaves it: the command FIS and the eight PRDT
    slots of its command table, and the fields of its command header. *)
Record Command := mkCommand {
  command_fis : FISRegisterH2D;
  prdt_entries : list HBAPRDTEntry;
  command_fis_length : Z;
  write : bool;
  prdt_length : Z;
  clear_busy_on_ok : bool
}.

Definition zero_entry : HBAPRDTEntry := mkPRDT 0 0 0 false.

Definition build_fis (info : PortInfo) (cmd48 cmd28 lba count : Z) : FISRegisterH2D :=
  let byte n := Z.land (Z.shiftr lba n) 255 in
  if supports_48bit info then
    mkFIS 39 true cmd48 (byte 0) (byte 8) (byte 16) (Z.lor 0 224)
          (byte 24) (byte 32) (byte 40)
          (Z.land count 255) (Z.land (Z.shiftr count 8) 255)
  else
    mkFIS 39 true cmd28 (byte 0) (byte 8) (byte 16)
          (Z.lor (u8 (Z.lor 64 (Z.land (Z.shiftr lba 24) 15))) 224)
          0 0 0 (Z.land count 255) 0.

(** [for (i = 0; i < prdt_entries_needed && remaining > 0; i++)] *)
Fixpoint fill_prdt (fuel : nat) (table : list HBAPRDTEntry)
  (i : nat) (needed remaining current_phys : Z) : list HBAPRDTEntry :=
  match fuel with
  | O => table
  | S fuel' =>
      if (Z.of_nat i <? needed) && (0 <? remaining) then
        let chunk_size := Z.min remaining 262144 in
        let e := mkPRDT (Z.land current_phys 4294967295)
                        (u32 (Z.shiftr current_phys 32))
                        (wrap 22 (chunk_size - 1))
                        (Z.of_nat i =? needed - 1) in
        fill_prdt fuel' (<[i := e]> table) (S i) needed
                  (remaining - chunk_size) (u64 (current_phys + chunk_size))
      else table
  end.

Section WithHardware.

(** [send_command]: what the controller answers to an issued command. *)
Variable send_command : Command -> bool.

(** [read_sectors]; [header] and [table] are the addresses found in
    the port registers and in slot 0, [buffer_phys] is what
    [get_physical_address] gives for the buffer.  The result is the
    value returned and the command issued, if one was. *)
Definition read_sectors (ports_ : list PortInfo) (header table : Z)
  (buffer_phys : option Z) (port_number lba count : Z)
  : bool * option Command :=
  match ports_ !! Z.to_nat port_number with
  | None => (false, None)
  | Some info =>
      if negb (initialized info) then (false, None)
      else if sector_count info <? u64 (lba + count) then (false, None)
      else if count =? 0 then (true, None)
      else if header =? 0 then (false, None)
      else if table =? 0 then (false, None)
      else
        let fis := build_fis info 37 32 lba count in
        let buffer_phys := default 0 buffer_phys in
        if buffer_phys =? 0 then (false, None)
        else
          let total_bytes := u32 (count * sector_size info) in
          let prdt_entries_needed := (total_bytes + 262144 - 1) / 262144 in
          if 8 <? prdt_entries_needed then (false, None)
          else
            let prdt := fill_prdt 8 (replicate 8 zero_entry) 0
                                  prdt_entries_needed total_bytes buffer_phys in
            let cmd := mkCommand fis prdt 5 false (u16 prdt_entries_needed) true in
            (send_command cmd, Some cmd)
  end.

End WithHardware.

(** The PRDT entries a command really uses. *)
Definition used_entries (c : Command) : list HBAPRDTEntry :=
  take (Z.to_nat (prdt_length c)) (prdt_entries c).

(** An initialized LBA48 port of 8 GiB, and the addresses of slot 0. *)
Definition disk : list PortInfo := [mkPort 16777216 512 true true].

(** The address and the count a device reads from a register FIS: six
    address bytes and two count bytes under LBA48, three address bytes,
    the low four bits of the device register and one count byte under
    LBA28. *)
Definition fis_lba48 (f : FISRegisterH2D) : Z :=
  lba0 f + 2 ^ 8 * lba1 f + 2 ^ 16 * lba2 f
  + 2 ^ 24 * lba3 f + 2 ^ 32 * lba4 f + 2 ^ 40 * lba5 f.

Definition fis_lba28 (f : FISRegisterH2D) : Z :=
  lba0 f + 2 ^ 8 * lba1 f + 2 ^ 16 * lba2 f + 2 ^ 24 * Z.land (device f) 15.

Definition fis_count (f : FISRegisterH2D) : Z := count_low f + 2 ^ 8 * count_high f.

(** An initialized LBA28 port of the same size. *)
Definition old_disk : list PortInfo := [mkPort 16777216 512 false true].

End AHCI.

(** ** IP layer (net/ip): fragment reassembly *)

Module IP.
Import Ints.

(** [struct PACKED IPv4Header], the fields as the CPU loads them. *)
Record IPv4Header := mkHeader {
  version_ihl : Z;
  dscp_ecn : Z;
  total_length : Z;
  identification : Z;
  flags_fragment_offset : Z;
  time_to_live : Z;
  protocol : Z;
  header_checksum : Z;
  source_address : Z;
  destination_address : Z
}.

(** [reinterpret_cast<const IPv4Header*>(buffer)] *)
Definition load_header (buf : list Z) : IPv4Header :=
  mkHeader (byte_at buf 0) (byte_at buf 1) (load16 buf 2) (load16 buf 4)
           (load16 buf 6) (byte_at buf 8) (byte_at buf 9) (load16 buf 10)
           (load32 buf 12) (load32 buf 16).

Definition ihl (h : IPv4Header) : Z := Z.land (version_ihl h) 15.
Definition header_length (h : IPv4Header) : Z := u16 (ihl h * 4).
Definition fragment_offset (h : IPv4Header) : Z :=
  Z.land (flags_fragment_offset h) 8191.
Definition more_fragments (h : IPv4Header) : bool :=
  negb (Z.land (flags_fragment_offset h) 8192 =? 0).

Record IPPacket := mkPacket {
  pkt_source : Z;
  pkt_destination : Z;
  pkt_protocol : Z;
  pkt_identification : Z;
  pkt_data : list Z;
  pkt_is_fragment : bool;
  pkt_fragment_offset : Z;
  pkt_more_fragments : bool
}.

(** Modelled from the spec: the [fragments] member is a [HashMap]
    (lib/hashmap.hpp is not part of the sources); the spec has it as a
    sorted map offset -> bytes, so it is a list kept in ascending order
    of offset, one entry per offset, and iterated in that order. *)
Fixpoint frag_insert (k : Z) (v : list Z) (m : list (Z * list Z))
  : list (Z * list Z) :=
  match m with
  | [] => [(k, v)]
  | (k', v') :: rest =>
      if k <? k' then (k, v) :: m
      else if k =? k' then (k, v) :: rest
      else (k', v') :: frag_insert k v rest
  end.

Record FragmentBuffer := mkBuffer {
  fb_identification : Z;
  fb_source : Z;
  fb_destination : Z;
  fb_protocol : Z;
  fragments : list (Z * list Z);
  last_accessed : Z;
  fb_total_length : Z;
  received_length : Z;
  is_complete : bool
}.

Record IPLayer := mkLayer {
  fragment_buffers_ : gmap Z FragmentBuffer;
(** protocol number and the index of the registered callback *)
protocol_handlers_ : list (Z * nat);
(** the calls of protocol callbacks, oldest first *)
delivered : list (nat * IPPacket)
}.

Definition fragment_key (source_ip dest_ip identification protocol : Z) : Z :=
  let key := Z.lor (u64 (Z.shiftl source_ip 32)) dest_ip in
  let key := Z.lor (u64 (Z.shiftl key 16)) identification in
  Z.lor (u64 (Z.shiftl key 8)) protocol.

(** The coverage loop: [complete] and [actual_len]. *)
Fixpoint coverage (frags : list (Z * list Z)) (last_offset actual_len : Z)
  : bool * Z :=
  match frags with
  | [] => (true, actual_len)
  | (off, bytes) :: rest =>
      if negb (off =? last_offset) then (false, actual_len)
      else coverage rest (u32 (last_offset + Z.of_nat (length bytes)))
                    (u32 (actual_len + Z.of_nat (length bytes)))
  end.

Definition reassemble (frags : list (Z * list Z)) : list Z :=
  concat (map snd frags).

Definition dispatch (handlers : list (Z * nat)) (p : IPPacket)
  : list (nat * IPPacket) :=
  map (fun h => (snd h, p)) (filter (fun h => fst h = pkt_protocol p) handlers).

(** [process_fragment(header, data, size)], the time-stamp counter
    reading [now]. *)
Definition process_fragment (now : Z) (l : IPLayer) (header : IPv4Header)
  (data : list Z) (size : Z) : IPLayer :=
  let fragment_off := fragment_offset header in
  let ident := swap_endian_16 (identification header) in
  let source_ip := source_address header in
  let dest_ip := destination_address header in
  let proto := protocol header in
  let key := fragment_key source_ip dest_ip ident proto in
  let buffer :=
    match fragment_buffers_ l !! key with
    | None => mkBuffer ident source_ip dest_ip proto [] now 0 0 false
    | Some b => b
    end in
  let offset := u16 (fragment_off * 8) in
  let fragment_data :=
    take (Z.to_nat (size - header_length header))
         (drop (Z.to_nat (header_length header)) data) in
  let frags := frag_insert offset fragment_data (fragments buffer) in
  let received := u32 (received_length buffer + Z.of_nat (length fragment_data)) in
  let total :=
    if negb (more_fragments header)
    then u32 (offset + Z.of_nat (length fragment_data))
    else fb_total_length buffer in
  let buffer' :=
    mkBuffer (fb_identification buffer) (fb_source buffer) (fb_destination buffer)
             (fb_protocol buffer) frags now total received (is_complete buffer) in
  let stored := mkLayer (<[key := buffer']> (fragment_buffers_ l))
                        (protocol_handlers_ l) (delivered l) in
  if 0 <? total then
    let '(complete, actual_len) := coverage frags 0 0 in
    if complete && (actual_len =? total) then
      let packet := mkPacket (fb_source buffer') (fb_destination buffer')
                             (fb_protocol buffer') (fb_identification buffer')
                             (reassemble frags) false 0 false in
      mkLayer (delete key (fragment_buffers_ l))
              (protocol_handlers_ l)
              (delivered l ++ dispatch (protocol_handlers_ l) packet)
    else stored
  else stored.

(** [reassemble_packets]: buffers idle for more than the timeout go. *)
Definition reassemble_packets (now : Z) (l : IPLayer) : IPLayer :=
  mkLayer (filter (fun kb => u64 (now - last_accessed (snd kb)) <= 30000000)
                  (fragment_buffers_ l))
          (protocol_handlers_ l) (delivered l).

(** An IPv4 datagram on the wire (RFC 791): 20 header bytes in network
    byte order, then the payload; [frag_offset] is in units of 8 bytes. *)
Definition wire_fragment (ident : Z) (mf : bool) (frag_offset proto src dst : Z)
  (payload : list Z) : list Z :=
  let total := 20 + Z.of_nat (length payload) in
  let flags_off := (if mf then 8192 else 0) + frag_offset in
  [69; 0; total / 256; total mod 256;
   ident / 256; ident mod 256; flags_off / 256; flags_off mod 256;
   64; proto; 0; 0;
   src / 16777216; src / 65536 mod 256; src / 256 mod 256; src mod 256;
   dst / 16777216; dst / 65536 mod 256; dst / 256 mod 256; dst mod 256]
  ++ payload.

(** What [process_packet] hands to [process_fragment] for a frame. *)
Definition receive_fragment (now : Z) (l : IPLayer) (buf : list Z) : IPLayer :=
  let header := load_header buf in
  process_fragment now l header buf (swap_endian_16 (total_length header)).

(** A layer with a handler registered for UDP, and a datagram of
    twelve payload bytes from 192.168.1.20 to 192.168.1.10 sent as two
    fragments: bytes 0..7 with MF set, bytes 8..11 at offset 8 (one
    unit) with MF clear. *)
Definition listening : IPLayer := mkLayer ∅ [(17, 0%nat)] [].

Definition first_fragment : list Z :=
  wire_fragment 7 true 0 17 3232235796 3232235786 [1; 2; 3; 4; 5; 6; 7; 8].

Definition last_fragment : list Z :=
  wire_fragment 7 false 1 17 3232235796 3232235786 [9; 10; 11; 12].

(** A header whose flags and fragment offset went through
    [swap_endian_16], as [identification] and [total_length] do. *)
Definition with_offset_swapped (h : IPv4Header) : IPv4Header :=
  mkHeader (version_ihl h) (dscp_ecn h) (total_length h) (identification h)
           (swap_endian_16 (flags_fragment_offset h)) (time_to_live h)
           (protocol h) (header_checksum h) (source_address h)
           (destination_address h).

Definition receive_fragment_swapped (now : Z) (l : IPLayer) (buf : list Z)
  : IPLayer :=
  let header := load_header buf in
  process_fragment now l (with_offset_swapped header) buf
                   (swap_endian_16 (total_length header)).

Definition buffers (l : IPLayer) : list FragmentBuffer :=
  map snd (map_to_list (fragment_buffers_ l)).

(** *** Building, routing and accepting datagrams *)

Definition is_byte (b : Z) : Prop := 0 <= b < 256.

(** A 16-bit and a 32-bit field written into a packed struct on
    x86_64: little-endian bytes. *)
Definition store16 (v : Z) : list Z := [v mod 256; v / 256 mod 256].
Definition store32 (v : Z) : list Z :=
  store16 (v mod 65536) ++ store16 (v / 65536 mod 65536).

(** [calculate_checksum], the first loop: [sum += *ptr++] over 16-bit
    words read as the CPU loads them, then the odd byte. *)
Fixpoint sum_words (sum : Z) (data : list Z) : Z :=
  match data with
  | a :: b :: rest => sum_words (u32 (sum + (a + 256 * b))) rest
  | [a] => u32 (sum + a)
  | [] => sum
  end.

(** The same sum without the 32-bit wrap-around. *)
Fixpoint word_sum (data : list Z) : Z :=
  match data with
  | a :: b :: rest => a + 256 * b + word_sum rest
  | [a] => a
  | [] => 0
  end.

(** [while (sum >> 16) sum = (sum & 0xFFFF) + (sum >> 16)]; [None] when
    [fuel] iterations did not leave the loop. *)
Fixpoint fold_carries (fuel : nat) (sum : Z) : option Z :=
  match fuel with
  | O => None
  | S fuel' =>
      if Z.shiftr sum 16 =? 0 then Some sum
      else fold_carries fuel' (u32 (Z.land sum 65535 + Z.shiftr sum 16))
  end.

(** [static_cast<u16>(~sum)] *)
Definition complement16 (sum : Z) : Z := u16 (Z.lnot sum).

Definition calculate_checksum (fuel : nat) (data : list Z) : option Z :=
  complement16 <$> fold_carries fuel (sum_words 0 data).

Definition version (h : IPv4Header) : Z := Z.shiftr (version_ihl h) 4.

(** [validate_packet(buffer, size)], the buffer holding [size] bytes.
    The checksum is computed over the header with its checksum field
    set to zero. *)
Definition validate_packet (fuel : nat) (buffer : list Z) : option bool :=
  let size := Z.of_nat (length buffer) in
  if size <? 20 then Some false
  else
    let header := load_header buffer in
    if negb (version header =? 4) then Some false
    else if ihl header <? 5 then Some false
    else
      let hl := header_length header in
      if size <? hl then Some false
      else
        let checksum := header_checksum header in
        let zeroed := <[10%nat := 0]> (<[11%nat := 0]> buffer) in
        match calculate_checksum fuel (take (Z.to_nat hl) zeroed) with
        | None => None
        | Some calculated =>
            if negb (checksum =? calculated) then Some false
            else
              let total := swap_endian_16 (total_length header) in
              if (size <? total) || (total <? hl) then Some false
              else Some true
        end.

(** [process_packet(source_mac, destination_mac, buffer, size)] *)
Definition process_packet (fuel : nat) (now : Z) (l : IPLayer) (buffer : list Z)
  : option IPLayer :=
  match validate_packet fuel buffer with
  | None => None
  | Some false => Some l
  | Some true =>
      let size := Z.of_nat (length buffer) in
      let header := load_header buffer in
      let total := swap_endian_16 (total_length header) in
      if size <? total then Some l
      else if (0 <? fragment_offset header) || more_fragments header
      then Some (process_fragment now l header buffer total)
      else
        let data_offset := header_length header in
        let data_size := total - data_offset in
        let packet :=
          mkPacket (source_address header) (destination_address header)
                   (protocol header) (swap_endian_16 (identification header))
                   (take (Z.to_nat data_size) (drop (Z.to_nat data_offset) buffer))
                   false 0 false in
        Some (mkLayer (fragment_buffers_ l) (protocol_handlers_ l)
                      (delivered l ++ dispatch (protocol_handlers_ l) packet))
  end.

(** [register_protocol_handler] and [unregister_protocol_handler]; a
    callback is the index it is known by. *)
Definition register_protocol_handler (l : IPLayer) (proto : Z) (callback : nat)
  : bool * IPLayer :=
  if existsb (fun h => (fst h =? proto) && Nat.eqb (snd h) callback)
             (protocol_handlers_ l)
  then (false, l)
  else (true, mkLayer (fragment_buffers_ l)
                      (protocol_handlers_ l ++ [(proto, callback)]) (delivered l)).

Fixpoint erase_first {A : Type} (p : A -> bool) (l : list A) : option (list A) :=
  match l with
  | [] => None
  | x :: rest =>
      if p x then Some rest
      else match erase_first p rest with
           | Some rest' => Some (x :: rest')
           | None => None
           end
  end.

Definition unregister_protocol_handler (l : IPLayer) (proto : Z) (callback : nat)
  : bool * IPLayer :=
  match erase_first (fun h => (fst h =? proto) && Nat.eqb (snd h) callback)
                    (protocol_handlers_ l) with
  | Some hs => (true, mkLayer (fragment_buffers_ l) hs (delivered l))
  | None => (false, l)
  end.

(** The sending side of the layer.  All addresses are IPv4
    ([is_ipv4] set), held as the 32-bit value of [ipv4]. *)
Record RouteEntry := mkRoute {
  network : Z;
  gateway : Z;
  netmask : Z;
  interface_index : Z;
  metric : Z
}.

Record Interface := mkInterface {
  if_index : Z;
  if_address : Z;
  if_netmask : Z;
  if_gateway : Z;
  is_up : bool;
  mtu : Z
}.

(** A call of [device->send(destination_mac, ether_type, data, size)]
    on the device of an interface. *)
Record DeviceSend := mkDeviceSend {
  via : nat;
  destination_mac : list Z;
  ether_type : Z;
  frame_data : list Z
}.

Record Sender := mkSender {
  routing_table_ : list RouteEntry;
  interfaces_ : list Interface;
  identification_counter_ : Z;
(** the calls of [send] on the devices, oldest first *)
handed_to_device : list DeviceSend
}.

Definition find_route (s : Sender) (destination : Z) : option RouteEntry :=
  List.find (fun e => Z.land destination (netmask e) =? Z.land (network e) (netmask e))
            (routing_table_ s).

(** The twenty header bytes [send_packet_to_interface] writes, the
    checksum field holding [checksum]. *)
Definition build_header (source destination proto ident size checksum : Z)
  : list Z :=
  [Z.lor (Z.shiftl 4 4) 5; 0] ++ store16 (swap_endian_16 (u16 (20 + size)))
  ++ store16 (swap_endian_16 ident) ++ store16 0
  ++ [64; u8 proto] ++ store16 checksum
  ++ store32 source ++ store32 destination.

Definition send_packet_to_interface (fuel : nat) (s : Sender) (index destination proto : Z)
  (data : list Z) : option Sender :=
  match interfaces_ s !! Z.to_nat index with
  | None => Some s
  | Some iface =>
      let size := Z.of_nat (length data) in
      let ident := identification_counter_ s in
      let header0 := build_header (if_address iface) destination proto ident size 0 in
      match calculate_checksum fuel header0 with
      | None => None
      | Some checksum =>
          let packet :=
            build_header (if_address iface) destination proto ident size checksum
            ++ data in
          let destination_mac :=
            if destination =? 4294967295 then replicate 6 255 else replicate 6 0 in
          Some (mkSender (routing_table_ s) (interfaces_ s) (u16 (ident + 1))
                         (handed_to_device s
                          ++ [mkDeviceSend (Z.to_nat index) destination_mac 2048 packet]))
      end
  end.

Definition send_packet (fuel : nat) (s : Sender) (destination proto : Z) (data : list Z)
  : option (bool * Sender) :=
  match find_route s destination with
  | None => Some (false, s)
  | Some route =>
      let next_hop := if gateway route =? 0 then destination else gateway route in
      match send_packet_to_interface fuel s (interface_index route) next_hop proto data with
      | None => None
      | Some s' => Some (true, s')
      end
  end.

(** [add_interface] for a device that exists. *)
Definition add_interface (s : Sender) (address mask gw : Z) : Sender :=
  let index := Z.of_nat (length (interfaces_ s)) in
  let iface := mkInterface index address mask gw true 1500 in
  let route := mkRoute address 0 mask index 0 in
  let routes :=
    if negb (gw =? 0) then [route; mkRoute 0 gw 0 index 1] else [route] in
  mkSender (routing_table_ s ++ routes) (interfaces_ s ++ [iface])
           (identification_counter_ s) (handed_to_device s).

Definition add_route (s : Sender) (net mask gw index metric_ : Z) : bool * Sender :=
  if Z.of_nat (length (interfaces_ s)) <=? index then (false, s)
  else (true, mkSender (routing_table_ s ++ [mkRoute net gw mask index metric_])
                       (interfaces_ s) (identification_counter_ s)
                       (handed_to_device s)).

Definition remove_route (s : Sender) (net mask : Z) : bool * Sender :=
  match erase_first (fun e => (network e =? net) && (netmask e =? mask))
                    (routing_table_ s) with
  | Some routes => (true, mkSender routes (interfaces_ s) (identification_counter_ s)
                                   (handed_to_device s))
  | None => (false, s)
  end.

(** A host with one interface, 192.168.1.10/24 and no gateway, the
    identification counter at 7; the same host behind the gateway
    192.168.1.1. *)
Definition host : Sender :=
  add_interface (mkSender [] [] 7 []) 3232235786 4294967040 0.

Definition host_behind_gateway : Sender :=
  add_interface (mkSender [] [] 7 []) 3232235786 4294967040 3232235777.

End IP.

(** ** UDP sockets (net/udp): the blocking receive *)

Module UDP.
Import Ints.

Record UDPDatagram := mkDatagram {
  source_address : Z;
  source_port : Z;
  destination_address : Z;
  destination_port : Z;
  data : list Z;
  timestamp : Z
}.

Record UDPSocket := mkSocket {
  local_address_ : Z;
  local_port_ : Z;
  remote_address_ : Z;
  remote_port_ : Z;
  bound_ : bool;
  connected_ : bool;
(** [Queue<UDPDatagram>], oldest first *)
receive_queue_ : list UDPDatagram
}.

Definition with_queue (s : UDPSocket) (q : list UDPDatagram) : UDPSocket :=
  mkSocket (local_address_ s) (local_port_ s) (remote_address_ s)
           (remote_port_ s) (bound_ s) (connected_ s) q.

(** [queue_datagram], run by the UDP layer for an arriving datagram. *)
Definition queue_datagram (s : UDPSocket) (d : UDPDatagram) : UDPSocket :=
  if negb (bound_ s) then s
  else if negb (destination_port d =? local_port_ s) then s
  else if negb (connected_ s)
          || (connected_ s && (source_address d =? remote_address_ s)
              && (source_port d =? remote_port_ s))
  then with_queue s (receive_queue_ s ++ [d])
  else s.

(** What a finished [receive_from] hands back: the byte count, the
    bytes copied, the source address and port when a datagram was
    taken, and the socket. *)
Record Received := mkReceived {
  returned : Z;
  copied : list Z;
  from : option (Z * Z);
  socket : UDPSocket
}.

Section WithEnvironment.

(** [read_tsc]: the value of the k-th read of a call. *)
Variable tsc : nat -> Z.
(** What the rest of the kernel does to the socket while the k-th
    [pause] of a call runs with the queue lock released. *)
Variable others : nat -> UDPSocket -> UDPSocket.

(** The [while (receive_queue_.empty())] loop; [None] when [fuel]
    iterations did not leave it. *)
Fixpoint wait_datagram (fuel k reads : nat) (s : UDPSocket)
  (start_time timeout_ms timeout_cycles : Z) : option (bool * UDPSocket) :=
  match receive_queue_ s with
  | _ :: _ => Some (true, s)
  | [] =>
      match fuel with
      | O => None
      | S fuel' =>
          if negb (timeout_ms =? 0) then
            if timeout_cycles <? u64 (u64 (tsc reads) - start_time)
            then Some (false, s)
            else wait_datagram fuel' (S k) (S reads) (others k s)
                               start_time timeout_ms timeout_cycles
          else wait_datagram fuel' (S k) reads (others k s)
                             start_time timeout_ms timeout_cycles
      end
  end.

Definition receive_from (fuel : nat) (s : UDPSocket) (size timeout_ms : Z)
  : option Received :=
  if negb (bound_ s) then Some (mkReceived 0 [] None s)
  else
    let start_time := u64 (tsc 0) in
    let timeout_cycles := u64 (timeout_ms * 1000000) in
    match wait_datagram fuel 0 1 s start_time timeout_ms timeout_cycles with
    | None => None
    | Some (false, s') => Some (mkReceived 0 [] None s')
    | Some (true, s') =>
        match receive_queue_ s' with
        | [] => Some (mkReceived 0 [] None s')
        | datagram :: rest =>
            let to_copy := Z.min size (Z.of_nat (length (data datagram))) in
            Some (mkReceived to_copy (take (Z.to_nat to_copy) (data datagram))
                             (Some (source_address datagram, source_port datagram))
                             (with_queue s' rest))
        end
    end.

End WithEnvironment.

(** Nothing else touches the socket. *)
Definition quiet : nat -> UDPSocket -> UDPSocket := fun _ s => s.

(** A socket bound to 192.168.1.10:5353 with nothing queued. *)
Definition idle_socket : UDPSocket := mkSocket 3232235786 5353 0 0 true false [].

(** *** Sending, binding and the layer *)

(** The packet [send_to] builds: [UDPHeader] (source port, destination
    port, length, checksum 0) and the payload. *)
Definition build_datagram (local_port port : Z) (payload : list Z) : list Z :=
  IP.store16 (swap_endian_16 local_port) ++ IP.store16 (swap_endian_16 port)
  ++ IP.store16 (swap_endian_16 (u16 (8 + Z.of_nat (length payload))))
  ++ IP.store16 0 ++ payload.

(** [send_to]; [ip] is the sending side of the IP layer.  The result is
    the value returned and the IP layer after the call. *)
Definition send_to (fuel : nat) (s : UDPSocket) (ip : IP.Sender) (address port : Z)
  (payload : list Z) : option (Z * IP.Sender) :=
  if negb (bound_ s) then Some (0, ip)
  else if 65507 <? Z.of_nat (length payload) then Some (0, ip)
  else
    match IP.send_packet fuel ip address 17
                         (build_datagram (local_port_ s) port payload) with
    | None => None
    | Some (false, ip') => Some (0, ip')
    | Some (true, ip') => Some (Z.of_nat (length payload), ip')
    end.

Definition send (fuel : nat) (s : UDPSocket) (ip : IP.Sender) (payload : list Z)
  : option (Z * IP.Sender) :=
  if negb (connected_ s) then Some (0, ip)
  else send_to fuel s ip (remote_address_ s) (remote_port_ s) payload.

Definition connect (s : UDPSocket) (address port : Z) : bool * UDPSocket :=
  if negb (bound_ s) then (false, s)
  else (true, mkSocket (local_address_ s) (local_port_ s) address port
                       (bound_ s) true (receive_queue_ s)).

(** The layer: the sockets by [SocketKey] (address, port), each socket
    object held where its pointer is, and the function-static
    [next_port] of [allocate_port]. *)
Record UDPLayer := mkUDPLayer {
  bound_sockets_ : gmap (Z * Z) UDPSocket;
  next_port : Z
}.

(** [is_port_available]: the key it looks up has the port and a
    default-constructed address. *)
Definition is_port_available (l : UDPLayer) (port : Z) : bool :=
  match bound_sockets_ l !! (0, port) with
  | None => true
  | Some _ => false
  end.

(** [allocate_port]: [while (!is_port_available(next_port))]; [None]
    when [fuel] iterations did not leave the loop. *)
Fixpoint allocate_port (fuel : nat) (l : UDPLayer) : option (Z * UDPLayer) :=
  if is_port_available l (next_port l) then Some (next_port l, l)
  else
    match fuel with
    | O => None
    | S fuel' =>
        let n := u16 (next_port l + 1) in
        let n := if (n <? 1024) || (65535 <? n) then 1024 else n in
        allocate_port fuel' (mkUDPLayer (bound_sockets_ l) n)
    end.

(** [UDPLayer::bind_socket(socket, address, port)] *)
Definition bind_socket (fuel : nat) (l : UDPLayer) (socket : UDPSocket)
  (address port : Z) : option (bool * UDPLayer) :=
  match (if port =? 0 then allocate_port fuel l else Some (port, l)) with
  | None => None
  | Some (port, l) =>
      match bound_sockets_ l !! (address, port) with
      | Some _ => Some (false, l)
      | None =>
          Some (true, mkUDPLayer (<[(address, port) := socket]> (bound_sockets_ l))
                                 (next_port l))
      end
  end.

(** [UDPSocket::bind(address, port)]: the value returned, the socket
    and the layer. *)
Definition bind (fuel : nat) (l : UDPLayer) (s : UDPSocket) (address port : Z)
  : option (bool * UDPSocket * UDPLayer) :=
  if bound_ s then Some (false, s, l)
  else
    let s1 := mkSocket address port (remote_address_ s) (remote_port_ s) true
                       (connected_ s) (receive_queue_ s) in
    match bind_socket fuel l s1 address port with
    | None => None
    | Some (true, l') => Some (true, s1, l')
    | Some (false, l') =>
        Some (false,
              mkSocket address port (remote_address_ s) (remote_port_ s) false
                       (connected_ s) (receive_queue_ s), l')
    end.

(** [process_udp_packet], the time-stamp counter reading [now]. *)
Definition process_udp_packet (now : Z) (l : UDPLayer) (packet : IP.IPPacket)
  : UDPLayer :=
  let d := IP.pkt_data packet in
  if Z.of_nat (length d) <? 8 then l
  else
    let source_port := swap_endian_16 (load16 d 0) in
    let dest_port := swap_endian_16 (load16 d 2) in
    let len := swap_endian_16 (load16 d 4) in
    if (len <? 8) || (Z.of_nat (length d) <? len) then l
    else
      let key := (IP.pkt_destination packet, dest_port) in
      match bound_sockets_ l !! key with
      | None => l
      | Some socket =>
          let datagram :=
            mkDatagram (IP.pkt_source packet) source_port
                       (IP.pkt_destination packet) dest_port
                       (take (Z.to_nat (len - 8)) (drop 8 d)) now in
          mkUDPLayer (<[key := queue_datagram socket datagram]> (bound_sockets_ l))
                     (next_port l)
      end.

(** The callback [UDPLayer::init] registers with the IP layer, run on
    the packets the IP layer dispatched to callback [h] since
    [before]. *)
Definition run_callbacks (now : Z) (h : nat) (before after : IP.IPLayer)
  (l : UDPLayer) : UDPLayer :=
  foldl (fun u call => if Nat.eqb (fst call) h
                       then process_udp_packet now u (snd call) else u)
        l (drop (length (IP.delivered before)) (IP.delivered after)).

(** A layer with [idle_socket] bound, and a socket bound to port 4000
    on 192.168.1.20. *)
Definition one_bound : UDPLayer :=
  mkUDPLayer {[ (3232235786, 5353) := idle_socket ]} 1024.

Definition sender_socket : UDPSocket := mkSocket 3232235796 4000 0 0 true false [].

End UDP.

(** ** Ethernet device (net/ethernet): the polling receive *)

Module Ethernet.
Import Ints.

Record ReceiveDescriptor := mkRxDesc {
  length : Z;
  status : Z;
  errors : Z
}.

Record EthernetDevice := mkDevice {
  rx_descriptors_ : list ReceiveDescriptor;
(** the contents of the DMA buffers, one per descriptor *)
rx_buffers_ : list (list Z);
rx_index_ : Z;
rx_descriptor_count_ : Z;
(** the receive descriptor tail register, RDT at 0x2818 *)
rdt : Z
}.

Record Received := mkReceived {
  returned : bool;
  copied : list Z;
  size_out : Z;
  device : EthernetDevice
}.

Section WithEnvironment.

Variable tsc : nat -> Z.
(** What the NIC does to the receive ring during the k-th [pause]. *)
Variable nic : nat -> EthernetDevice -> EthernetDevice.

(** The [while (true)] loop of [receive]; [None] when [fuel]
    iterations did not leave it. *)
Fixpoint receive_loop (fuel k reads : nat) (d : EthernetDevice)
  (size start_time timeout_ms timeout_cycles : Z) : option Received :=
  match fuel with
  | O => None
  | S fuel' =>
      let slot := Z.to_nat (rx_index_ d mod rx_descriptor_count_ d) in
      let desc := default (mkRxDesc 0 0 0) (rx_descriptors_ d !! slot) in
      if negb (Z.land (status desc) 1 =? 0) then
        let packet_size := u16 (length desc - 4) in
        if size <? packet_size then Some (mkReceived false [] size d)
        else
          let rx_buffer := default [] (rx_buffers_ d !! slot) in
          let cleared := mkRxDesc (length desc) 0 (errors desc) in
          let rx_index' := u32 (rx_index_ d + 1) in
          Some (mkReceived true (take (Z.to_nat packet_size) rx_buffer) packet_size
                  (mkDevice (<[slot := cleared]> (rx_descriptors_ d))
                            (rx_buffers_ d) rx_index' (rx_descriptor_count_ d)
                            rx_index'))
      else if negb (timeout_ms =? 0) then
        if timeout_cycles <? u64 (u64 (tsc reads) - start_time)
        then Some (mkReceived false [] size d)
        else receive_loop fuel' (S k) (S reads) (nic k d)
                          size start_time timeout_ms timeout_cycles
      else receive_loop fuel' (S k) reads (nic k d)
                        size start_time timeout_ms timeout_cycles
  end.

(** [receive(buffer, size, timeout_ms)] with non-null [buffer] and
    [size]. *)
Definition receive (fuel : nat) (d : EthernetDevice) (size timeout_ms : Z)
  : option Received :=
  receive_loop fuel 0 1 d size (u64 (tsc 0)) timeout_ms
               (u64 (timeout_ms * 1000000)).

End WithEnvironment.

(** The NIC delivers nothing. *)
Definition quiet : nat -> EthernetDevice -> EthernetDevice := fun _ d => d.

(** The descriptor the next [receive] looks at has its DD bit clear. *)
Definition nothing_received (d : EthernetDevice) : bool :=
  Z.land (status (default (mkRxDesc 0 0 0)
                    (rx_descriptors_ d
                       !! Z.to_nat (rx_index_ d mod rx_descriptor_count_ d)))) 1
  =? 0.

(** A ring of four descriptors, none of them done. *)
Definition idle_device : EthernetDevice :=
  mkDevice (replicate 4 (mkRxDesc 0 0 0)) (replicate 4 []) 0 4 0.

(** *** The manager's polling pass *)

(** Modelled from the spec: [EthernetHeader] (its declaration is not
    part of the sources) is the header of an Ethernet II frame:
    destination (6 bytes), source (6 bytes) and the ether type in
    network byte order, 14 bytes in all. *)
Definition ETHERNET_HEADER_SIZE : Z := 14.

(** A call of a registered callback: the index the callback is known
    by and the arguments it is given. *)
Record Dispatch := mkDispatch {
  callback : nat;
  frame_source : list Z;
  frame_destination : list Z;
  frame_ether_type : Z;
  frame_payload : list Z;
  frame_payload_size : Z
}.

Section Manager.

Variable tsc : nat -> Z.
Variable nic : nat -> EthernetDevice -> EthernetDevice.

(** The callbacks run for one received frame, in the order of
    [callbacks_]. *)
Definition dispatch (callbacks_ : list (Z * nat)) (buffer : list Z) (size : Z)
  : list Dispatch :=
  let ether_type := swap_endian_16 (load16 buffer 12) in
  map (fun entry => mkDispatch (snd entry) (take 6 (drop 6 buffer)) (take 6 buffer)
                               ether_type (drop 14 buffer)
                               (u64 (size - ETHERNET_HEADER_SIZE)))
      (filter (fun entry => fst entry = ether_type) callbacks_).

(** [EthernetManager::process_packets]: every device is asked once,
    through [receive(buffer, &size, 0)] with a buffer of 2048 bytes,
    and a frame of at least a header goes to the callbacks registered
    for its ether type.  The result is the devices and the callbacks
    run; [None] when a [receive] was not left within [fuel] polls. *)
Fixpoint process_packets (fuel : nat) (devices_ : list EthernetDevice)
  (callbacks_ : list (Z * nat)) : option (list EthernetDevice * list Dispatch) :=
  match devices_ with
  | [] => Some ([], [])
  | d :: rest =>
      match receive tsc nic fuel d 2048 0 with
      | None => None
      | Some r =>
          let calls :=
            if returned r then
              if size_out r <? ETHERNET_HEADER_SIZE then []
              else dispatch callbacks_ (copied r) (size_out r)
            else [] in
          match process_packets fuel rest callbacks_ with
          | None => None
          | Some (ds, more) => Some (device r :: ds, calls ++ more)
          end
      end
  end.

End Manager.

End Ethernet.

(** ** TCP (net/tcp) *)

Module TCP.
Import Ints.

Inductive TCPState :=
| Closed | Listen | SynSent | SynReceived | Established
| FinWait1 | FinWait2 | CloseWait | Closing | LastAck | TimeWait.

Definition TCPState_eqb (a b : TCPState) : bool :=
  match a, b with
  | Closed, Closed | Listen, Listen | SynSent, SynSent
  | SynReceived, SynReceived | Established, Established
  | FinWait1, FinWait1 | FinWait2, FinWait2 | CloseWait, CloseWait
  | Closing, Closing | LastAck, LastAck | TimeWait, TimeWait => true
  | _, _ => false
  end.

Record TCPSegment := mkSegment {
  source_address : Z;
  source_port : Z;
  destination_address : Z;
  destination_port : Z;
  sequence_number : Z;
  acknowledgment_number : Z;
  window_size : Z;
  syn : bool;
  ack : bool;
  fin : bool;
  rst : bool;
  data : list Z;
  timestamp : Z
}.

Record SendBuffer := mkSendBuffer {
  sb_sequence_start : Z;
  sb_sequence_end : Z;
  sb_data : list Z;
  sb_timestamp : Z;
  acknowledged : bool
}.

Record ReceiveBuffer := mkReceiveBuffer {
  rb_sequence_start : Z;
  rb_sequence_end : Z;
  rb_data : list Z;
  consumed : bool
}.

Record TCPSocket := mkSocket {
  local_address_ : Z;
  local_port_ : Z;
  remote_address_ : Z;
  remote_port_ : Z;
  state_ : TCPState;
  send_sequence_ : Z;
  receive_sequence_ : Z;
  send_unacknowledged_ : Z;
  receive_next_expected_ : Z;
  send_window_ : Z;
  receive_window_ : Z;
  maximum_segment_size_ : Z;
  send_buffers_ : list SendBuffer;
  receive_buffers_ : list ReceiveBuffer;
(** Modelled from the spec: [RingBuffer<u8>] (lib/ringbuffer.hpp is
    not part of the sources), the in-order byte ring for application
    reads: bytes oldest first, at most [receive_capacity] of them. *)
receive_queue_ : list Z;
last_activity_ : Z;
retransmit_timeout_ : Z;
retransmit_count_ : Z
}.

Definition receive_capacity : Z := 8192.

(** [TCPSocket::TCPSocket()] *)
Definition new_socket (now : Z) : TCPSocket :=
  mkSocket 0 0 0 0 Closed 0 0 0 0 65535 65535 1460 [] [] [] now 1000000 0.

Definition set_state (s : TCPSocket) (st : TCPState) : TCPSocket :=
  mkSocket (local_address_ s) (local_port_ s) (remote_address_ s) (remote_port_ s)
           st (send_sequence_ s) (receive_sequence_ s) (send_unacknowledged_ s)
           (receive_next_expected_ s) (send_window_ s) (receive_window_ s)
           (maximum_segment_size_ s) (send_buffers_ s) (receive_buffers_ s)
           (receive_queue_ s) (last_activity_ s) (retransmit_timeout_ s)
           (retransmit_count_ s).

Definition set_endpoints (s : TCPSocket) (la lp ra rp : Z) : TCPSocket :=
  mkSocket la lp ra rp
           (state_ s) (send_sequence_ s) (receive_sequence_ s)
           (send_unacknowledged_ s) (receive_next_expected_ s) (send_window_ s)
           (receive_window_ s) (maximum_segment_size_ s) (send_buffers_ s)
           (receive_buffers_ s) (receive_queue_ s) (last_activity_ s)
           (retransmit_timeout_ s) (retransmit_count_ s).

Definition set_sequences (s : TCPSocket) (snd_seq rcv_seq snd_una rcv_nxt : Z)
  : TCPSocket :=
  mkSocket (local_address_ s) (local_port_ s) (remote_address_ s) (remote_port_ s)
           (state_ s) snd_seq rcv_seq snd_una rcv_nxt (send_window_ s)
           (receive_window_ s) (maximum_segment_size_ s) (send_buffers_ s)
           (receive_buffers_ s) (receive_queue_ s) (last_activity_ s)
           (retransmit_timeout_ s) (retransmit_count_ s).

Definition set_windows (s : TCPSocket) (snd_wnd rcv_wnd : Z) : TCPSocket :=
  mkSocket (local_address_ s) (local_port_ s) (remote_address_ s) (remote_port_ s)
           (state_ s) (send_sequence_ s) (receive_sequence_ s)
           (send_unacknowledged_ s) (receive_next_expected_ s) snd_wnd rcv_wnd
           (maximum_segment_size_ s) (send_buffers_ s) (receive_buffers_ s)
           (receive_queue_ s) (last_activity_ s) (retransmit_timeout_ s)
           (retransmit_count_ s).

Definition set_send_buffers (s : TCPSocket) (bs : list SendBuffer) (count : Z)
  : TCPSocket :=
  mkSocket (local_address_ s) (local_port_ s) (remote_address_ s) (remote_port_ s)
           (state_ s) (send_sequence_ s) (receive_sequence_ s)
           (send_unacknowledged_ s) (receive_next_expected_ s) (send_window_ s)
           (receive_window_ s) (maximum_segment_size_ s) bs (receive_buffers_ s)
           (receive_queue_ s) (last_activity_ s) (retransmit_timeout_ s) count.

Definition set_receive (s : TCPSocket) (bs : list ReceiveBuffer) (q : list Z)
  (rcv_nxt : Z) : TCPSocket :=
  mkSocket (local_address_ s) (local_port_ s) (remote_address_ s) (remote_port_ s)
           (state_ s) (send_sequence_ s) (receive_sequence_ s)
           (send_unacknowledged_ s) rcv_nxt (send_window_ s)
           (receive_window_ s) (maximum_segment_size_ s) (send_buffers_ s) bs
           q (last_activity_ s) (retransmit_timeout_ s) (retransmit_count_ s).

Definition set_last_activity (s : TCPSocket) (now : Z) : TCPSocket :=
  mkSocket (local_address_ s) (local_port_ s) (remote_address_ s) (remote_port_ s)
           (state_ s) (send_sequence_ s) (receive_sequence_ s)
           (send_unacknowledged_ s) (receive_next_expected_ s) (send_window_ s)
           (receive_window_ s) (maximum_segment_size_ s) (send_buffers_ s)
           (receive_buffers_ s) (receive_queue_ s) now (retransmit_timeout_ s)
           (retransmit_count_ s).

(** [send_segment]: the segment goes to the IP layer for the socket's
    remote address, with the socket's ports in its header. *)
Definition send_segment (s : TCPSocket) (seg : TCPSegment) : TCPSegment :=
  mkSegment (local_address_ s) (local_port_ s) (remote_address_ s) (remote_port_ s)
            (sequence_number seg) (acknowledgment_number seg)
            (u16 (window_size seg)) (syn seg) (ack seg) (fin seg) (rst seg)
            (data seg) (timestamp seg).

(** A segment built by the socket: the four flags, then the payload. *)
Definition build (seq_no ack_no window : Z) (f_syn f_ack f_fin f_rst : bool)
  (payload : list Z) (now : Z) : TCPSegment :=
  mkSegment 0 0 0 0 seq_no ack_no window f_syn f_ack f_fin f_rst payload now.

Definition validate_sequence (s : TCPSocket) (seq_no len : Z) : bool :=
  if len =? 0 then true
  else (receive_sequence_ s <=? seq_no)
       && (u32 (seq_no + len) <=? u32 (receive_sequence_ s + receive_window_ s)).

Definition process_syn (now : Z) (s : TCPSocket) (seg : TCPSegment)
  : TCPSocket * list TCPSegment :=
  if TCPState_eqb (state_ s) Listen then
    let s := set_state s SynReceived in
    let s := set_endpoints s (local_address_ s) (local_port_ s)
                           (source_address seg) (source_port seg) in
    let rcv := u32 (sequence_number seg + 1) in
    let s := set_sequences s (send_sequence_ s) rcv (send_unacknowledged_ s) rcv in
    let syn_ack := build (send_sequence_ s) (receive_sequence_ s)
                         (receive_window_ s) true true false false [] now in
    let out := send_segment s syn_ack in
    (set_sequences s (u32 (send_sequence_ s + 1)) (receive_sequence_ s)
                   (send_unacknowledged_ s) (receive_next_expected_ s),
     [out])
  else (s, []).

Definition acknowledge_data (s : TCPSocket) (acknowledgment : Z) : TCPSocket :=
  let bs := map (fun b => if sb_sequence_end b <=? acknowledgment
                          then mkSendBuffer (sb_sequence_start b) (sb_sequence_end b)
                                            (sb_data b) (sb_timestamp b) true
                          else b)
                (send_buffers_ s) in
  let s := set_send_buffers s bs (retransmit_count_ s) in
  set_sequences s (send_sequence_ s) (receive_sequence_ s) acknowledgment
                (receive_next_expected_ s).

Definition update_window (s : TCPSocket) (window : Z) : TCPSocket :=
  set_windows s window (receive_window_ s).

Definition process_ack (s : TCPSocket) (seg : TCPSegment) : TCPSocket :=
  let s := if send_unacknowledged_ s <? acknowledgment_number seg
           then acknowledge_data s (acknowledgment_number seg) else s in
  if negb (window_size seg =? send_window_ s)
  then update_window s (window_size seg) else s.

Definition process_fin (now : Z) (s : TCPSocket) (seg : TCPSegment)
  : TCPSocket * list TCPSegment :=
  if TCPState_eqb (state_ s) Established then
    let s := set_state s CloseWait in
    let s := set_sequences s (send_sequence_ s) (u32 (receive_sequence_ s + 1))
                           (send_unacknowledged_ s) (receive_next_expected_ s) in
    (s, [send_segment s (build (send_sequence_ s) (receive_sequence_ s)
                               (receive_window_ s) false true false false [] now)])
  else (s, []).

Definition process_rst (s : TCPSocket) : TCPSocket := set_state s Closed.

(** Modelled from the spec: [sort] (lib/algorithm.hpp is not part of
    the sources); out-of-order segments are kept sorted by sequence
    number, here by a stable insertion sort. *)
Fixpoint insert_sorted (b : ReceiveBuffer) (l : list ReceiveBuffer)
  : list ReceiveBuffer :=
  match l with
  | [] => [b]
  | x :: rest =>
      if rb_sequence_start b <? rb_sequence_start x then b :: l
      else x :: insert_sorted b rest
  end.

Definition sort (l : list ReceiveBuffer) : list ReceiveBuffer :=
  foldr insert_sorted [] l.

(** The byte loop of [reorder_buffers]: push until the ring is full. *)
Fixpoint push_bytes (q bytes : list Z) : list Z :=
  match bytes with
  | [] => q
  | byte :: rest =>
      if receive_capacity <=? Z.of_nat (length q) then q
      else push_bytes (q ++ [byte]) rest
  end.

Fixpoint drain (bs : list ReceiveBuffer) (q : list Z) (rcv_nxt : Z)
  : list ReceiveBuffer * list Z * Z :=
  match bs with
  | [] => ([], q, rcv_nxt)
  | b :: rest =>
      if (rb_sequence_start b =? rcv_nxt) && negb (consumed b) then
        let '(rest', q', n') := drain rest (push_bytes q (rb_data b))
                                      (rb_sequence_end b) in
        (mkReceiveBuffer (rb_sequence_start b) (rb_sequence_end b)
                         (rb_data b) true :: rest', q', n')
      else
        let '(rest', q', n') := drain rest q rcv_nxt in
        (b :: rest', q', n')
  end.

Definition reorder_buffers (s : TCPSocket) : TCPSocket :=
  let '(bs, q, n) := drain (sort (receive_buffers_ s)) (receive_queue_ s)
                           (receive_next_expected_ s) in
  set_receive s bs q n.

Definition process_data (now : Z) (s : TCPSocket) (seg : TCPSegment)
  : TCPSocket * list TCPSegment :=
  let len := Z.of_nat (length (data seg)) in
  let buffer := mkReceiveBuffer (sequence_number seg)
                                (u32 (sequence_number seg + len))
                                (data seg) false in
  let s := set_receive s (receive_buffers_ s ++ [buffer]) (receive_queue_ s)
                       (receive_next_expected_ s) in
  let s := reorder_buffers s in
  let s := set_sequences s (send_sequence_ s) (u32 (sequence_number seg + len))
                         (send_unacknowledged_ s) (receive_next_expected_ s) in
  (s, [send_segment s (build (send_sequence_ s) (receive_sequence_ s)
                             (receive_window_ s) false true false false [] now)]).

(** [receive_segment]: one branch per segment, chosen by the first
    flag set among SYN, ACK, FIN, RST; the payload is looked at only
    when none is. *)
Definition receive_segment (now : Z) (s : TCPSocket) (seg : TCPSegment)
  : bool * TCPSocket * list TCPSegment :=
  if negb (validate_sequence s (sequence_number seg)
                             (u32 (Z.of_nat (length (data seg)))))
  then (false, s, [])
  else
    let '(s, out) :=
      if syn seg then process_syn now s seg
      else if ack seg then (process_ack s seg, [])
      else if fin seg then process_fin now s seg
      else if rst seg then (process_rst s, [])
      else if 0 <? Z.of_nat (length (data seg)) then process_data now s seg
      else (s, []) in
    (true, set_last_activity s now, out).

(** [abort]: the socket, the RST sent, and whether the layer is asked
    to remove the socket. *)
Definition abort (now : Z) (s : TCPSocket) : TCPSocket * list TCPSegment * bool :=
  if TCPState_eqb (state_ s) Closed then (s, [], false)
  else
    let s := set_state s Closed in
    (s, [send_segment s (build (send_sequence_ s) (receive_next_expected_ s) 0
                               false false false true [] now)], true).

(** The test of [retransmit_pending_data] on one buffer. *)
Definition due (s : TCPSocket) (current_time : Z) (buffer : SendBuffer) : bool :=
  negb (acknowledged buffer)
  && (retransmit_timeout_ s <? u64 (current_time - sb_timestamp buffer)).

(** The segment that re-sends a buffer. *)
Definition retransmission (s : TCPSocket) (current_time : Z) (buffer : SendBuffer)
  : TCPSegment :=
  send_segment s (build (sb_sequence_start buffer) (receive_next_expected_ s)
                        (receive_window_ s) false true false false
                        (sb_data buffer) current_time).

(** [buffer.timestamp = current_time] *)
Definition restamp (current_time : Z) (buffer : SendBuffer) : SendBuffer :=
  mkSendBuffer (sb_sequence_start buffer) (sb_sequence_end buffer)
               (sb_data buffer) current_time (acknowledged buffer).

(** The loop of [retransmit_pending_data] over the send buffers still to
    visit; [count] is [retransmit_count_].  The result: the buffers,
    the counter, the segments re-sent, and whether the loop ended in
    [abort]. *)
Fixpoint retransmit_loop (s : TCPSocket) (current_time : Z)
  (todo : list SendBuffer) (count : Z)
  : list SendBuffer * Z * list TCPSegment * bool :=
  match todo with
  | [] => ([], count, [], false)
  | buffer :: rest =>
      if due s current_time buffer then
        if 10 <? count then (todo, count, [], true)
        else
          let '(rest', count', out, aborted) :=
            retransmit_loop s current_time rest (u32 (count + 1)) in
          (restamp current_time buffer :: rest', count',
           retransmission s current_time buffer :: out, aborted)
      else
        let '(rest', count', out, aborted) :=
          retransmit_loop s current_time rest count in
        (buffer :: rest', count', out, aborted)
  end.

Definition retransmit_pending_data (now : Z) (s : TCPSocket)
  : TCPSocket * list TCPSegment * bool :=
  let '(bs, count, out, aborted) :=
    retransmit_loop s now (send_buffers_ s) (retransmit_count_ s) in
  let s := set_send_buffers s bs count in
  if aborted then
    let '(s, rst_out, removed) := abort now s in
    (s, out ++ rst_out, removed)
  else (s, out, false).

Definition cleanup_acknowledged_data (s : TCPSocket) : TCPSocket :=
  let s := set_send_buffers s (filter (fun b => acknowledged b = false)
                                      (send_buffers_ s))
                            (retransmit_count_ s) in
  set_receive s (filter (fun b => consumed b = false) (receive_buffers_ s))
              (receive_queue_ s) (receive_next_expected_ s).

(** [poll] *)
Definition poll (now : Z) (s : TCPSocket) : TCPSocket * list TCPSegment * bool :=
  let '(s, out, removed) :=
    if TCPState_eqb (state_ s) Established
    then retransmit_pending_data now s else (s, [], false) in
  (reorder_buffers (cleanup_acknowledged_data s), out, removed).

(** What a finished [receive] hands back. *)
Record Received := mkReceived {
  returned : Z;
  copied : list Z;
  socket : TCPSocket;
  sent : list TCPSegment
}.

Section WithEnvironment.

Variable tsc : nat -> Z.
(** What the rest of the kernel does to the socket while the k-th
    [pause] of a call runs with the receive lock released. *)
Variable others : nat -> TCPSocket -> TCPSocket.

(** The [while (receive_queue_.size() == 0)] loop; [None] when [fuel]
    iterations did not leave it. *)
Fixpoint wait_bytes (fuel k reads : nat) (s : TCPSocket)
  (start_time timeout_ms timeout_cycles : Z) : option (bool * nat * TCPSocket) :=
  match receive_queue_ s with
  | _ :: _ => Some (true, reads, s)
  | [] =>
      match fuel with
      | O => None
      | S fuel' =>
          if negb (timeout_ms =? 0) then
            if timeout_cycles <? u64 (u64 (tsc reads) - start_time)
            then Some (false, S reads, s)
            else wait_bytes fuel' (S k) (S reads) (others k s)
                            start_time timeout_ms timeout_cycles
          else wait_bytes fuel' (S k) reads (others k s)
                          start_time timeout_ms timeout_cycles
      end
  end.

Definition receive (fuel : nat) (s : TCPSocket) (size timeout_ms : Z)
  : option Received :=
  if negb (TCPState_eqb (state_ s) Established)
  then Some (mkReceived 0 [] s [])
  else
    let start_time := u64 (tsc 0) in
    let timeout_cycles := u64 (timeout_ms * 1000000) in
    match wait_bytes fuel 0 1 s start_time timeout_ms timeout_cycles with
    | None => None
    | Some (false, _, s') => Some (mkReceived 0 [] s' [])
    | Some (true, reads, s') =>
        let to_read := Z.min size (Z.of_nat (length (receive_queue_ s'))) in
        let bytes := take (Z.to_nat to_read) (receive_queue_ s') in
        let q := drop (Z.to_nat to_read) (receive_queue_ s') in
        let s' := set_receive s' (receive_buffers_ s') q
                              (receive_next_expected_ s') in
        let s' := set_windows s' (send_window_ s')
                              (u32 (receive_capacity - Z.of_nat (length q))) in
        Some (mkReceived to_read bytes s'
                (if 0 <? to_read
                 then [send_segment s'
                         (build (send_sequence_ s') (receive_next_expected_ s')
                                (receive_window_ s') false true false false []
                                (u64 (tsc reads)))]
                 else []))
    end.

End WithEnvironment.

(** Nothing else touches the socket. *)
Definition quiet : nat -> TCPSocket -> TCPSocket := fun _ s => s.

(** An Established socket with nothing to read. *)
Definition idle_connection : TCPSocket :=
  set_state (set_endpoints (new_socket 0) 3232235786 80 3232235796 5000) Established.

(** An Established socket with eleven unacknowledged segments in
    flight, sent at time 0, none of them re-sent yet. *)
Definition eleven_in_flight : TCPSocket :=
  set_send_buffers idle_connection
    (map (fun i => mkSendBuffer (1 + i) (2 + i) [65] 0 false) (seqZ 0 11)) 0.

(** The same with twelve. *)
Definition twelve_in_flight : TCPSocket :=
  set_send_buffers idle_connection
    (map (fun i => mkSendBuffer (1 + i) (2 + i) [65] 0 false) (seqZ 0 12)) 0.

(** The send buffers after a poll that may re-send [budget] buffers:
    the first [budget] due buffers carry the time of the poll, the
    others are as they were. *)
Fixpoint restamp_due (s : TCPSocket) (current_time : Z) (budget : nat)
  (bs : list SendBuffer) : list SendBuffer :=
  match bs with
  | [] => []
  | b :: rest =>
      if due s current_time b then
        match budget with
        | O => bs
        | S budget' => restamp current_time b :: restamp_due s current_time budget' rest
        end
      else b :: restamp_due s current_time budget rest
  end.

(** *** The layer: connection table and listening sockets *)

Record IPPacket := mkPacket {
  source : Z;
  destination : Z;
  payload : list Z
}.

Record TCPLayer := mkLayer {
  connections_ : gmap (Z * Z * Z * Z) TCPSocket;
  listening_sockets_ : gmap Z TCPSocket;
(** the segments handed to the IP layer, oldest first *)
wire : list TCPSegment
}.

(** [struct PACKED TCPHeader] read from the packet, then the fields
    the layer extracts from it.  A header whose data offset points past
    the end of the packet makes the source copy from outside the packet;
    here such a segment has no payload. *)
Definition header_source_port (p : list Z) : Z := swap_endian_16 (load16 p 0).
Definition header_destination_port (p : list Z) : Z := swap_endian_16 (load16 p 2).
Definition header_sequence (p : list Z) : Z := swap_endian_32 (load32 p 4).
Definition header_ack (p : list Z) : Z := swap_endian_32 (load32 p 8).
Definition header_data_offset (p : list Z) : Z :=
  Z.land (Z.shiftr (byte_at p 12) 4) 15.
Definition header_flag (p : list Z) (mask : Z) : bool :=
  negb (Z.land (byte_at p 13) mask =? 0).
Definition header_window (p : list Z) : Z := swap_endian_16 (load16 p 14).

Definition handle_new_connection (now : Z) (l : TCPLayer) (packet : IPPacket)
  : TCPLayer :=
  let p := payload packet in
  if negb (header_flag p 2) then l
  else
    let source_port := header_source_port p in
    let dest_port := header_destination_port p in
    let new_socket :=
      set_state (set_endpoints (new_socket now) (destination packet) dest_port
                               (source packet) source_port)
                SynReceived in
    let key := (destination packet, dest_port, source packet, source_port) in
    let segment := mkSegment (source packet) source_port (destination packet)
                             dest_port (header_sequence p) 0 (header_window p)
                             true false false false [] now in
    let '(_, s', out) := receive_segment now new_socket segment in
    mkLayer (<[key := s']> (connections_ l)) (listening_sockets_ l)
            (wire l ++ out).

Definition process_tcp_packet (now : Z) (l : TCPLayer) (packet : IPPacket)
  : TCPLayer :=
  let p := payload packet in
  if Z.of_nat (length p) <? 20 then l
  else
    let source_port := header_source_port p in
    let dest_port := header_destination_port p in
    let key := (destination packet, dest_port, source packet, source_port) in
    match connections_ l !! key with
    | None =>
        match listening_sockets_ l !! dest_port with
        | Some _ => handle_new_connection now l packet
        | None => l
        end
    | Some socket =>
        let data_offset := header_data_offset p * 4 in
        let data_size := Z.of_nat (length p) - data_offset in
        let segment :=
          mkSegment (source packet) source_port (destination packet) dest_port
                    (header_sequence p) (header_ack p) (header_window p)
                    (header_flag p 2) (header_flag p 16) (header_flag p 1)
                    (header_flag p 4)
                    (if 0 <? data_size
                     then take (Z.to_nat data_size) (drop (Z.to_nat data_offset) p)
                     else [])
                    now in
        let '(_, s', out) := receive_segment now socket segment in
        mkLayer (<[key := s']> (connections_ l)) (listening_sockets_ l)
                (wire l ++ out)
    end.

(** [bind] then [listen] on a fresh socket. *)
Definition listen (now : Z) (l : TCPLayer) (address port : Z) : TCPLayer :=
  let s := set_state (set_endpoints (new_socket now) address port 0 0) Listen in
  mkLayer (connections_ l) (<[port := s]> (listening_sockets_ l)) (wire l).

(** A TCP segment on the wire (RFC 793), header of five words. *)
Definition wire_segment (sport dport seq_no ack_no flags window : Z)
  (bytes : list Z) : list Z :=
  [sport / 256; sport mod 256; dport / 256; dport mod 256;
   seq_no / 16777216; seq_no / 65536 mod 256; seq_no / 256 mod 256; seq_no mod 256;
   ack_no / 16777216; ack_no / 65536 mod 256; ack_no / 256 mod 256; ack_no mod 256;
   80; flags; window / 256; window mod 256; 0; 0; 0; 0] ++ bytes.

(** The scenario of the passive open: a socket listening on port 80
    of 192.168.1.10 and a peer at 192.168.1.20:5000 that sends a SYN
    with sequence number 100, the ACK of the handshake, and then the
    four bytes "GET " at sequence number 101. *)
Definition server : Z := 3232235786.
Definition client : Z := 3232235796.
Definition connection : Z * Z * Z * Z := (server, 80, client, 5000).

Definition listening : TCPLayer := listen 0 (mkLayer ∅ ∅ []) server 80.

Definition from_client (flags seq_no ack_no : Z) (bytes : list Z) : IPPacket :=
  mkPacket client server (wire_segment 5000 80 seq_no ack_no flags 65535 bytes).

Definition after_syn : TCPLayer :=
  process_tcp_packet 1 listening (from_client 2 100 0 []).
Definition after_ack : TCPLayer :=
  process_tcp_packet 2 after_syn (from_client 16 101 1 []).
(** the data segment as a peer sends it, with PSH and ACK set *)
Definition after_data : TCPLayer :=
  process_tcp_packet 3 after_ack (from_client 24 101 1 [71; 69; 84; 32]).
(** the same bytes in a segment with no flag at all *)
Definition after_bare_data : TCPLayer :=
  process_tcp_packet 3 after_ack (from_client 0 101 1 [71; 69; 84; 32]).

Definition socket_of (l : TCPLayer) : TCPSocket :=
  default (new_socket 0) (connections_ l !! connection).

(** The socket of the peer of [connection]: 192.168.1.20:5000 talking
    to 192.168.1.10:80. *)
Definition client_socket : TCPSocket :=
  set_endpoints (new_socket 0) client 5000 server 80.

(** *** Segments on the wire *)

(** [flags |= 0x02] for SYN, [0x10] for ACK, [0x01] for FIN, [0x04]
    for RST. *)
Definition flags_byte (seg : TCPSegment) : Z :=
  let f := if syn seg then Z.lor 0 2 else 0 in
  let f := if ack seg then Z.lor f 16 else f in
  let f := if fin seg then Z.lor f 1 else f in
  if rst seg then Z.lor f 4 else f.

(** The packet [send_segment] builds: [TCPHeader] with the checksum
    field holding [checksum], then the payload. *)
Definition encode_segment (s : TCPSocket) (seg : TCPSegment) (checksum : Z)
  : list Z :=
  IP.store16 (swap_endian_16 (local_port_ s))
  ++ IP.store16 (swap_endian_16 (remote_port_ s))
  ++ IP.store32 (swap_endian_32 (sequence_number seg))
  ++ IP.store32 (swap_endian_32 (acknowledgment_number seg))
  ++ [u8 (Z.shiftl 5 4); flags_byte seg]
  ++ IP.store16 (swap_endian_16 (u16 (window_size seg)))
  ++ IP.store16 checksum ++ IP.store16 0
  ++ data seg.

(** [TCPPseudoHeader] *)
Definition pseudo_header (s : TCPSocket) (seg : TCPSegment) : list Z :=
  IP.store32 (local_address_ s) ++ IP.store32 (remote_address_ s)
  ++ [0; 6]
  ++ IP.store16 (swap_endian_16 (u16 (20 + Z.of_nat (length (data seg))))).

(** The bytes [send_segment] hands to [send_packet]. *)
Definition segment_bytes (fuel : nat) (s : TCPSocket) (seg : TCPSegment)
  : option (list Z) :=
  encode_segment s seg
  <$> IP.calculate_checksum fuel (pseudo_header s seg ++ encode_segment s seg 0).

(** *** Sending data *)

Section Sending.

(** [read_tsc] in the k-th round of the loop of [send], and whether the
    [send_segment] of that round got its packet to the IP layer. *)
Variable tsc : nat -> Z.
Variable sends : nat -> bool.

(** The loop of [send]: [rest] is [data + sent], what is still to go.
    [None] when [fuel] rounds did not finish it. *)
Fixpoint send_loop (fuel k : nat) (s : TCPSocket) (rest : list Z) (sent : Z)
  (out : list TCPSegment) : option (Z * TCPSocket * list TCPSegment) :=
  match rest with
  | [] => Some (sent, s, out)
  | _ :: _ =>
      match fuel with
      | O => None
      | S fuel' =>
          let chunk_size := Z.min (Z.of_nat (length rest)) (maximum_segment_size_ s) in
          let chunk := take (Z.to_nat chunk_size) rest in
          let buffer := mkSendBuffer (send_sequence_ s)
                                     (u32 (send_sequence_ s + chunk_size))
                                     chunk (tsc k) false in
          let segment := build (send_sequence_ s) (receive_next_expected_ s)
                               (receive_window_ s) false true false false
                               chunk (tsc k) in
          if negb (sends k) then Some (sent, s, out)
          else
            let s := set_send_buffers s (send_buffers_ s ++ [buffer])
                                      (retransmit_count_ s) in
            let s := set_sequences s (u32 (send_sequence_ s + chunk_size))
                                   (receive_sequence_ s) (send_unacknowledged_ s)
                                   (receive_next_expected_ s) in
            let sent := sent + chunk_size in
            let out := out ++ [send_segment s segment] in
            if send_window_ s <? u32 (send_sequence_ s - send_unacknowledged_ s)
            then Some (sent, s, out)
            else send_loop fuel' (S k) s (drop (Z.to_nat chunk_size) rest) sent out
      end
  end.

(** [send(data, size)]: the count returned, the socket and the
    segments that reached the IP layer. *)
Definition send (fuel : nat) (s : TCPSocket) (payload : list Z)
  : option (Z * TCPSocket * list TCPSegment) :=
  if negb (TCPState_eqb (state_ s) Established) then Some (0, s, [])
  else send_loop fuel 0 s payload 0 [].

End Sending.

(** *** Ports *)

(** [is_port_available]: no connection with the port at either end and
    no listening socket on it. *)
Definition is_port_available (l : TCPLayer) (port : Z) : bool :=
  forallb (fun kv => negb ((snd (fst (fst (fst kv))) =? port) || (snd (fst kv) =? port)))
          (map_to_list (connections_ l))
  && forallb (fun kv => negb (fst kv =? port)) (map_to_list (listening_sockets_ l)).

(** [allocate_port]: the loop runs while the port is available;
    [next_port] is its function-static counter.  The result is the port
    returned and the counter left behind, [None] when [fuel] rounds did
    not leave the loop. *)
Fixpoint allocate_port (fuel : nat) (l : TCPLayer) (next_port : Z) : option (Z * Z) :=
  if is_port_available l next_port then
    match fuel with
    | O => None
    | S fuel' =>
        let n := u16 (next_port + 1) in
        allocate_port fuel' l (if (n <? 1024) || (65535 <? n) then 1024 else n)
    end
  else Some (next_port, u16 (next_port + 1)).

(** [TCPLayer::bind_socket(socket, address, port)]: the value returned,
    the socket and the counter of [allocate_port]. *)
Definition bind_socket (fuel : nat) (l : TCPLayer) (next_port : Z) (socket : TCPSocket)
  (address port : Z) : option (bool * TCPSocket * Z) :=
  match (if port =? 0 then allocate_port fuel l next_port else Some (port, next_port)) with
  | None => None
  | Some (port, next_port) =>
      if negb (is_port_available l port) then Some (false, socket, next_port)
      else Some (true,
                 set_endpoints socket address port (remote_address_ socket)
                               (remote_port_ socket),
                 next_port)
  end.

(** [TCPSocket::bind(address, port)] *)
Definition bind (fuel : nat) (l : TCPLayer) (next_port : Z) (s : TCPSocket)
  (address port : Z) : option (bool * TCPSocket * Z) :=
  if negb (TCPState_eqb (state_ s) Closed) then Some (false, s, next_port)
  else
    bind_socket fuel l next_port
                (set_endpoints s address port (remote_address_ s) (remote_port_ s))
                address port.

(** The out-of-order buffers whose bytes have all been handed on. *)
Definition all_consumed (bs : list ReceiveBuffer) : Prop :=
  Forall (fun b => consumed b = true) bs.

(** A list in which [b] stands among consumed buffers. *)
Definition among_consumed (b : ReceiveBuffer) (l : list ReceiveBuffer) : Prop :=
  exists l1 l2, l = l1 ++ b :: l2 /\ all_consumed l1 /\ all_consumed l2.

End TCP.

(** * Properties of the embedding *)

(** ** Physical memory manager *)

Module PMMFacts.
Import Ints PMM.

Lemma u64_small (x : Z) : 0 <= x < 2 ^ 64 -> u64 x = x.
Proof. intros H. unfold u64, wrap. apply Z.mod_small. exact H. Qed.

Lemma next_page_unaligned (x a : Z) :
  PAGE_SIZE < a -> x mod a = 0 -> (x + PAGE_SIZE) mod a <> 0.
Proof.
  unfold PAGE_SIZE. intros Ha Hx.
  rewrite Z.add_mod by lia. rewrite Hx, Z.add_0_l.
  rewrite Z.mod_mod by lia. rewrite Z.mod_small by lia. lia.
Qed.

(** The scan never sees two aligned pages in a row, so a run of two or
    more pages is never completed. *)
Lemma scan_aligned_none (r : MemoryRegion) (a count : Z) :
  PAGE_SIZE < a -> 2 <= count -> 0 <= region_base r ->
  forall (n page consecutive start : nat),
    region_base r + Z.of_nat (page + n) * PAGE_SIZE <= 2 ^ 64 ->
    consecutive = 0%nat \/
    (consecutive = 1%nat /\ (1 <= page)%nat /\
     (region_base r + Z.of_nat (page - 1) * PAGE_SIZE) mod a = 0) ->
    scan_aligned r a count page n consecutive start = None.
Proof.
  intros Ha Hcount Hbase. unfold PAGE_SIZE in *.
  induction n as [|n IH]; intros page consecutive start Hrange Hinv; [reflexivity|].
  cbn [scan_aligned]. unfold PAGE_SIZE.
  rewrite u64_small by lia.
  destruct (Z.eqb_spec ((region_base r + Z.of_nat page * 4096) mod a) 0) as [Hal|Hal].
  - destruct (test (region_bitmap r) page); cbn [negb].
    + apply IH; [lia | left; reflexivity].
    + destruct Hinv as [-> | (-> & Hpage & Hprev)].
      * cbn [Nat.eqb]. replace (Z.of_nat 1 =? count) with false by (symmetry; apply Z.eqb_neq; lia).
        cbn [andb]. apply IH; [lia|]. right. repeat split; [lia|].
        replace (S page - 1)%nat with page by lia. exact Hal.
      * exfalso. apply (next_page_unaligned _ a ltac:(unfold PAGE_SIZE; lia) Hprev).
        unfold PAGE_SIZE.
        replace (region_base r + Z.of_nat (page - 1) * 4096 + 4096)
          with (region_base r + Z.of_nat page * 4096) by lia.
        exact Hal.
  - apply IH; [lia | left; reflexivity].
Qed.

Lemma allocate_aligned_in_none (rs : list MemoryRegion) (a count : Z) :
  PAGE_SIZE < a -> 2 <= count -> Forall region_in_range rs ->
  allocate_aligned_in rs count a = None.
Proof.
  intros Ha Hcount Hrs. induction Hrs as [|r rs (Hb & Hn & Hr) _ IH]; [reflexivity|].
  cbn [allocate_aligned_in]. rewrite IH.
  rewrite (scan_aligned_none r a count Ha Hcount Hb).
  - destruct (region_free_pages r <? count); reflexivity.
  - rewrite Nat.add_0_l, Z2Nat.id by lia. exact Hr.
  - left; reflexivity.
Qed.

(** No request for two or more pages at an alignment above the page
    size is ever granted, whatever the bitmaps hold. *)
Theorem allocate_aligned_multi_page_never_succeeds (s : State) (count alignment : Z) :
  2 <= count ->
  PAGE_SIZE < effective_alignment alignment ->
  Forall region_in_range (regions_ s) ->
  allocate_aligned s count alignment = (None, s).
Proof.
  intros Hcount Ha Hrs. unfold allocate_aligned.
  replace (count =? 0) with false by (symmetry; apply Z.eqb_neq; lia).
  rewrite allocate_aligned_in_none by assumption. reflexivity.
Qed.

Lemma allocate_aligned_multi_page_witness :
  allocate_aligned (fresh 1048576 4) 2 8192 = (None, fresh 1048576 4).
Proof.
  apply (allocate_aligned_multi_page_never_succeeds (fresh 1048576 4) 2 8192).
  - lia.
  - vm_compute. reflexivity.
  - repeat constructor; vm_compute; congruence.
Defined.

(** [free_page] changes the bit of one page only: any other page-aligned
    address reads as before. *)
Lemma free_page_in_other (rs rs' : list MemoryRegion) (p a : Z) :
  free_page_in rs p = Some rs' ->
  p mod PAGE_SIZE = 0 -> a mod PAGE_SIZE = 0 -> a <> p ->
  match List.find (fun r => in_region r a) rs' with
  | Some r => test (region_bitmap r) (page_index r a)
  | None => false
  end
  = match List.find (fun r => in_region r a) rs with
    | Some r => test (region_bitmap r) (page_index r a)
    | None => false
    end.
Proof.
  intros H Hp Ha Hne. revert rs' H.
  induction rs as [|r rest IH]; intros rs' H; cbn [free_page_in] in H; [discriminate|].
  destruct (in_region r p) eqn:Hin.
  - destruct (region_total_pages r <=? Z.of_nat (page_index r p)); [discriminate|].
    destruct (negb (test (region_bitmap r) (page_index r p))); [discriminate|].
    injection H as <-. cbn [List.find].
    change (in_region (mkRegion (region_base r) (region_size r)
                                (u64 (region_free_pages r + 1)) (region_total_pages r)
                                (set (region_bitmap r) (page_index r p) false)) a)
      with (in_region r a).
    destruct (in_region r a) eqn:Hina; [|reflexivity].
    cbn [region_bitmap]. unfold test, set.
    change (page_index (mkRegion (region_base r) (region_size r)
                                 (u64 (region_free_pages r + 1)) (region_total_pages r)
                                 (<[page_index r p:=false]> (region_bitmap r))) a)
      with (page_index r a).
    rewrite list_lookup_insert_ne; [reflexivity|].
    unfold in_region in Hin, Hina.
    apply andb_prop in Hin as [Hin _]. apply andb_prop in Hina as [Hina _].
    apply Z.leb_le in Hin, Hina.
    unfold page_index, PAGE_SIZE in *. intros E.
    apply Z2Nat.inj in E; [| apply Z.div_pos; lia | apply Z.div_pos; lia].
    apply Hne.
    assert (Hr : (a - region_base r) mod 4096 = (p - region_base r) mod 4096).
    { rewrite (Zminus_mod a), (Zminus_mod p), Ha, Hp. reflexivity. }
    pose proof (Z.div_mod (a - region_base r) 4096 ltac:(lia)) as Da.
    pose proof (Z.div_mod (p - region_base r) 4096 ltac:(lia)) as Dp.
    lia.
  - destruct (free_page_in rest p) as [rest'|] eqn:E; [|discriminate].
    injection H as <-. cbn [List.find].
    destruct (in_region r a); [reflexivity|]. apply IH. reflexivity.
Qed.

Lemma free_page_keeps_other_pages (s : State) (p a : Z) :
  a mod PAGE_SIZE = 0 -> a <> p ->
  is_page_allocated (free_page s p) a = is_page_allocated s a.
Proof.
  intros Ha Hne. unfold free_page.
  destruct (Z.eqb_spec (p mod PAGE_SIZE) 0) as [Hp|Hp]; cbn [negb]; [|reflexivity].
  destruct (free_page_in (regions_ s) p) as [rs'|] eqn:E; [|reflexivity].
  unfold is_page_allocated. cbn [regions_ refund].
  apply (free_page_in_other _ _ _ _ E Hp Ha Hne).
Qed.

(** *** Single pages *)

Lemma free_page_in_unallocated (rs : list MemoryRegion) (page : Z) :
  match List.find (fun r => in_region r page) rs with
  | Some r => test (region_bitmap r) (page_index r page)
  | None => false
  end = false ->
  free_page_in rs page = None.
Proof.
  induction rs as [|r rest IH]; intros H; [reflexivity|].
  cbn [free_page_in List.find] in *.
  destruct (in_region r page).
  - rewrite H. cbn [negb]. destruct (_ <=? _); reflexivity.
  - rewrite (IH H). reflexivity.
Qed.

(** [free_page] of a page that is not allocated (its bit is clear, or no
    region contains it) is refused: regions and counters stay as they
    are. *)
Theorem free_page_refuses_unallocated_page (s : State) (page : Z) :
  is_page_allocated s page = false ->
  free_page s page = s.
Proof.
  intros H. unfold free_page.
  destruct (negb _); [reflexivity|].
  rewrite (free_page_in_unallocated _ _ H). reflexivity.
Qed.

Lemma free_page_refuses_witness :
  free_page (fresh 1048576 4) 1052672 = fresh 1048576 4.
Proof.
  apply (free_page_refuses_unallocated_page (fresh 1048576 4) 1052672).
  vm_compute. reflexivity.
Defined.

Lemma find_free_from_spec (bm : list bool) (n page found : nat) :
  find_free_from bm page n = Some found ->
  test bm found = false /\ (page <= found < page + n)%nat.
Proof.
  revert page. induction n as [|n IH]; intros page H; [discriminate|].
  cbn [find_free_from] in H.
  destruct (test bm page) eqn:E; cbn [negb] in H.
  - destruct (IH _ H) as [Ht Hr]. split; [exact Ht | lia].
  - injection H as <-. split; [exact E | lia].
Qed.

(** [allocate_page] on a single region that ends below 2^64 and whose
    bitmap has one bit per page: the address returned is page-aligned
    inside the region, the page was free before and is allocated after,
    and one page moves from the free to the used counters. *)
Theorem allocate_page_takes_a_free_page (s s' : State) (r : MemoryRegion) (a : Z) :
  regions_ s = [r] ->
  0 <= region_base r -> region_base r mod PAGE_SIZE = 0 ->
  region_size r = region_total_pages r * PAGE_SIZE ->
  region_base r + region_size r < 2 ^ 64 ->
  length (region_bitmap r) = Z.to_nat (region_total_pages r) ->
  allocate_page s = (Some a, s') ->
  a mod PAGE_SIZE = 0 /\
  region_base r <= a < region_base r + region_size r /\
  is_page_free s a = true /\
  is_page_allocated s' a = true /\
  free_pages_ s' = u64 (free_pages_ s - 1) /\
  used_pages_ s' = u64 (used_pages_ s + 1).
Proof.
  intros Hrs Hbase Hal Hsize Hend Hlen H.
  unfold allocate_page in H. rewrite Hrs in H. cbn [allocate_page_in] in H.
  destruct (find_free_page_in_region r) as [page|] eqn:E; [|discriminate].
  injection H as <- <-.
  destruct (find_free_from_spec _ _ _ _ E) as [Hfree Hpage].
  unfold PAGE_SIZE in *.
  assert (Hpg : Z.of_nat page < region_total_pages r) by lia.
  rewrite u64_small by lia.
  assert (Hin : forall r', region_base r' = region_base r ->
                           region_size r' = region_size r ->
                           in_region r' (region_base r + Z.of_nat page * 4096) = true).
  { intros r' Hb Hs. unfold in_region. rewrite Hb, Hs, u64_small by lia.
    apply andb_true_intro. split; [apply Z.leb_le | apply Z.ltb_lt]; lia. }
  assert (Hidx : forall r', region_base r' = region_base r ->
                            page_index r' (region_base r + Z.of_nat page * 4096) = page).
  { intros r' Hb. unfold page_index, PAGE_SIZE. rewrite Hb.
    replace (region_base r + Z.of_nat page * 4096 - region_base r)
      with (Z.of_nat page * 4096) by lia.
    rewrite Z.div_mul by lia. apply Nat2Z.id. }
  repeat split.
  - rewrite Z.add_mod, Hal, Z.mod_mul by lia. reflexivity.
  - lia.
  - lia.
  - unfold is_page_free. rewrite Hrs. cbn [List.find].
    rewrite Hin, Hidx, Hfree by reflexivity. reflexivity.
  - unfold is_page_allocated. cbn [charge regions_ List.find].
    rewrite Hin, Hidx by reflexivity. cbn [region_bitmap].
    unfold test, set. rewrite list_lookup_insert_eq by lia. reflexivity.
Qed.

Lemma allocate_page_witness :
  let s := fresh 1048576 4 in
  let a := 1048576 in
  a mod PAGE_SIZE = 0 /\
  1048576 <= a < 1048576 + 16384 /\
  is_page_free s a = true /\
  is_page_allocated (snd (allocate_page s)) a = true /\
  free_pages_ (snd (allocate_page s)) = u64 (free_pages_ s - 1) /\
  used_pages_ (snd (allocate_page s)) = u64 (used_pages_ s + 1).
Proof.
  apply (allocate_page_takes_a_free_page (fresh 1048576 4)
           (snd (allocate_page (fresh 1048576 4)))
           (mkRegion 1048576 16384 4 4 (replicate 4 false)) 1048576);
    vm_compute; first [reflexivity | congruence].
Defined.

(** C3: only the first page of the run has to be aligned.  The code
    tests the alignment of every page of the run: on a region whose
    four pages are all free and whose first page, at 0x100000, is a
    multiple of 8192, a request for 2 pages aligned on 8192 is refused
    and nothing is marked, although pages 0 and 1 are such a run; the
    same request for one page, or at page alignment, is granted there. *)
Theorem C3_allocate_aligned_refuses_free_aligned_run :
  let s := fresh 1048576 4 in
  1048576 mod effective_alignment 8192 = 0 /\
  is_page_free s 1048576 = true /\
  is_page_free s (1048576 + PAGE_SIZE) = true /\
  allocate_aligned s 2 8192 = (None, s) /\
  fst (allocate_aligned s 1 8192) = Some 1048576 /\
  fst (allocate_aligned s 2 PAGE_SIZE) = Some 1048576.
Proof. vm_compute. repeat split; reflexivity. Qed.

(** C7: the counters agree with the bitmaps after every operation.
    [free_pages] adds [count] to the counters even for the pages its
    loop found already free: with one page of four allocated, freeing
    the range of pages 0 and 1 leaves 4 clear bits but [free_pages_] = 5,
    above [total_pages_], and [used_pages_] wraps below zero;
    [free_page] on the page that was already free changes nothing. *)
Theorem C7_free_pages_double_free_breaks_counters :
  let s := snd (allocate_page (fresh 1048576 4)) in
  let s' := free_pages s 1048576 2 in
  free_pages_ s = clear_bits s /\
  used_pages_ s + free_pages_ s = total_pages_ s /\
  is_page_free s (1048576 + PAGE_SIZE) = true /\
  clear_bits s' = 4 /\
  free_pages_ s' = 5 /\
  total_pages_ s' = 4 /\
  used_pages_ s' = 2 ^ 64 - 1 /\
  free_pages_ s' <> clear_bits s' /\
  used_pages_ s' + free_pages_ s' <> total_pages_ s' /\
  free_page s (1048576 + PAGE_SIZE) = s.
Proof. vm_compute. repeat split; congruence. Qed.

End PMMFacts.

(** ** Virtual memory manager *)

Module VMMFacts.
Import Ints VMM.

Lemma index_of_range (virt : Z) (level : nat) : 0 <= index_of virt level < 512.
Proof.
  unfold index_of. change 511 with (Z.ones 9).
  rewrite Z.land_ones by lia. apply Z.mod_pos_bound. lia.
Qed.

Lemma get_address_aligned (raw : Z) : get_address raw mod PAGE_SIZE = 0.
Proof.
  unfold get_address, PAGE_SIZE. rewrite Z.shiftl_mul_pow2 by lia.
  change (2 ^ 12) with 4096. apply Z.mod_mul. lia.
Qed.

Lemma read_write_same (m : Memory) (t i v : Z) : read (write m t i v) t i = v.
Proof. unfold read, write. rewrite Z.eqb_refl. reflexivity. Qed.

(** Two page-aligned tables do not share an entry. *)
Lemma read_write_other (m : Memory) (t i v t' j : Z) :
  t mod PAGE_SIZE = 0 -> t' mod PAGE_SIZE = 0 -> t <> t' ->
  0 <= i < 512 -> 0 <= j < 512 ->
  read (write m t i v) t' j = read m t' j.
Proof.
  unfold read, write, PAGE_SIZE. intros Ht Ht' Hne Hi Hj.
  destruct (Z.eqb_spec (t' + 8 * j) (t + 8 * i)) as [E|E]; [|reflexivity].
  exfalso. apply Hne.
  apply Z.mod_divide in Ht; [|lia]. apply Z.mod_divide in Ht'; [|lia].
  destruct Ht as [a ->]. destruct Ht' as [b ->]. lia.
Qed.

Lemma table_not_empty (m : Memory) (t idx : Z) :
  0 <= idx < 512 -> is_present (read m t idx) = true -> table_empty m t = false.
Proof.
  intros Hidx Hp. unfold table_empty.
  destruct (forallb _ _) eqn:E; [|reflexivity].
  rewrite forallb_forall in E.
  specialize (E idx). rewrite Hp in E. cbn in E. symmetry. apply E.
  apply list_elem_of_In, elem_of_seqZ. unfold PAGE_TABLE_ENTRIES. lia.
Qed.

(** A table whose entry on the walk is present is left alone by the
    pruning pass. *)
Lemma prune_skips (s : State) (tables : list Z) (virt : Z) (i : nat)
  (rest : list nat) (t : Z) :
  tables !! i = Some t ->
  is_present (read (mem s) t (index_of virt i)) = true ->
  prune s tables virt (i :: rest) = prune s tables virt rest.
Proof.
  intros Ht Hp. cbn [prune]. rewrite Ht.
  rewrite (table_not_empty _ _ _ (index_of_range virt i) Hp). reflexivity.
Qed.

(** What a completed descent says about the tables it went through. *)
Lemma descent_entries (m : Memory) (root virt t3 t2 t1 t0 : Z) :
  unmap_descend m root virt [3; 2; 1]%nat = Some [t3; t2; t1; t0] ->
  t3 = root /\
  is_present (read m t3 (index_of virt 3)) = true /\
  t2 = get_address (read m t3 (index_of virt 3)) /\
  is_present (read m t2 (index_of virt 2)) = true /\
  t1 = get_address (read m t2 (index_of virt 2)) /\
  is_present (read m t1 (index_of virt 1)) = true /\
  t0 = get_address (read m t1 (index_of virt 1)).
Proof.
  intros H. cbn [unmap_descend] in H.
  destruct (is_present (read m root (index_of virt 3))) eqn:P3;
    cbn [negb] in H; [|discriminate].
  destruct (is_present (read m (get_address (read m root (index_of virt 3)))
                             (index_of virt 2))) eqn:P2;
    cbn [negb] in H; [|discriminate].
  destruct (is_present
              (read m (get_address
                         (read m (get_address (read m root (index_of virt 3)))
                               (index_of virt 2)))
                    (index_of virt 1))) eqn:P1;
    cbn [negb] in H; [|discriminate].
  injection H as <- <- <- <-. auto 10.
Qed.

Lemma descent_aligned (m : Memory) (root virt t3 t2 t1 t0 : Z) :
  root mod PAGE_SIZE = 0 ->
  unmap_descend m root virt [3; 2; 1]%nat = Some [t3; t2; t1; t0] ->
  t3 mod PAGE_SIZE = 0 /\ t2 mod PAGE_SIZE = 0 /\
  t1 mod PAGE_SIZE = 0 /\ t0 mod PAGE_SIZE = 0.
Proof.
  intros Hroot H.
  destruct (descent_entries _ _ _ _ _ _ _ H) as (-> & _ & -> & _ & -> & _ & ->).
  auto using get_address_aligned.
Qed.

(** Zeroing the leaf entry leaves the upper entries of the walk as they
    were, when the page table is not one of the upper tables. *)
Lemma upper_entries_kept (s : State) (virt t3 t2 t1 t0 : Z) :
  pml4 (current_space_ s) mod PAGE_SIZE = 0 ->
  unmap_descend (mem s) (pml4 (current_space_ s)) virt [3; 2; 1]%nat
    = Some [t3; t2; t1; t0] ->
  t0 <> t1 -> t0 <> t2 -> t0 <> t3 ->
  read (mem (clear_leaf s t0 virt)) t3 (index_of virt 3)
    = read (mem s) t3 (index_of virt 3) /\
  read (mem (clear_leaf s t0 virt)) t2 (index_of virt 2)
    = read (mem s) t2 (index_of virt 2) /\
  read (mem (clear_leaf s t0 virt)) t1 (index_of virt 1)
    = read (mem s) t1 (index_of virt 1).
Proof.
  intros Hroot Hwalk H01 H02 H03.
  destruct (descent_aligned _ _ _ _ _ _ _ Hroot Hwalk) as (A3 & A2 & A1 & A0).
  cbn [clear_leaf mem].
  repeat split; apply read_write_other; auto using index_of_range.
Qed.

(** On a mapped page of a tree-shaped walk the pruning pass does
    nothing: the call returns in the state [clear_leaf] built. *)
Lemma unmap_mapped_page (s : State) (virt t3 t2 t1 t0 : Z) :
  virt mod PAGE_SIZE = 0 ->
  pml4 (current_space_ s) mod PAGE_SIZE = 0 ->
  unmap_descend (mem s) (pml4 (current_space_ s)) virt [3; 2; 1]%nat
    = Some [t3; t2; t1; t0] ->
  is_present (read (mem s) t0 (index_of virt 0)) = true ->
  t0 <> t1 -> t0 <> t2 -> t0 <> t3 ->
  unmap_page s virt = Returned true (clear_leaf s t0 virt).
Proof.
  intros Hvirt Hroot Hwalk Hleaf H01 H02 H03.
  destruct (upper_entries_kept _ _ _ _ _ _ Hroot Hwalk H01 H02 H03) as (K3 & K2 & K1).
  destruct (descent_entries _ _ _ _ _ _ _ Hwalk) as (_ & P3 & _ & P2 & _ & P1 & _).
  unfold unmap_page, unmap_page_internal.
  replace (virt mod PAGE_SIZE =? 0) with true by (symmetry; apply Z.eqb_eq; exact Hvirt).
  cbn [negb]. rewrite Hwalk.
  change (reverse [t3; t2; t1; t0]) with [t0; t1; t2; t3].
  cbn [lookup list_lookup]. rewrite Hleaf. cbn [negb].
  rewrite (prune_skips _ _ _ 1%nat _ t1) by (reflexivity || (rewrite K1; exact P1)).
  rewrite (prune_skips _ _ _ 2%nat _ t2) by (reflexivity || (rewrite K2; exact P2)).
  rewrite (prune_skips _ _ _ 3%nat _ t3) by (reflexivity || (rewrite K3; exact P3)).
  reflexivity.
Qed.

(** On a hierarchy in which the page table of the walk is not also
    one of its upper tables, [unmap_page] of a mapped page returns true
    in the state reached before the pruning pass: every upper table
    still holds the present entry the walk went through, so no prune
    step runs, and the only frame handed to the PMM is the mapped
    one. *)
Lemma unmap_on_a_tree_prunes_nothing (s : State) (virt t3 t2 t1 t0 : Z) :
  virt mod PAGE_SIZE = 0 ->
  pml4 (current_space_ s) mod PAGE_SIZE = 0 ->
  unmap_descend (mem s) (pml4 (current_space_ s)) virt [3; 2; 1]%nat
    = Some [t3; t2; t1; t0] ->
  is_present (read (mem s) t0 (index_of virt 0)) = true ->
  t0 <> t1 -> t0 <> t2 -> t0 <> t3 ->
  unmap_page s virt = Returned true (clear_leaf s t0 virt) /\
  pml4 (current_space_ (clear_leaf s t0 virt)) = pml4 (current_space_ s) /\
  allocated_pages (current_space_ (clear_leaf s t0 virt))
    = allocated_pages (current_space_ s) /\
  pmm (clear_leaf s t0 virt)
    = PMM.free_page (pmm s) (get_address (read (mem s) t0 (index_of virt 0))) /\
  (get_address (read (mem s) t0 (index_of virt 0)) <> pml4 (current_space_ s) ->
   PMM.is_page_allocated (pmm (clear_leaf s t0 virt)) (pml4 (current_space_ s))
   = PMM.is_page_allocated (pmm s) (pml4 (current_space_ s))).
Proof.
  intros Hvirt Hroot Hwalk Hleaf H01 H02 H03.
  split; [apply (unmap_mapped_page s virt t3 t2 t1 t0); assumption|].
  repeat split; try reflexivity.
  intros Hdata. cbn [clear_leaf pmm].
  apply PMMFacts.free_page_keeps_other_pages; [exact Hroot | congruence].
Qed.

(** C10: the pruning pass of [unmap_page] leaves the four recorded
    tables, and an unmap frees the PML4.  From the booted address
    space, whose PML4 is the frame 0x100000: [map_page] of that frame
    at 0x400000 succeeds, and [unmap_page] of 0x400000 returns true and
    hands the frame of the PML4 to the PMM.  [map_page] of [all_ones]
    then gets the frame back as its new table and zeroes it; the call
    returns false, with entry 1 of the PML4 pointing at the PML4.  The
    page [all_ones] now walks through the PML4 four times to a present
    entry, and [unmap_page] of it finds the table empty at every prune
    step: at [i = 3] it hands the PML4 to the PMM and indexes
    [tables[4]]. *)
Theorem C10_unmap_prune_leaves_the_recorded_tables :
  pml4 (current_space_ booted) = 0x100000 /\
  fst (map_page booted 0x400000 0x100000 (Z.lor Present Writable)) = true /\
  PMM.is_page_allocated (pmm pml4_mapped) 0x100000 = true /\
  returned (unmap_page pml4_mapped 0x400000) = Some true /\
  PMM.is_page_free (pmm pml4_released) 0x100000 = true /\
  fst (map_page pml4_released all_ones 0x102000 (Z.lor Present Writable)) = false /\
  pml4 (current_space_ pml4_looped) = 0x100000 /\
  unmap_descend (mem pml4_looped) 0x100000 all_ones [3; 2; 1]%nat
    = Some [0x100000; 0x100000; 0x100000; 0x100000] /\
  get_physical_address pml4_looped all_ones = Some 0x100000 /\
  PMM.is_page_allocated (pmm pml4_looped) 0x100000 = true /\
  returned (unmap_page pml4_looped all_ones) = None /\
  PMM.is_page_free (pmm (state_of (unmap_page pml4_looped all_ones))) 0x100000 = true.
Proof. vm_compute. repeat split; reflexivity. Qed.

(** *** Translation of live mappings *)

Lemma get_address_range (raw : Z) : 0 <= get_address raw < 2 ^ 52.
Proof.
  unfold get_address. rewrite Z.shiftl_mul_pow2 by lia.
  change (2 ^ 40 - 1) with (Z.ones 40). rewrite Z.land_ones by lia.
  pose proof (Z.mod_pos_bound (Z.shiftr raw 12) (2 ^ 40) ltac:(lia)). lia.
Qed.

Lemma index_of_offset (virt off : Z) (level : nat) :
  virt mod PAGE_SIZE = 0 -> 0 <= off < PAGE_SIZE ->
  index_of (virt + off) level = index_of virt level.
Proof.
  unfold PAGE_SIZE, index_of. intros Hv Hoff. f_equal.
  rewrite !Z.shiftr_div_pow2 by lia.
  rewrite Z.pow_add_r by lia. change (2 ^ 12) with 4096.
  rewrite <- !Z.div_div by lia. f_equal.
  apply Z.mod_divide in Hv; [|lia]. destruct Hv as [q ->].
  rewrite Z.div_add_l, Z.div_small, Z.div_mul by lia. lia.
Qed.

Lemma page_offset (virt off : Z) :
  virt mod PAGE_SIZE = 0 -> 0 <= off < PAGE_SIZE ->
  Z.land (virt + off) (u64 (PAGE_SIZE * PAGE_TABLE_ENTRIES ^ Z.of_nat 0 - 1)) = off.
Proof.
  unfold PAGE_SIZE. intros Hv Hoff.
  change (u64 (4096 * PAGE_TABLE_ENTRIES ^ Z.of_nat 0 - 1)) with (Z.ones 12).
  rewrite Z.land_ones by lia. change (2 ^ 12) with 4096.
  rewrite Z.add_mod, Hv, Z.add_0_l, Z.mod_mod, Z.mod_small by lia. reflexivity.
Qed.

(** The walk reaches level 0 on a page whose tables are reached through
    present entries that are not huge pages. *)
Lemma walk_reaches_leaf (m : Memory) (root address t3 t2 t1 t0 : Z) :
  unmap_descend m root address [3; 2; 1]%nat = Some [t3; t2; t1; t0] ->
  is_huge (read m t3 (index_of address 3)) = false ->
  is_huge (read m t2 (index_of address 2)) = false ->
  is_huge (read m t1 (index_of address 1)) = false ->
  walk_from m root address 3
  = if negb (is_present (read m t0 (index_of address 0))) then (None, 0%nat)
    else (Some (get_address (read m t0 (index_of address 0))), 0%nat).
Proof.
  intros Hwalk G3 G2 G1.
  destruct (descent_entries _ _ _ _ _ _ _ Hwalk) as (E3 & P3 & E2 & P2 & E1 & P1 & E0).
  subst t3. cbn [walk_from].
  rewrite P3, G3. cbn [negb]. rewrite <- E2, P2, G2. cbn [negb].
  rewrite <- E1, P1, G1. cbn [negb]. rewrite <- E0. reflexivity.
Qed.

Lemma descent_offset (m : Memory) (root virt off : Z) :
  virt mod PAGE_SIZE = 0 -> 0 <= off < PAGE_SIZE ->
  unmap_descend m root (virt + off) [3; 2; 1]%nat
  = unmap_descend m root virt [3; 2; 1]%nat.
Proof.
  intros Hv Hoff. cbn [unmap_descend].
  rewrite !(index_of_offset virt off) by assumption. reflexivity.
Qed.

(** Every live mapping translates: when the walk for a page-aligned [virt]
    goes through present, non-huge entries to a present leaf entry, each
    address [virt + off] of the page translates to the frame of that
    entry plus [off], found at level 0. *)
Theorem live_mapping_translates (s : State) (virt off t3 t2 t1 t0 : Z) :
  virt mod PAGE_SIZE = 0 -> 0 <= off < PAGE_SIZE ->
  unmap_descend (mem s) (pml4 (current_space_ s)) virt [3; 2; 1]%nat
    = Some [t3; t2; t1; t0] ->
  is_huge (read (mem s) t3 (index_of virt 3)) = false ->
  is_huge (read (mem s) t2 (index_of virt 2)) = false ->
  is_huge (read (mem s) t1 (index_of virt 1)) = false ->
  is_present (read (mem s) t0 (index_of virt 0)) = true ->
  walk_page_table s (virt + off)
    = (Some (get_address (read (mem s) t0 (index_of virt 0))), 0%nat) /\
  get_physical_address s (virt + off)
    = Some (get_address (read (mem s) t0 (index_of virt 0)) + off).
Proof.
  intros Hv Hoff Hwalk G3 G2 G1 Hleaf.
  assert (W : walk_page_table s (virt + off)
              = (Some (get_address (read (mem s) t0 (index_of virt 0))), 0%nat)).
  { unfold walk_page_table.
    rewrite (walk_reaches_leaf _ _ _ t3 t2 t1 t0);
      rewrite ?descent_offset, ?index_of_offset by assumption; try assumption.
    rewrite Hleaf. reflexivity. }
  split; [exact W|].
  unfold get_physical_address. rewrite W.
  rewrite page_offset by assumption.
  pose proof (get_address_range (read (mem s) t0 (index_of virt 0))).
  unfold PAGE_SIZE in Hoff. unfold u64, wrap. rewrite Z.mod_small by lia. reflexivity.
Qed.

Lemma live_mapping_translates_witness :
  walk_page_table one_mapping (0x400000 + 0x42)
    = (Some (get_address (read (mem one_mapping) 0x104000 (index_of 0x400000 0))),
       0%nat) /\
  get_physical_address one_mapping (0x400000 + 0x42)
    = Some (get_address (read (mem one_mapping) 0x104000 (index_of 0x400000 0)) + 0x42).
Proof.
  apply (live_mapping_translates one_mapping 0x400000 0x42
           0x100000 0x102000 0x103000 0x104000);
    vm_compute; first [reflexivity | split; congruence].
Defined.

(** After the unmap of a mapped page of a tree-shaped, huge-free walk the
    page has no translation, and a second unmap returns false and leaves
    the state as it is. *)
Theorem unmapped_page_has_no_translation (s : State) (virt t3 t2 t1 t0 : Z) :
  virt mod PAGE_SIZE = 0 ->
  pml4 (current_space_ s) mod PAGE_SIZE = 0 ->
  unmap_descend (mem s) (pml4 (current_space_ s)) virt [3; 2; 1]%nat
    = Some [t3; t2; t1; t0] ->
  is_huge (read (mem s) t3 (index_of virt 3)) = false ->
  is_huge (read (mem s) t2 (index_of virt 2)) = false ->
  is_huge (read (mem s) t1 (index_of virt 1)) = false ->
  is_present (read (mem s) t0 (index_of virt 0)) = true ->
  t0 <> t1 -> t0 <> t2 -> t0 <> t3 ->
  unmap_page s virt = Returned true (clear_leaf s t0 virt) /\
  get_physical_address (clear_leaf s t0 virt) virt = None /\
  unmap_page (clear_leaf s t0 virt) virt = Returned false (clear_leaf s t0 virt).
Proof.
  intros Hvirt Hroot Hwalk G3 G2 G1 Hleaf H01 H02 H03.
  destruct (upper_entries_kept _ _ _ _ _ _ Hroot Hwalk H01 H02 H03) as (K3 & K2 & K1).
  destruct (descent_entries _ _ _ _ _ _ _ Hwalk) as (E3 & P3 & E2 & P2 & E1 & P1 & E0).
  assert (Hwalk' : unmap_descend (mem (clear_leaf s t0 virt))
                     (pml4 (current_space_ (clear_leaf s t0 virt))) virt [3; 2; 1]%nat
                   = Some [t3; t2; t1; t0]).
  { cbn [unmap_descend]. change (pml4 (current_space_ (clear_leaf s t0 virt)))
      with (pml4 (current_space_ s)).
    rewrite <- E3, K3, P3. cbn [negb]. rewrite <- E2, K2, P2. cbn [negb].
    rewrite <- E1, K1, P1. cbn [negb]. rewrite <- E0. reflexivity. }
  assert (Hgone : read (mem (clear_leaf s t0 virt)) t0 (index_of virt 0) = 0)
    by (cbn [clear_leaf mem]; apply read_write_same).
  split; [apply (unmap_mapped_page s virt t3 t2 t1 t0); assumption|]. split.
  - unfold get_physical_address, walk_page_table.
    rewrite (walk_reaches_leaf _ _ _ t3 t2 t1 t0); rewrite ?K3, ?K2, ?K1; try assumption.
    rewrite Hgone. reflexivity.
  - unfold unmap_page, unmap_page_internal.
    replace (virt mod PAGE_SIZE =? 0) with true by (symmetry; apply Z.eqb_eq; exact Hvirt).
    cbn [negb]. rewrite Hwalk'.
    change (reverse [t3; t2; t1; t0]) with [t0; t1; t2; t3].
    cbn [lookup list_lookup]. rewrite Hgone. reflexivity.
Qed.

Lemma unmapped_page_witness :
  unmap_page one_mapping 0x400000
    = Returned true (clear_leaf one_mapping 0x104000 0x400000) /\
  get_physical_address (clear_leaf one_mapping 0x104000 0x400000) 0x400000 = None /\
  unmap_page (clear_leaf one_mapping 0x104000 0x400000) 0x400000
    = Returned false (clear_leaf one_mapping 0x104000 0x400000).
Proof.
  apply (unmapped_page_has_no_translation one_mapping 0x400000
           0x100000 0x102000 0x103000 0x104000);
    vm_compute; congruence.
Defined.

(** C2: a live mapping translates, an unmapped page does not, a second
    unmap fails, and the tables an unmap empties are freed and unhooked
    in the same call.  The last part fails: the pruning pass starts at
    the page directory, so the page table is never looked at.  After
    the only mapping of [one_mapping] is removed, its page table at
    0x104000 has no present entry left, yet its frame is still
    allocated, the page-directory entry that points to it is still
    present, and [allocated_pages] still counts three tables. *)
Theorem C2_unmap_keeps_emptied_page_table :
  get_physical_address one_mapping (0x400000 + 0x42) = Some (0x101000 + 0x42) /\
  table_empty (mem one_mapping) 0x104000 = false /\
  let after := unmap_page one_mapping 0x400000 in
  returned after = Some true /\
  get_physical_address (state_of after) 0x400000 = None /\
  PMM.is_page_free (pmm (state_of after)) 0x101000 = true /\
  table_empty (mem (state_of after)) 0x104000 = true /\
  PMM.is_page_allocated (pmm (state_of after)) 0x104000 = true /\
  is_present (read (mem (state_of after)) 0x103000 (index_of 0x400000 1)) = true /\
  allocated_pages (current_space_ (state_of after)) = 3 /\
  returned (unmap_page (state_of after) 0x400000) = Some false.
Proof. vm_compute. repeat split; reflexivity. Qed.

End VMMFacts.

(** ** Scheduler *)

Module SchedFacts.
Import Sched.

Lemma cleanup_keeps_idle_current (s : Scheduler) :
  current_thread_ s = idle_thread_ s ->
  current_thread_ (cleanup_dead_threads s) = idle_thread_ (cleanup_dead_threads s)
  /\ idle_thread_ (cleanup_dead_threads s) = idle_thread_ s
  /\ dispatched (cleanup_dead_threads s) = dispatched s.
Proof.
  intros H. unfold cleanup_dead_threads. cbn.
  rewrite H. destruct (existsb _ _); auto.
Qed.

(** While the idle thread is current a timer tick never selects: the
    idle thread stays current and nothing is dispatched. *)
Lemma tick_keeps_idle_current (tsc : nat -> Z) (s : Scheduler) :
  current_thread_ s = idle_thread_ s ->
  current_thread_ (handle_timer_tick tsc s) = idle_thread_ (handle_timer_tick tsc s)
  /\ idle_thread_ (handle_timer_tick tsc s) = idle_thread_ s
  /\ dispatched (handle_timer_tick tsc s) = dispatched s.
Proof.
  intros H. destruct s as [qs idle cur pol slice last tk st th ph rd dp].
  cbn [current_thread_ idle_thread_] in H. subst cur.
  unfold handle_timer_tick, read_tsc.
  cbn [current_thread_ idle_thread_ run_queues_ policy_ time_slice_default_
       last_schedule_time_ timer_ticks_ statistics_ thread_heap process_heap
       tsc_reads dispatched].
  rewrite Nat.eqb_refl. cbn [negb].
  match goal with
  | |- context [cleanup_dead_threads ?x] =>
      destruct (cleanup_keeps_idle_current x) as (Hc & Hi & Hd); [reflexivity|]
  end.
  rewrite Hc, Hi, Hd. auto.
Qed.

Lemma ticks_keep_idle_current (tsc : nat -> Z) (n : nat) (s : Scheduler) :
  current_thread_ s = idle_thread_ s ->
  current_thread_ (ticks tsc n s) = idle_thread_ s
  /\ dispatched (ticks tsc n s) = dispatched s.
Proof.
  revert s. induction n as [|n IH]; intros s H; [auto|].
  cbn [ticks].
  destruct (tick_keeps_idle_current tsc s H) as (Hc & Hi & Hd).
  destruct (IH _ Hc) as [Hc' Hd']. rewrite Hc', Hd', Hi, Hd. auto.
Qed.

(** A scheduler whose current thread is the idle thread stays there:
    after any number of timer ticks, whatever the time-stamp counter
    reads and whatever the run queues hold, the idle thread is still
    current and the list of dispatched threads has not grown. *)
Theorem idle_thread_is_never_preempted (tsc : nat -> Z) (n : nat) (s : Scheduler) :
  current_thread_ s = idle_thread_ s ->
  current_thread_ (ticks tsc n s) = idle_thread_ s /\
  dispatched (ticks tsc n s) = dispatched s.
Proof. apply ticks_keep_idle_current. Qed.

Lemma idle_thread_witness :
  current_thread_ (ticks (fun k => Z.of_nat k * 1000000) 5 two_processes)
    = idle_thread_ two_processes /\
  dispatched (ticks (fun k => Z.of_nat k * 1000000) 5 two_processes)
    = dispatched two_processes.
Proof.
  apply (idle_thread_is_never_preempted (fun k => Z.of_nat k * 1000000) 5 two_processes).
  vm_compute. reflexivity.
Defined.

(** C5: with the threads of "a" and "b" Ready in one band and the idle
    thread current, three ticks at slice 1 dispatch a, b, a.  In the
    code a tick re-enters selection only when the current thread is not
    the idle thread: whatever the time-stamp counter reads and however
    many ticks pass, the idle thread stays current and no thread is
    ever dispatched. *)
Theorem C5_ticks_never_leave_idle (tsc : nat -> Z) (n : nat) :
  run_queues_ two_processes !! 1%nat = Some (mkQueue [2%nat; 3%nat] 0) /\
  get_state (thread_heap two_processes) 2 = Ready /\
  get_state (thread_heap two_processes) 3 = Ready /\
  time_slice_default_ two_processes = 1 /\
  current_thread_ two_processes = idle_thread_ two_processes /\
  current_thread_ (ticks tsc n two_processes) = idle_thread_ two_processes /\
  dispatched (ticks tsc n two_processes) = [].
Proof.
  assert (H : current_thread_ two_processes = idle_thread_ two_processes)
    by (vm_compute; reflexivity).
  destruct (ticks_keep_idle_current tsc n two_processes H) as [Hc Hd].
  rewrite Hc, Hd. vm_compute. repeat split; reflexivity.
Qed.

End SchedFacts.

(** ** Blocking receive calls *)

Module ReceiveFacts.
Import Ints.

(** *** UDP *)

Lemma udp_wait_forever (tsc : nat -> Z) (fuel k reads : nat) (s : UDP.UDPSocket)
  (start cycles : Z) :
  UDP.receive_queue_ s = [] ->
  UDP.wait_datagram tsc UDP.quiet fuel k reads s start 0 cycles = None.
Proof.
  intros Hq. revert k reads.
  induction fuel as [|fuel IH]; intros k reads; cbn [UDP.wait_datagram]; rewrite Hq;
    [reflexivity|].
  cbn [Z.eqb negb]. apply IH.
Qed.

Lemma udp_wait_times_out (tsc : nat -> Z) (timeout_ms : Z) (s : UDP.UDPSocket) :
  UDP.receive_queue_ s = [] -> timeout_ms <> 0 ->
  forall (n fuel k reads : nat),
    times_out_after tsc timeout_ms reads n = true -> (n < fuel)%nat ->
    UDP.wait_datagram tsc UDP.quiet fuel k reads s (u64 (tsc 0%nat)) timeout_ms
                      (u64 (timeout_ms * 1000000)) = Some (false, s).
Proof.
  intros Hq Ht.
  induction n as [|n IH]; intros fuel k reads Hn Hfuel;
    (destruct fuel as [|fuel]; [lia|]);
    cbn [UDP.wait_datagram]; rewrite Hq;
    replace (timeout_ms =? 0) with false by (symmetry; apply Z.eqb_neq; exact Ht);
    cbn [negb]; cbn [times_out_after] in Hn; unfold timed_out in Hn.
  - rewrite Hn. reflexivity.
  - apply andb_prop in Hn as [Hno Hn]. apply negb_true_iff in Hno. rewrite Hno.
    apply IH; [exact Hn | lia].
Qed.

(** *** TCP *)

Lemma tcp_wait_forever (tsc : nat -> Z) (fuel k reads : nat) (s : TCP.TCPSocket)
  (start cycles : Z) :
  TCP.receive_queue_ s = [] ->
  TCP.wait_bytes tsc TCP.quiet fuel k reads s start 0 cycles = None.
Proof.
  intros Hq. revert k reads.
  induction fuel as [|fuel IH]; intros k reads; cbn [TCP.wait_bytes]; rewrite Hq;
    [reflexivity|].
  cbn [Z.eqb negb]. apply IH.
Qed.

Lemma tcp_wait_times_out (tsc : nat -> Z) (timeout_ms : Z) (s : TCP.TCPSocket) :
  TCP.receive_queue_ s = [] -> timeout_ms <> 0 ->
  forall (n fuel k reads : nat),
    times_out_after tsc timeout_ms reads n = true -> (n < fuel)%nat ->
    TCP.wait_bytes tsc TCP.quiet fuel k reads s (u64 (tsc 0%nat)) timeout_ms
                   (u64 (timeout_ms * 1000000))
    = Some (false, S (reads + n), s).
Proof.
  intros Hq Ht.
  induction n as [|n IH]; intros fuel k reads Hn Hfuel;
    (destruct fuel as [|fuel]; [lia|]);
    cbn [TCP.wait_bytes]; rewrite Hq;
    replace (timeout_ms =? 0) with false by (symmetry; apply Z.eqb_neq; exact Ht);
    cbn [negb]; cbn [times_out_after] in Hn; unfold timed_out in Hn.
  - rewrite Hn, Nat.add_0_r. reflexivity.
  - apply andb_prop in Hn as [Hno Hn]. apply negb_true_iff in Hno. rewrite Hno.
    rewrite IH; [|exact Hn | lia].
    replace (S (reads + S n)) with (S (S reads + n)) by lia. reflexivity.
Qed.

(** *** Ethernet *)

Lemma eth_receive_forever (tsc : nat -> Z) (fuel k reads : nat)
  (d : Ethernet.EthernetDevice) (size start cycles : Z) :
  Ethernet.nothing_received d = true ->
  Ethernet.receive_loop tsc Ethernet.quiet fuel k reads d size start 0 cycles = None.
Proof.
  intros Hd. revert k reads.
  induction fuel as [|fuel IH]; intros k reads; cbn [Ethernet.receive_loop];
    [reflexivity|].
  unfold Ethernet.nothing_received in Hd. rewrite Hd.
  cbn [Z.eqb negb]. apply IH.
Qed.

Lemma eth_receive_times_out (tsc : nat -> Z) (timeout_ms size : Z)
  (d : Ethernet.EthernetDevice) :
  Ethernet.nothing_received d = true -> timeout_ms <> 0 ->
  forall (n fuel k reads : nat),
    times_out_after tsc timeout_ms reads n = true -> (n < fuel)%nat ->
    Ethernet.receive_loop tsc Ethernet.quiet fuel k reads d size (u64 (tsc 0%nat))
                          timeout_ms (u64 (timeout_ms * 1000000))
    = Some (Ethernet.mkReceived false [] size d).
Proof.
  intros Hd Ht. unfold Ethernet.nothing_received in Hd.
  induction n as [|n IH]; intros fuel k reads Hn Hfuel;
    (destruct fuel as [|fuel]; [lia|]);
    cbn [Ethernet.receive_loop]; rewrite Hd;
    replace (timeout_ms =? 0) with false by (symmetry; apply Z.eqb_neq; exact Ht);
    cbn [negb]; cbn [times_out_after] in Hn; unfold timed_out in Hn.
  - rewrite Hn. reflexivity.
  - apply andb_prop in Hn as [Hno Hn]. apply negb_true_iff in Hno. rewrite Hno.
    apply IH; [exact Hn | lia].
Qed.

(** The polling pass of the manager does not come back from a device
    that has received nothing. *)
Lemma process_packets_waits (tsc : nat -> Z) (fuel : nat)
  (d : Ethernet.EthernetDevice) (rest : list Ethernet.EthernetDevice)
  (callbacks_ : list (Z * nat)) :
  Ethernet.nothing_received d = true ->
  Ethernet.process_packets tsc Ethernet.quiet fuel (d :: rest) callbacks_ = None.
Proof.
  intros Hd. cbn [Ethernet.process_packets]. unfold Ethernet.receive.
  rewrite eth_receive_forever by exact Hd. reflexivity.
Qed.

(** C6: a receive with timeout 0 does not poll once and return, it
    waits.  On a bound UDP socket with an empty queue and on an
    Ethernet device whose next descriptor is not done, with nothing
    arriving, the call is still in its loop after any number of polls,
    whatever the clock reads, and so is [process_packets], which asks
    each device through [receive(buffer, &size, 0)]; the same calls
    with a timeout of 1 ms, on a clock that advances 600000 cycles from
    read to read, return 0 bytes (false for Ethernet) at the second
    poll and leave the socket and the device as they were. *)
Theorem C6_timeout_zero_waits_for_data (tsc : nat -> Z) (fuel : nat)
  (rest : list Ethernet.EthernetDevice) (callbacks_ : list (Z * nat)) :
  UDP.receive_from tsc UDP.quiet fuel UDP.idle_socket 1500 0 = None /\
  Ethernet.receive tsc Ethernet.quiet fuel Ethernet.idle_device 1500 0 = None /\
  Ethernet.process_packets tsc Ethernet.quiet fuel (Ethernet.idle_device :: rest)
                           callbacks_ = None /\
  UDP.receive_from (fun k => Z.of_nat k * 600000) UDP.quiet (S (S fuel))
                   UDP.idle_socket 1500 1
    = Some (UDP.mkReceived 0 [] None UDP.idle_socket) /\
  Ethernet.receive (fun k => Z.of_nat k * 600000) Ethernet.quiet (S (S fuel))
                   Ethernet.idle_device 1500 1
    = Some (Ethernet.mkReceived false [] 1500 Ethernet.idle_device).
Proof.
  split; [|split; [|split; [|split]]].
  - unfold UDP.receive_from. cbn [UDP.bound_ UDP.idle_socket negb].
    rewrite udp_wait_forever by reflexivity. reflexivity.
  - unfold Ethernet.receive. apply eth_receive_forever. reflexivity.
  - apply process_packets_waits. reflexivity.
  - unfold UDP.receive_from. cbn [UDP.bound_ UDP.idle_socket negb].
    rewrite (udp_wait_times_out (fun k => Z.of_nat k * 600000) 1 UDP.idle_socket
               eq_refl ltac:(lia) 1%nat)
      by (reflexivity || lia).
    reflexivity.
  - unfold Ethernet.receive.
    apply (eth_receive_times_out (fun k => Z.of_nat k * 600000) 1 1500
             Ethernet.idle_device eq_refl ltac:(lia) 1%nat);
      [reflexivity | lia].
Qed.

End ReceiveFacts.

(** ** TCP *)

Module TCPFacts.
Import Ints TCP.

(** Every segment the retransmission loop sends re-sends a buffer that
    is not acknowledged and has timed out. *)
Lemma retransmit_loop_sent (s : TCPSocket) (now : Z) (todo : list SendBuffer) :
  forall (c : Z) bs c' out ab,
    retransmit_loop s now todo c = (bs, c', out, ab) ->
    Forall (fun seg => exists b, b ∈ todo /\ acknowledged b = false /\
                                 due s now b = true /\
                                 seg = retransmission s now b) out.
Proof.
  induction todo as [|b rest IH]; intros c bs c' out ab H; cbn [retransmit_loop] in H.
  - injection H as <- <- <- <-. constructor.
  - destruct (due s now b) eqn:Hdue.
    + destruct (10 <? c).
      * injection H as <- <- <- <-. constructor.
      * destruct (retransmit_loop s now rest (u32 (c + 1))) as [[[bs1 c1] out1] ab1] eqn:E.
        injection H as <- <- <- <-. constructor.
        -- exists b. repeat split; [left | | exact Hdue].
           unfold due in Hdue. apply andb_prop in Hdue as [Hack _].
           apply negb_true_iff in Hack. exact Hack.
        -- eapply Forall_impl; [eapply IH; exact E|].
           intros seg (b' & Hin & Hrest). exists b'. split; [right; exact Hin | exact Hrest].
    + destruct (retransmit_loop s now rest c) as [[[bs1 c1] out1] ab1] eqn:E.
      injection H as <- <- <- <-.
      eapply Forall_impl; [eapply IH; exact E|].
      intros seg (b' & Hin & Hrest). exists b'. split; [right; exact Hin | exact Hrest].
Qed.

(** While the counter of the socket stays within ten, every buffer
    that is due is re-sent and restamped, in order. *)
Lemma retransmit_loop_below_limit (s : TCPSocket) (now : Z) (todo : list SendBuffer) :
  forall c : Z,
    0 <= c ->
    c + Z.of_nat (length (filter (fun b => due s now b = true) todo)) <= 10 ->
    retransmit_loop s now todo c
    = (map (fun b => if due s now b then restamp now b else b) todo,
       c + Z.of_nat (length (filter (fun b => due s now b = true) todo)),
       map (retransmission s now) (filter (fun b => due s now b = true) todo),
       false).
Proof.
  induction todo as [|b rest IH]; intros c Hc Hle; cbn [retransmit_loop map].
  - rewrite filter_nil. cbn. rewrite Z.add_0_r. reflexivity.
  - rewrite filter_cons in *. destruct (decide (due s now b = true)) as [Hdue|Hdue].
    + rewrite Hdue. cbn [length] in Hle |- *.
      replace (10 <? c) with false by (symmetry; apply Z.ltb_ge; lia).
      assert (Hu : u32 (c + 1) = c + 1)
        by (unfold u32, wrap; apply Z.mod_small; lia).
      rewrite Nat2Z.inj_succ in Hle |- *.
      rewrite Hu, IH by lia. cbn [map].
      rewrite <- Z.add_assoc, (Z.add_comm 1), Z.add_1_r. reflexivity.
    + apply not_true_is_false in Hdue. rewrite Hdue.
      rewrite IH by lia. reflexivity.
Qed.

(** The loop ends in [abort] only with the counter above ten. *)
Lemma retransmit_loop_abort (s : TCPSocket) (now : Z) (todo : list SendBuffer) :
  forall (c : Z) bs c' out,
    retransmit_loop s now todo c = (bs, c', out, true) -> 10 < c'.
Proof.
  induction todo as [|b rest IH]; intros c bs c' out H; cbn [retransmit_loop] in H.
  - discriminate.
  - destruct (due s now b).
    + destruct (10 <? c) eqn:Hc.
      * injection H as <- <- <-. apply Z.ltb_lt. exact Hc.
      * destruct (retransmit_loop s now rest (u32 (c + 1))) as [[[bs1 c1] out1] ab1] eqn:E.
        injection H as <- <- <- ->. eapply IH. exact E.
    + destruct (retransmit_loop s now rest c) as [[[bs1 c1] out1] ab1] eqn:E.
      injection H as <- <- <- ->. eapply IH. exact E.
Qed.

(** The loop with a budget: the first [budget] due buffers are re-sent
    and restamped, and the loop ends in [abort] at the next due one. *)
Lemma retransmit_loop_budget (s : TCPSocket) (now : Z) (todo : list SendBuffer) :
  forall c : Z,
    0 <= c ->
    let pending := filter (fun b => due s now b = true) todo in
    let budget := Z.to_nat (11 - c) in
    retransmit_loop s now todo c
    = (restamp_due s now budget todo,
       c + Z.of_nat (length (take budget pending)),
       map (retransmission s now) (take budget pending),
       negb (length pending <=? budget)%nat).
Proof.
  induction todo as [|b rest IH]; intros c Hc pending budget; subst pending budget.
  - cbn [retransmit_loop restamp_due]. rewrite filter_nil, take_nil. cbn [length map].
    rewrite Z.add_0_r. destruct (Z.to_nat (11 - c)); reflexivity.
  - cbn [retransmit_loop restamp_due]. rewrite filter_cons.
    destruct (decide (due s now b = true)) as [Hdue|Hdue].
    + rewrite Hdue. destruct (Z.ltb_spec 10 c) as [Hlt|Hle].
      * replace (Z.to_nat (11 - c)) with 0%nat by lia.
        rewrite take_0. cbn [length map Nat.leb negb]. rewrite Z.add_0_r. reflexivity.
      * assert (Hu : u32 (c + 1) = c + 1)
          by (unfold u32, wrap; apply Z.mod_small; lia).
        replace (Z.to_nat (11 - c)) with (S (Z.to_nat (11 - (c + 1)))) by lia.
        rewrite Hu, IH by lia. cbn [take length map Nat.leb].
        rewrite Nat2Z.inj_succ. f_equal. f_equal. f_equal. lia.
    + apply not_true_is_false in Hdue. rewrite Hdue.
      rewrite IH by lia. reflexivity.
Qed.

(** A budget that covers the due buffers restamps them all. *)
Lemma restamp_due_all (s : TCPSocket) (now : Z) (bs : list SendBuffer) :
  forall budget : nat,
    (length (filter (fun b => due s now b = true) bs) <= budget)%nat ->
    restamp_due s now budget bs
    = map (fun b => if due s now b then restamp now b else b) bs.
Proof.
  induction bs as [|b rest IH]; intros budget H; cbn [restamp_due map]; [reflexivity|].
  rewrite filter_cons in H.
  destruct (decide (due s now b = true)) as [Hdue|Hdue].
  - rewrite Hdue. cbn [length] in H. destruct budget as [|budget]; [lia|].
    rewrite IH by lia. reflexivity.
  - apply not_true_is_false in Hdue. rewrite Hdue, IH by exact H. reflexivity.
Qed.

(** C9 as stated, refuted: the abort does not wait for ten
    retransmissions of one buffer.  With eleven segments in flight, one
    poll re-sends each of them once, which brings the counter of the
    socket to eleven; at the next poll the socket is aborted (state
    Closed, RST sent), and no buffer was re-sent more than once. *)
Lemma C9_abort_without_ten_retransmissions_of_a_buffer :
  let '(s1, out1, removed1) := poll 2000000 eleven_in_flight in
  let '(s2, out2, removed2) := poll 4000000 s1 in
  map sequence_number out1 = seqZ 1 11 /\
  state_ s1 = Established /\ removed1 = false /\
  retransmit_count_ s1 = 11 /\
  map sb_timestamp (send_buffers_ s1) = replicate 11 2000000 /\
  map rst out2 = [true] /\
  state_ s2 = Closed /\ removed2 = true.
Proof. vm_compute. repeat split; reflexivity. Qed.

(** C9, amended: retransmissions are counted per socket, not per
    buffer.  On a poll of an Established socket the send buffers are
    visited in order; the buffers due are those not acknowledged and
    older than [retransmit_timeout_], so an acknowledged buffer is
    never re-sent.  Each due buffer is re-sent and gets the time of the
    poll as its timestamp, and one counter of the socket counts these
    retransmissions, whatever buffers they are for.  The socket is
    aborted when a buffer is due and that counter is above ten: a poll
    re-sends due buffers until the socket has counted eleven
    retransmissions; if a buffer is still due then, it and the buffers
    after it are left as they are, the socket is Closed, an RST is sent
    and the layer is asked to remove the socket. *)
Theorem C9_retransmission_counts_per_socket (now : Z) (s : TCPSocket) :
  state_ s = Established -> 0 <= retransmit_count_ s ->
  let pending := filter (fun b => due s now b = true) (send_buffers_ s) in
  let budget := Z.to_nat (11 - retransmit_count_ s) in
  let resent := take budget pending in
  let '(s', out, removed) := retransmit_pending_data now s in
  poll now s = (reorder_buffers (cleanup_acknowledged_data s'), out, removed) /\
  Forall (fun b => b ∈ send_buffers_ s /\ acknowledged b = false /\
                   retransmit_timeout_ s < u64 (now - sb_timestamp b)) pending /\
  retransmit_count_ s' = retransmit_count_ s + Z.of_nat (length resent) /\
  if (length pending <=? budget)%nat
  then out = map (retransmission s now) pending /\
       send_buffers_ s'
         = map (fun b => if due s now b then restamp now b else b) (send_buffers_ s) /\
       state_ s' = Established /\ removed = false
  else out = map (retransmission s now) resent
             ++ [send_segment s (build (send_sequence_ s) (receive_next_expected_ s) 0
                                       false false false true [] now)] /\
       send_buffers_ s' = restamp_due s now budget (send_buffers_ s) /\
       length resent = budget /\
       10 < retransmit_count_ s' /\
       state_ s' = Closed /\ removed = true.
Proof.
  intros Hs Hc pending budget resent.
  assert (Hpoll : poll now s
            = let '(s', out, removed) := retransmit_pending_data now s in
              (reorder_buffers (cleanup_acknowledged_data s'), out, removed)).
  { unfold poll. rewrite Hs. reflexivity. }
  rewrite Hpoll. clear Hpoll.
  assert (Hdue : Forall (fun b => b ∈ send_buffers_ s /\ acknowledged b = false /\
                                  retransmit_timeout_ s < u64 (now - sb_timestamp b))
                        pending).
  { apply Forall_forall. intros b Hb. apply list_elem_of_filter in Hb as [Hd Hin].
    split; [exact Hin|]. unfold due in Hd. apply andb_prop in Hd as [Hack Hold].
    apply negb_true_iff in Hack. apply Z.ltb_lt in Hold. auto. }
  unfold retransmit_pending_data.
  rewrite (retransmit_loop_budget s now (send_buffers_ s) (retransmit_count_ s) Hc).
  fold pending. fold budget. fold resent.
  destruct (Nat.leb_spec (length pending) budget) as [Hle|Hgt]; cbn [negb].
  - cbn [state_ set_send_buffers send_buffers_ retransmit_count_].
    assert (Hall : resent = pending) by (apply take_ge; exact Hle).
    rewrite Hall. split; [reflexivity|]. split; [exact Hdue|]. split; [reflexivity|].
    split; [reflexivity|]. split; [|auto].
    apply restamp_due_all. exact Hle.
  - unfold abort. cbn [state_ set_send_buffers]. rewrite Hs. cbn [TCPState_eqb].
    cbn [state_ set_state retransmit_count_ send_buffers_ send_sequence_
         receive_next_expected_].
    assert (Hlen : length resent = budget)
      by (unfold resent; rewrite length_take; lia).
    split; [reflexivity|]. split; [exact Hdue|]. split; [reflexivity|].
    split; [reflexivity|]. split; [reflexivity|]. split; [exact Hlen|].
    split; [|auto]. cbn [retransmit_count_ set_send_buffers].
    rewrite Hlen. unfold budget. lia.
Qed.

(** Twelve segments in flight: the poll re-sends eleven of them, which
    takes the counter of the socket to eleven, and aborts at the
    twelfth. *)
Lemma C9_retransmission_witness :
  let pending := filter (fun b => due twelve_in_flight 2000000 b = true)
                        (send_buffers_ twelve_in_flight) in
  let budget := Z.to_nat (11 - retransmit_count_ twelve_in_flight) in
  let resent := take budget pending in
  let '(s', out, removed) := retransmit_pending_data 2000000 twelve_in_flight in
  poll 2000000 twelve_in_flight
    = (reorder_buffers (cleanup_acknowledged_data s'), out, removed) /\
  Forall (fun b => b ∈ send_buffers_ twelve_in_flight /\ acknowledged b = false /\
                   retransmit_timeout_ twelve_in_flight
                   < u64 (2000000 - sb_timestamp b)) pending /\
  retransmit_count_ s'
    = retransmit_count_ twelve_in_flight + Z.of_nat (length resent) /\
  if (length pending <=? budget)%nat
  then out = map (retransmission twelve_in_flight 2000000) pending /\
       send_buffers_ s'
         = map (fun b => if due twelve_in_flight 2000000 b
                         then restamp 2000000 b else b)
               (send_buffers_ twelve_in_flight) /\
       state_ s' = Established /\ removed = false
  else out = map (retransmission twelve_in_flight 2000000) resent
             ++ [send_segment twelve_in_flight
                   (build (send_sequence_ twelve_in_flight)
                          (receive_next_expected_ twelve_in_flight) 0
                          false false false true [] 2000000)] /\
       send_buffers_ s'
         = restamp_due twelve_in_flight 2000000 budget (send_buffers_ twelve_in_flight) /\
       length resent = budget /\
       10 < retransmit_count_ s' /\
       state_ s' = Closed /\ removed = true.
Proof.
  apply (C9_retransmission_counts_per_socket 2000000 twelve_in_flight).
  - reflexivity.
  - vm_compute. congruence.
Defined.

(** No incoming segment moves a socket to Established: after
    [receive_segment] the socket is Established only if it was before. *)
Lemma receive_segment_never_establishes (now : Z) (s : TCPSocket) (seg : TCPSegment) :
  state_ (snd (fst (receive_segment now s seg))) = Established ->
  state_ s = Established.
Proof.
  unfold receive_segment.
  destruct (validate_sequence _ _ _); cbn [negb]; [|auto].
  destruct (syn seg).
  { unfold process_syn. destruct (TCPState_eqb (state_ s) Listen); cbn; [discriminate|auto]. }
  destruct (ack seg).
  { unfold process_ack, acknowledge_data, update_window.
    destruct (_ <? _); destruct (negb _); cbn; auto. }
  destruct (fin seg).
  { unfold process_fin. destruct (TCPState_eqb (state_ s) Established); cbn;
      [discriminate|auto]. }
  destruct (rst seg).
  { cbn. discriminate. }
  destruct (0 <? _).
  { unfold process_data, reorder_buffers. cbn.
    destruct (drain _ _ _) as [[bs q] n]. cbn. auto. }
  cbn. auto.
Qed.

(** One packet handed to the layer leaves every connection that is
    Established after it Established before it: the new connection of a
    SYN starts in SynReceived, and an existing one only goes through
    [receive_segment]. *)
Lemma process_tcp_packet_never_establishes (now : Z) (l : TCPLayer) (packet : IPPacket) :
  (forall k s, connections_ l !! k = Some s -> state_ s <> Established) ->
  forall k s, connections_ (process_tcp_packet now l packet) !! k = Some s ->
              state_ s <> Established.
Proof.
  intros Hl k s. unfold process_tcp_packet.
  destruct (_ <? 20); [apply Hl|].
  match goal with |- context [connections_ l !! ?key] => set (key0 := key) end.
  destruct (connections_ l !! key0) as [socket|] eqn:Ek.
  - match goal with |- context [receive_segment now socket ?seg] =>
      pose proof (receive_segment_never_establishes now socket seg) as Hs;
      destruct (receive_segment now socket seg) as [[r s'] out]
    end.
    cbn [connections_ fst snd] in *.
    destruct (decide (key0 = k)) as [->|Hne].
    + rewrite lookup_insert_eq. intros [= <-] He. apply (Hl _ _ Ek). auto.
    + rewrite lookup_insert_ne by exact Hne. apply Hl.
  - destruct (listening_sockets_ l !! _); [|apply Hl].
    unfold handle_new_connection.
    destruct (negb _); [apply Hl|].
    match goal with |- context [receive_segment now ?sock ?seg] =>
      pose proof (receive_segment_never_establishes now sock seg) as Hs;
      destruct (receive_segment now sock seg) as [[r s'] out]
    end.
    cbn [connections_ fst snd] in *.
    match goal with |- context [<[?key := _]> _] =>
      destruct (decide (key = k)) as [->|Hne]
    end.
    + rewrite lookup_insert_eq. intros [= <-] He. specialize (Hs He). discriminate Hs.
    + rewrite lookup_insert_ne by exact Hne. apply Hl.
Qed.

(** No sequence of incoming packets ever establishes a connection: a
    layer without an Established connection has none after any packets
    at any times, so a passive open never completes. *)
Theorem no_packets_establish_a_connection (l : TCPLayer)
  (packets : list (Z * IPPacket)) :
  (forall k s, connections_ l !! k = Some s -> state_ s <> Established) ->
  forall k s,
    connections_ (foldl (fun l np => process_tcp_packet (fst np) l (snd np)) l packets)
      !! k = Some s ->
    state_ s <> Established.
Proof.
  revert l. induction packets as [|np packets IH]; intros l Hl; [exact Hl|].
  cbn [foldl]. apply IH. apply process_tcp_packet_never_establishes. exact Hl.
Qed.

Lemma no_packets_witness :
  let packets := [(1, from_client 2 100 0 []); (2, from_client 16 101 1 []);
                  (3, from_client 24 101 1 [71; 69; 84; 32])] in
  let l := foldl (fun l np => process_tcp_packet (fst np) l (snd np)) listening packets in
  connections_ l !! connection = Some (socket_of after_data) /\
  state_ (socket_of after_data) <> Established.
Proof.
  cbv zeta. split; [vm_compute; reflexivity|].
  apply (no_packets_establish_a_connection listening
           [(1, from_client 2 100 0 []); (2, from_client 16 101 1 []);
            (3, from_client 24 101 1 [71; 69; 84; 32])])
    with (k := connection).
  - intros k s H. unfold listening, listen in H. cbn [connections_] in H.
    rewrite lookup_empty in H. discriminate H.
  - vm_compute. reflexivity.
Defined.

(** C1: SYN with sequence number 100 to a listening port 80, then the
    ACK, then "GET " at 101: SynReceived and a SYN-ACK acknowledging
    101, then Established, then the bytes buffered, acknowledged with
    105 and returned by [receive].  In the code the new socket is put
    in SynReceived before the SYN is handed to it, so [process_syn],
    which answers only in Listen, sends no SYN-ACK and leaves
    [receive_next_expected_] at 0; no segment ever sets Established;
    the data segment, which carries ACK, goes to [process_ack] and its
    bytes are dropped (sent without any flag it is acknowledged with
    105 but never drained); [receive] returns 0 bytes. *)
Theorem C1_passive_open_is_never_established :
  state_ (socket_of after_syn) = SynReceived /\
  wire after_syn = [] /\
  receive_next_expected_ (socket_of after_syn) = 0 /\
  state_ (socket_of after_ack) = SynReceived /\
  wire after_ack = [] /\
  state_ (socket_of after_data) = SynReceived /\
  receive_buffers_ (socket_of after_data) = [] /\
  receive_queue_ (socket_of after_data) = [] /\
  wire after_data = [] /\
  map acknowledgment_number (wire after_bare_data) = [105] /\
  receive_queue_ (socket_of after_bare_data) = [] /\
  (forall tsc others fuel,
      TCP.receive tsc others fuel (socket_of after_data) 4 0
        = Some (mkReceived 0 [] (socket_of after_data) []) /\
      TCP.receive tsc others fuel (socket_of after_bare_data) 4 0
        = Some (mkReceived 0 [] (socket_of after_bare_data) [])).
Proof. vm_compute. repeat split; reflexivity. Qed.

End TCPFacts.

(** ** IP fragment reassembly *)

Module IPFacts.
Import Ints IP.

(** C4: fragments of one datagram that tile [0, L) are reassembled,
    in any order of arrival, into the L bytes in offset order, handed
    to the protocol handler, and their buffer is deleted.  The code
    reads the flags and fragment offset without [swap_endian_16]: of
    the two fragments of a 12-byte datagram, the first (offset 0, MF
    set) is read as offset 256 with MF clear and the last (offset 8) as
    offset 2048.  In either order nothing is delivered and the buffer
    stays; with the field swapped like its neighbours, the 12 bytes are
    delivered in order and the buffer is deleted. *)
Theorem C4_wire_fragments_are_never_reassembled :
  u16 (fragment_offset (load_header first_fragment) * 8) = 256 /\
  more_fragments (load_header first_fragment) = false /\
  u16 (fragment_offset (load_header last_fragment) * 8) = 2048 /\
  (let l := receive_fragment 20 (receive_fragment 10 listening first_fragment)
                             last_fragment in
   delivered l = [] /\
   map fragments (buffers l)
     = [[(256, [1; 2; 3; 4; 5; 6; 7; 8]); (2048, [9; 10; 11; 12])]]) /\
  (let l := receive_fragment 20 (receive_fragment 10 listening last_fragment)
                             first_fragment in
   delivered l = [] /\
   map fragments (buffers l)
     = [[(256, [1; 2; 3; 4; 5; 6; 7; 8]); (2048, [9; 10; 11; 12])]]) /\
  (let l := receive_fragment_swapped 20
              (receive_fragment_swapped 10 listening last_fragment)
              first_fragment in
   map (fun d => pkt_data (snd d)) (delivered l)
     = [[1; 2; 3; 4; 5; 6; 7; 8; 9; 10; 11; 12]] /\
   buffers l = []).
Proof. vm_compute. repeat split; reflexivity. Qed.

End IPFacts.

(** ** AHCI *)

Module AHCIFacts.
Import Ints AHCI.

(** The bytes the entries of a table describe: [byte_count] holds the
    length of a chunk minus one. *)
Lemma fill_prdt_covers (fuel : nat) :
  forall (table : list HBAPRDTEntry) (i : nat) (needed remaining phys : Z),
    0 <= remaining ->
    needed = Z.of_nat i + (remaining + 262143) / 262144 ->
    (Z.to_nat needed <= i + fuel)%nat ->
    (Z.to_nat needed <= length table)%nat ->
    take i (fill_prdt fuel table i needed remaining phys) = take i table /\
    foldr Z.add 0
          (map (fun e => byte_count e + 1)
               (take (Z.to_nat needed - i)
                     (drop i (fill_prdt fuel table i needed remaining phys))))
    = remaining.
Proof.
  induction fuel as [|fuel IH]; intros table i needed remaining phys Hrem Hneeded Hfuel Hlen.
  - cbn [fill_prdt]. split; [reflexivity|].
    replace (Z.to_nat needed - i)%nat with 0%nat by lia.
    rewrite take_0. cbn [map foldr]. Z.div_mod_to_equations. lia.
  - cbn [fill_prdt].
    destruct (Z.ltb_spec 0 remaining) as [Hpos|Hzero].
    + assert (Hlt : Z.of_nat i < needed) by (Z.div_mod_to_equations; lia).
      replace (Z.of_nat i <? needed) with true by (symmetry; apply Z.ltb_lt; exact Hlt).
      cbn [andb].
      set (chunk := Z.min remaining 262144).
      set (e := mkPRDT _ _ _ _).
      destruct (IH (<[i := e]> table) (S i) needed (remaining - chunk)
                   (u64 (phys + chunk))) as [Htake Hsum].
      * unfold chunk. lia.
      * unfold chunk. Z.div_mod_to_equations. lia.
      * lia.
      * rewrite length_insert. exact Hlen.
      * set (t := fill_prdt fuel _ _ _ _ _) in *.
        assert (Hi : t !! i = Some e).
        { rewrite <- (lookup_take_lt t (S i) i) by lia. rewrite Htake.
          rewrite lookup_take_lt by lia. apply list_lookup_insert_eq. lia. }
        split.
        -- assert (Hpre : take i (take (S i) t) = take i (take (S i) (<[i := e]> table)))
             by (rewrite Htake; reflexivity).
           rewrite !take_take in Hpre.
           replace (i `min` S i)%nat with i in Hpre by lia.
           rewrite Hpre. apply take_insert_ge. lia.
        -- rewrite (drop_S _ _ _ Hi).
           replace (Z.to_nat needed - i)%nat with (S (Z.to_nat needed - S i)) by lia.
           cbn [take map foldr]. rewrite Hsum.
           subst e. cbn [byte_count]. unfold wrap, chunk.
           rewrite Z.mod_small by lia. lia.
    + rewrite andb_false_r. split; [reflexivity|].
      replace (Z.to_nat needed - i)%nat with 0%nat by (Z.div_mod_to_equations; lia).
      rewrite take_0. cbn [map foldr]. lia.
Qed.

(** A read inside the disk of at most 2 MiB whose byte count fits 32
    bits is issued, the call returns what the controller answers, and
    the PRDT entries the command uses describe exactly
    [count * sector_size] bytes. *)
Theorem read_sectors_prdt_covers_the_request (send_command : Command -> bool)
  (ports_ : list PortInfo) (info : PortInfo) (header table phys port_number lba count : Z) :
  ports_ !! Z.to_nat port_number = Some info ->
  initialized info = true ->
  0 <= lba -> 0 < count -> lba + count <= sector_count info -> sector_count info < 2 ^ 64 ->
  header <> 0 -> table <> 0 -> phys <> 0 ->
  0 < sector_size info -> count * sector_size info <= 8 * 262144 ->
  exists cmd,
    read_sectors send_command ports_ header table (Some phys) port_number lba count
      = (send_command cmd, Some cmd) /\
    prdt_length cmd = (count * sector_size info + 262143) / 262144 /\
    foldr Z.add 0 (map (fun e => byte_count e + 1) (used_entries cmd))
      = count * sector_size info.
Proof.
  intros Hport Hinit Hlba Hcount Hrange Hdisk Hheader Htable Hphys Hsize Hbytes.
  unfold read_sectors. rewrite Hport, Hinit. cbn [negb default]. unfold id.
  assert (Hu : u64 (lba + count) = lba + count)
    by (unfold u64, wrap; apply Z.mod_small; lia).
  rewrite Hu.
  replace (sector_count info <? lba + count) with false by (symmetry; apply Z.ltb_ge; lia).
  replace (count =? 0) with false by (symmetry; apply Z.eqb_neq; lia).
  replace (header =? 0) with false by (symmetry; apply Z.eqb_neq; exact Hheader).
  replace (table =? 0) with false by (symmetry; apply Z.eqb_neq; exact Htable).
  replace (phys =? 0) with false by (symmetry; apply Z.eqb_neq; exact Hphys).
  assert (Hpos : 0 < count * sector_size info) by nia.
  assert (Ht : u32 (count * sector_size info) = count * sector_size info)
    by (unfold u32, wrap; apply Z.mod_small; lia).
  rewrite Ht.
  replace (count * sector_size info + 262144 - 1)
    with (count * sector_size info + 262143) by lia.
  set (total := count * sector_size info) in *.
  set (needed := (total + 262143) / 262144).
  assert (Hn : 1 <= needed <= 8) by (unfold needed; Z.div_mod_to_equations; lia).
  replace (8 <? needed) with false by (symmetry; apply Z.ltb_ge; lia).
  eexists. split; [reflexivity|].
  unfold used_entries. cbn [prdt_length prdt_entries].
  assert (Hw : u16 needed = needed) by (unfold u16, wrap; apply Z.mod_small; lia).
  rewrite Hw. split; [reflexivity|].
  destruct (fill_prdt_covers 8 (replicate 8 zero_entry) 0 needed total phys)
    as [_ Hsum]; [lia | unfold needed; lia | lia | rewrite length_replicate; lia |].
  rewrite Nat.sub_0_r, drop_0 in Hsum. exact Hsum.
Qed.

Lemma read_sectors_prdt_witness :
  exists cmd,
    read_sectors (fun _ => true) disk 0x1000 0x2000 (Some 0x200000) 0 2048 1000
      = (true, Some cmd) /\
    prdt_length cmd = (1000 * 512 + 262143) / 262144 /\
    foldr Z.add 0 (map (fun e => byte_count e + 1) (used_entries cmd)) = 1000 * 512.
Proof.
  apply (read_sectors_prdt_covers_the_request (fun _ => true) disk
           (mkPort 16777216 512 true true) 0x1000 0x2000 0x200000 0 2048 1000);
    vm_compute; first [reflexivity | congruence].
Defined.

(** A read that leaves the disk is refused before anything is issued,
    as long as [lba + count] does not wrap. *)
Theorem read_sectors_refuses_beyond_the_disk (send_command : Command -> bool)
  (ports_ : list PortInfo) (info : PortInfo) (header table : Z) (phys : option Z)
  (port_number lba count : Z) :
  ports_ !! Z.to_nat port_number = Some info ->
  0 <= lba -> 0 <= count -> lba + count < 2 ^ 64 ->
  sector_count info < lba + count ->
  read_sectors send_command ports_ header table phys port_number lba count
    = (false, None).
Proof.
  intros Hport Hlba Hcount Hwrap Hrange.
  unfold read_sectors. rewrite Hport.
  destruct (negb (initialized info)); [reflexivity|].
  assert (Hu : u64 (lba + count) = lba + count)
    by (unfold u64, wrap; apply Z.mod_small; lia).
  rewrite Hu.
  replace (sector_count info <? lba + count) with true by (symmetry; apply Z.ltb_lt; lia).
  reflexivity.
Qed.

Lemma read_sectors_refuses_witness :
  read_sectors (fun _ => true) disk 0x1000 0x2000 (Some 0x200000) 0 16777215 2
    = (false, None).
Proof.
  apply (read_sectors_refuses_beyond_the_disk (fun _ => true) disk
           (mkPort 16777216 512 true true) 0x1000 0x2000 (Some 0x200000) 0 16777215 2);
    vm_compute; first [reflexivity | congruence].
Defined.

(** C8: a read fails when the range leaves the disk and when more than
    eight PRDT entries would be needed.  The byte count is the 32-bit
    product [count * sector_size]: for 8388608 sectors of 512 bytes,
    which need 16384 entries, it wraps to 0, no entry is needed or
    filled, and the command is issued with [prdt_length] 0, the call
    returning what the controller answers; the 64-bit sum [lba + count]
    wraps as well, so a read of 2 sectors at the last LBA passes the
    range check and is issued. *)
Theorem C8_read_sectors_wraps_instead_of_failing (send_command : Command -> bool) :
  let big := read_sectors send_command disk 0x1000 0x2000 (Some 0x200000)
                          0 0 8388608 in
  let last := read_sectors send_command disk 0x1000 0x2000 (Some 0x200000)
                           0 (2 ^ 64 - 1) 2 in
  8 < (8388608 * 512 + 262144 - 1) / 262144 /\
  prdt_length <$> snd big = Some 0 /\
  prdt_entries <$> snd big = Some (replicate 8 zero_entry) /\
  send_command <$> snd big = Some (fst big) /\
  sector_count (mkPort 16777216 512 true true) < (2 ^ 64 - 1) + 2 /\
  prdt_length <$> snd last = Some 1 /\
  send_command <$> snd last = Some (fst last).
Proof. vm_compute. repeat split; reflexivity. Qed.

End AHCIFacts.

(** ** Bytes, words and byte order *)

Module BytesFacts.
Import Ints IP.

Lemma lor_shiftl_add (hi lo n : Z) :
  0 <= n -> 0 <= lo < 2 ^ n -> Z.lor (Z.shiftl hi n) lo = hi * 2 ^ n + lo.
Proof.
  intros Hn Hlo.
  assert (Hdisjoint : Z.land (Z.shiftl hi n) lo = 0).
  { apply Z.bits_inj'. intros k Hk. rewrite Z.land_spec, Z.bits_0.
    destruct (Z.lt_ge_cases k n).
    - rewrite Z.shiftl_spec_low by lia. reflexivity.
    - rewrite <- (Z.mod_small lo (2 ^ n)) by lia.
      rewrite Z.mod_pow2_bits_high by lia. apply andb_false_r. }
  rewrite <- Z.lxor_lor by exact Hdisjoint.
  rewrite <- Z.add_nocarry_lxor by exact Hdisjoint.
  rewrite Z.shiftl_mul_pow2 by lia. reflexivity.
Qed.

Lemma land_255 (x : Z) : Z.land x 255 = x mod 256.
Proof. change 255 with (Z.ones 8). rewrite Z.land_ones by lia. reflexivity. Qed.

Lemma swap_endian_16_value (x : Z) :
  swap_endian_16 x = (x mod 256) * 256 + (x / 256) mod 256.
Proof.
  unfold swap_endian_16. rewrite !land_255, Z.shiftr_div_pow2 by lia.
  rewrite lor_shiftl_add; [reflexivity | lia |].
  change (2 ^ 8) with 256. apply Z.mod_pos_bound. lia.
Qed.

Lemma swap_endian_16_range (x : Z) : 0 <= swap_endian_16 x < 65536.
Proof. rewrite swap_endian_16_value. Z.div_mod_to_equations. lia. Qed.

Lemma swap_endian_16_involutive (x : Z) :
  0 <= x < 65536 -> swap_endian_16 (swap_endian_16 x) = x.
Proof. intros H. rewrite !swap_endian_16_value. Z.div_mod_to_equations. lia. Qed.

Lemma swap_endian_32_value (x : Z) :
  swap_endian_32 x
  = (x mod 256) * 16777216 + ((x / 256) mod 256) * 65536
    + ((x / 65536) mod 256) * 256 + (x / 16777216) mod 256.
Proof.
  unfold swap_endian_32. rewrite !land_255, !Z.shiftr_div_pow2 by lia.
  change (2 ^ 8) with 256. change (2 ^ 16) with 65536. change (2 ^ 24) with 16777216.
  assert (B : forall y, 0 <= y mod 256 < 256) by (intros; apply Z.mod_pos_bound; lia).
  pose proof (B x). pose proof (B (x / 256)). pose proof (B (x / 65536)).
  pose proof (B (x / 16777216)).
  rewrite (lor_shiftl_add ((x / 65536) mod 256) _ 8) by (change (2 ^ 8) with 256; lia).
  rewrite (lor_shiftl_add (x mod 256) (Z.shiftl _ 16) 24).
  2: lia.
  2: { rewrite Z.shiftl_mul_pow2 by lia. change (2 ^ 16) with 65536.
       change (2 ^ 24) with 16777216. lia. }
  rewrite Z.shiftl_mul_pow2 by lia.
  change (2 ^ 8) with 256. change (2 ^ 16) with 65536. change (2 ^ 24) with 16777216.
  set (a := x mod 256 * 16777216 + x / 256 mod 256 * 65536).
  set (b := x / 65536 mod 256 * 256 + x / 16777216 mod 256).
  assert (Hb : 0 <= b < 2 ^ 16) by (unfold b; change (2 ^ 16) with 65536; lia).
  replace a with ((x mod 256 * 256 + x / 256 mod 256) * 2 ^ 16)
    by (unfold a; change (2 ^ 16) with 65536; lia).
  rewrite <- (Z.shiftl_mul_pow2 _ 16) by lia.
  rewrite (lor_shiftl_add _ b 16) by (try lia; exact Hb).
  rewrite Z.shiftl_mul_pow2 by lia. unfold b. lia.
Qed.

Lemma swap_endian_32_bytes (b0 b1 b2 b3 : Z) :
  0 <= b0 < 256 -> 0 <= b1 < 256 -> 0 <= b2 < 256 -> 0 <= b3 < 256 ->
  swap_endian_32 (b0 + 256 * b1 + 65536 * b2 + 16777216 * b3)
  = b3 + 256 * b2 + 65536 * b1 + 16777216 * b0.
Proof.
  intros H0 H1 H2 H3. rewrite swap_endian_32_value.
  set (x := b0 + 256 * b1 + 65536 * b2 + 16777216 * b3).
  assert (E0 : x mod 256 = b0) by (unfold x; Z.div_mod_to_equations; lia).
  assert (E1 : (x / 256) mod 256 = b1) by (unfold x; Z.div_mod_to_equations; lia).
  assert (E2 : (x / 65536) mod 256 = b2) by (unfold x; Z.div_mod_to_equations; lia).
  assert (E3 : (x / 16777216) mod 256 = b3) by (unfold x; Z.div_mod_to_equations; lia).
  rewrite E0, E1, E2, E3. lia.
Qed.

Lemma four_bytes (x : Z) :
  0 <= x < 4294967296 ->
  exists b0 b1 b2 b3,
    x = b0 + 256 * b1 + 65536 * b2 + 16777216 * b3 /\
    0 <= b0 < 256 /\ 0 <= b1 < 256 /\ 0 <= b2 < 256 /\ 0 <= b3 < 256.
Proof.
  intros H.
  exists (x mod 256), ((x / 256) mod 256), ((x / 65536) mod 256), (x / 16777216).
  pose proof (Z.div_mod x 256 ltac:(lia)) as D0.
  pose proof (Z.div_mod (x / 256) 256 ltac:(lia)) as D1.
  pose proof (Z.div_mod (x / 65536) 256 ltac:(lia)) as D2.
  replace (x / 256 / 256) with (x / 65536) in D1 by (rewrite Z.div_div by lia; reflexivity).
  replace (x / 65536 / 256) with (x / 16777216) in D2
    by (rewrite Z.div_div by lia; reflexivity).
  pose proof (Z.mod_pos_bound x 256 ltac:(lia)).
  pose proof (Z.mod_pos_bound (x / 256) 256 ltac:(lia)).
  pose proof (Z.mod_pos_bound (x / 65536) 256 ltac:(lia)).
  assert (0 <= x / 16777216 < 256)
    by (split; [apply Z.div_pos; lia | apply Z.div_lt_upper_bound; lia]).
  repeat split; lia.
Qed.

Lemma swap_endian_32_involutive (x : Z) :
  0 <= x < 4294967296 -> swap_endian_32 (swap_endian_32 x) = x.
Proof.
  intros H. destruct (four_bytes x H) as (b0 & b1 & b2 & b3 & -> & H0 & H1 & H2 & H3).
  rewrite swap_endian_32_bytes by assumption.
  rewrite swap_endian_32_bytes by assumption. lia.
Qed.

Lemma load16_store16 (v : Z) (rest : list Z) :
  0 <= v < 65536 -> load16 (store16 v ++ rest) 0 = v.
Proof.
  intros H. unfold load16, byte_at, store16. cbn [app lookup list_lookup default Nat.add].
  unfold id. Z.div_mod_to_equations. lia.
Qed.

End BytesFacts.

(** ** IP layer: checksum, sending and accepting datagrams *)

Module IPLayerFacts.
Import Ints IP BytesFacts.

Lemma pair_ind (P : list Z -> Prop) :
  P [] -> (forall a, P [a]) -> (forall a b rest, P rest -> P (a :: b :: rest)) ->
  forall l, P l.
Proof.
  intros H0 H1 H2 l.
  enough (P l /\ forall a, P (a :: l)) by tauto.
  induction l as [|b rest [IH1 IH2]]; split; auto.
Qed.

Lemma u32_range (x : Z) : 0 <= u32 x < 4294967296.
Proof. unfold u32, wrap. apply Z.mod_pos_bound. lia. Qed.

Lemma u32_small (x : Z) : 0 <= x < 4294967296 -> u32 x = x.
Proof. intros H. unfold u32, wrap. apply Z.mod_small. exact H. Qed.

Lemma u32_add_l (x y : Z) : u32 (u32 x + y) = u32 (x + y).
Proof. unfold u32, wrap. apply Zplus_mod_idemp_l. Qed.

Lemma sum_words_plain (data : list Z) :
  forall acc, 0 <= acc < 4294967296 ->
              sum_words acc data = u32 (acc + word_sum data).
Proof.
  induction data as [|a|a b rest IH] using pair_ind; intros acc Hacc.
  - cbn. rewrite Z.add_0_r, u32_small by exact Hacc. reflexivity.
  - reflexivity.
  - cbn [sum_words word_sum]. rewrite IH by apply u32_range.
    rewrite u32_add_l. f_equal. lia.
Qed.

Lemma word_sum_bound (data : list Z) :
  Forall is_byte data -> 0 <= word_sum data <= 65535 * Z.of_nat (length data).
Proof.
  unfold is_byte.
  induction data as [|a|a b rest IH] using pair_ind; intros H.
  - cbn. lia.
  - apply Forall_cons in H as [Ha _]. cbn. lia.
  - apply Forall_cons in H as [Ha H]. apply Forall_cons in H as [Hb H].
    specialize (IH H). cbn [word_sum length]. lia.
Qed.

Lemma word_sum_app (m : nat) :
  forall pre post, length pre = (2 * m)%nat ->
                   word_sum (pre ++ post) = word_sum pre + word_sum post.
Proof.
  induction m as [|m IH]; intros pre post H.
  - destruct pre; [reflexivity | discriminate H].
  - destruct pre as [|a [|b pre]]; cbn [length] in H; try lia.
    cbn [app word_sum]. rewrite IH by lia. lia.
Qed.

Lemma land_65535 (x : Z) : Z.land x 65535 = x mod 65536.
Proof. change 65535 with (Z.ones 16). rewrite Z.land_ones by lia. reflexivity. Qed.

(** The carry-folding loop is left after at most two rounds, with the
    one's-complement sum of the two halves. *)
Lemma fold_carries_spec (s : Z) :
  0 <= s < 4294967296 ->
  exists f, fold_carries 3 s = Some f /\ 0 <= f <= 65535 /\
            (s - f) mod 65535 = 0 /\ (0 < s <-> 0 < f).
Proof.
  intros Hs. cbn [fold_carries].
  rewrite !Z.shiftr_div_pow2, !land_65535 by lia. change (2 ^ 16) with 65536.
  destruct (Z.eqb_spec (s / 65536) 0) as [E0|E0].
  - exists s. split; [reflexivity|]. split; [Z.div_mod_to_equations; lia|].
    rewrite Z.sub_diag. split; [reflexivity | lia].
  - set (s1 := u32 (s mod 65536 + s / 65536)).
    assert (H1 : s1 = s mod 65536 + s / 65536)
      by (apply u32_small; Z.div_mod_to_equations; lia).
    assert (R1 : 0 < s1 <= 131070) by (rewrite H1; Z.div_mod_to_equations; lia).
    assert (M1 : s - s1 = 65535 * (s / 65536))
      by (rewrite H1; Z.div_mod_to_equations; lia).
    destruct (Z.eqb_spec (s1 / 65536) 0) as [E1|E1].
    + exists s1. split; [reflexivity|]. split; [Z.div_mod_to_equations; lia|].
      split; [rewrite M1, Z.mul_comm; apply Z.mod_mul; lia|].
      split; intros; Z.div_mod_to_equations; lia.
    + set (s2 := u32 (s1 mod 65536 + s1 / 65536)).
      assert (H2 : s2 = s1 mod 65536 + s1 / 65536)
        by (apply u32_small; Z.div_mod_to_equations; lia).
      assert (R2 : 0 < s2 <= 65535) by (rewrite H2; Z.div_mod_to_equations; lia).
      assert (M2 : s1 - s2 = 65535 * (s1 / 65536))
        by (rewrite H2; Z.div_mod_to_equations; lia).
      replace (s2 / 65536 =? 0) with true
        by (symmetry; apply Z.eqb_eq; apply Z.div_small; lia).
      exists s2. split; [reflexivity|]. split; [lia|].
      split; [|split; intros; Z.div_mod_to_equations; lia].
      replace (s - s2) with ((s / 65536 + s1 / 65536) * 65535) by lia.
      apply Z.mod_mul. lia.
Qed.

Lemma complement16_value (f : Z) : 0 <= f <= 65535 -> complement16 f = 65535 - f.
Proof.
  intros H. unfold complement16, u16, wrap, Z.lnot.
  replace (Z.pred (- f)) with (65535 - f + (-1) * 2 ^ 16) by lia.
  rewrite Z.mod_add by lia. apply Z.mod_small. lia.
Qed.

(** The checksum of any data is produced within three rounds of the
    folding loop and fits 16 bits. *)
Lemma calculate_checksum_returns (data : list Z) :
  exists c, calculate_checksum 3 data = Some c /\ 0 <= c < 65536.
Proof.
  unfold calculate_checksum.
  destruct (fold_carries_spec (sum_words 0 data)) as (f & -> & Hf & _).
  - rewrite sum_words_plain by lia. apply u32_range.
  - eexists. split; [reflexivity|]. rewrite complement16_value by lia. lia.
Qed.

(** Data that carries its own checksum sums to zero: when the 16-bit
    field at an even offset is zero while the checksum is computed and
    the result is then stored in it, [calculate_checksum] of the whole
    returns 0.  Holds for up to 65536 bytes. *)
Theorem checksum_of_checksummed_data_is_zero (before after : list Z) (m : nat) :
  length before = (2 * m)%nat ->
  Forall is_byte before -> Forall is_byte after ->
  Z.of_nat (length before + 2 + length after) <= 65536 ->
  exists c,
    calculate_checksum 3 (before ++ store16 0 ++ after) = Some c /\
    0 <= c < 65536 /\
    calculate_checksum 3 (before ++ store16 c ++ after) = Some 0.
Proof.
  intros Heven Hb Ha Hlen.
  pose proof (word_sum_bound _ Hb) as Bb. pose proof (word_sum_bound _ Ha) as Ba.
  unfold calculate_checksum.
  rewrite !sum_words_plain, !Z.add_0_l by lia.
  rewrite !(word_sum_app m) by exact Heven.
  unfold store16. cbn [app word_sum].
  change (0 mod 256) with 0. change (0 / 256 mod 256) with 0.
  set (S := word_sum before + (0 + 256 * 0 + word_sum after)).
  assert (HS : 0 <= S <= 65535 * 65534) by (unfold S; lia).
  rewrite (u32_small S) by lia.
  destruct (fold_carries_spec S) as (f & -> & Hf & Hmod & Hpos); [lia|].
  cbn [fmap option_fmap option_map]. rewrite complement16_value by lia.
  exists (65535 - f). split; [reflexivity|]. split; [lia|].
  rewrite sum_words_plain, Z.add_0_l, (word_sum_app m) by (try lia; exact Heven).
  cbn [app word_sum].
  replace (word_sum before
           + ((65535 - f) mod 256 + 256 * ((65535 - f) / 256 mod 256) + word_sum after))
    with (S + (65535 - f)) by (unfold S; Z.div_mod_to_equations; lia).
  rewrite (u32_small (S + (65535 - f))) by lia.
  destruct (fold_carries_spec (S + (65535 - f))) as (f' & -> & Hf' & Hmod' & Hpos');
    [lia|].
  cbn [fmap option_fmap option_map]. rewrite complement16_value by lia.
  f_equal.
  assert (0 < f') by (apply Hpos'; destruct (Z.eq_dec S 0); lia).
  Z.div_mod_to_equations. lia.
Qed.

Lemma checksum_of_checksummed_data_witness :
  exists c,
    calculate_checksum 3 ([69; 0; 0; 28; 0; 1; 0; 0; 64; 17] ++ store16 0
                          ++ [192; 168; 1; 10; 192; 168; 1; 20]) = Some c /\
    0 <= c < 65536 /\
    calculate_checksum 3 ([69; 0; 0; 28; 0; 1; 0; 0; 64; 17] ++ store16 c
                          ++ [192; 168; 1; 10; 192; 168; 1; 20]) = Some 0.
Proof.
  apply (checksum_of_checksummed_data_is_zero
           [69; 0; 0; 28; 0; 1; 0; 0; 64; 17] [192; 168; 1; 10; 192; 168; 1; 20] 5).
  - reflexivity.
  - repeat constructor; unfold is_byte; lia.
  - repeat constructor; unfold is_byte; lia.
  - cbn. lia.
Defined.

(** *** What is sent is accepted *)

Lemma load_built_header (source destination proto ident size checksum : Z)
  (data : list Z) :
  0 <= source < 4294967296 -> 0 <= destination < 4294967296 ->
  0 <= proto < 256 -> 0 <= checksum < 65536 ->
  load_header (build_header source destination proto ident size checksum ++ data)
  = mkHeader 69 0 (swap_endian_16 (u16 (20 + size))) (swap_endian_16 ident) 0 64
             proto checksum source destination.
Proof.
  intros Hs Hd Hp Hc.
  pose proof (swap_endian_16_range (u16 (20 + size))).
  pose proof (swap_endian_16_range ident).
  unfold load_header, build_header, store32, store16, load32, load16, byte_at.
  cbn [app lookup list_lookup default Nat.add]. unfold id, u8, wrap.
  f_equal; try reflexivity; Z.div_mod_to_equations; lia.
Qed.

Lemma built_packet_validates (source destination proto ident checksum : Z)
  (data : list Z) :
  0 <= source < 4294967296 -> 0 <= destination < 4294967296 ->
  0 <= proto < 256 ->
  20 + Z.of_nat (length data) <= 65535 ->
  calculate_checksum 3 (build_header source destination proto ident
                                     (Z.of_nat (length data)) 0) = Some checksum ->
  validate_packet 3 (build_header source destination proto ident
                                  (Z.of_nat (length data)) checksum ++ data)
  = Some true.
Proof.
  intros Hs Hd Hp Hlen Hsum.
  assert (Hc : 0 <= checksum < 65536).
  { destruct (calculate_checksum_returns
                (build_header source destination proto ident (Z.of_nat (length data)) 0))
      as (c & Ec & Hc). congruence. }
  unfold validate_packet. rewrite load_built_header by assumption.
  rewrite length_app.
  change (length (build_header source destination proto ident
                               (Z.of_nat (length data)) checksum)) with 20%nat.
  replace (Z.of_nat (20 + length data) <? 20) with false by (symmetry; apply Z.ltb_ge; lia).
  unfold version, header_length, ihl.
  cbn [version_ihl header_checksum total_length].
  change (Z.shiftr 69 4) with 4. change (Z.land 69 15) with 5.
  change (u16 (5 * 4)) with 20. change (negb (4 =? 4)) with false.
  change (5 <? 5) with false. cbv iota.
  replace (Z.of_nat (20 + length data) <? 20) with false by (symmetry; apply Z.ltb_ge; lia).
  change (Z.to_nat 20) with 20%nat.
  replace (take 20 (<[10%nat := 0]> (<[11%nat := 0]>
             (build_header source destination proto ident
                           (Z.of_nat (length data)) checksum ++ data))))
    with (build_header source destination proto ident (Z.of_nat (length data)) 0)
    by reflexivity.
  rewrite Hsum, Z.eqb_refl. cbn [negb].
  rewrite swap_endian_16_involutive by (unfold u16, wrap; apply Z.mod_pos_bound; lia).
  unfold u16, wrap. rewrite Z.mod_small by lia.
  replace (Z.of_nat (20 + length data) <? 20 + Z.of_nat (length data)) with false
    by (symmetry; apply Z.ltb_ge; lia).
  replace (20 + Z.of_nat (length data) <? 20) with false
    by (symmetry; apply Z.ltb_ge; lia).
  reflexivity.
Qed.

(** A datagram as [send_packet_to_interface] lays it out passes
    [process_packet] and reaches the handlers of its protocol. *)
Lemma process_built_packet (now : Z) (l : IPLayer)
  (source destination proto ident checksum : Z) (data : list Z) :
  0 <= source < 4294967296 -> 0 <= destination < 4294967296 ->
  0 <= proto < 256 -> 0 <= ident < 65536 ->
  20 + Z.of_nat (length data) <= 65535 ->
  calculate_checksum 3 (build_header source destination proto ident
                                     (Z.of_nat (length data)) 0) = Some checksum ->
  process_packet 3 now l
    (build_header source destination proto ident (Z.of_nat (length data)) checksum
     ++ data)
  = Some (mkLayer (fragment_buffers_ l) (protocol_handlers_ l)
            (delivered l
             ++ dispatch (protocol_handlers_ l)
                  (mkPacket source destination proto ident data false 0 false))).
Proof.
  intros Hsrc Hdst Hproto Hid Hlen Ec.
  assert (Hc : 0 <= checksum < 65536).
  { destruct (calculate_checksum_returns
                (build_header source destination proto ident (Z.of_nat (length data)) 0))
      as (c & Ec' & Hc). congruence. }
  unfold process_packet.
  rewrite built_packet_validates by assumption.
  rewrite load_built_header by assumption.
  unfold fragment_offset, more_fragments, header_length, ihl.
  cbn [total_length flags_fragment_offset version_ihl source_address
       destination_address protocol identification].
  rewrite !swap_endian_16_involutive
    by (try lia; unfold u16, wrap; apply Z.mod_pos_bound; lia).
  assert (Hu : u16 (20 + Z.of_nat (length data)) = 20 + Z.of_nat (length data))
    by (unfold u16, wrap; apply Z.mod_small; lia).
  rewrite !Hu. rewrite length_app.
  change (length (build_header source destination proto ident
                               (Z.of_nat (length data)) checksum)) with 20%nat.
  replace (Z.of_nat (20 + length data) <? 20 + Z.of_nat (length data)) with false
    by (symmetry; apply Z.ltb_ge; lia).
  change (Z.land 0 8191) with 0. change (Z.land 0 8192) with 0.
  change (Z.land 69 15) with 5. change (u16 (5 * 4)) with 20.
  cbn [Z.ltb Z.compare Z.eqb negb orb].
  replace (20 + Z.of_nat (length data) - 20) with (Z.of_nat (length data)) by lia.
  rewrite Nat2Z.id. change (Z.to_nat 20) with 20%nat.
  rewrite drop_app_length' by reflexivity.
  rewrite firstn_all. reflexivity.
Qed.

(** What [send_packet] does on a route whose interface exists. *)
Lemma send_packet_frame (s : Sender) (destination proto : Z) (data : list Z)
  (route : RouteEntry) (iface : Interface) :
  find_route s destination = Some route ->
  interfaces_ s !! Z.to_nat (interface_index route) = Some iface ->
  let next_hop := if gateway route =? 0 then destination else gateway route in
  exists checksum,
    calculate_checksum 3 (build_header (if_address iface) next_hop proto
                                       (identification_counter_ s)
                                       (Z.of_nat (length data)) 0) = Some checksum /\
    send_packet 3 s destination proto data
    = Some (true,
            mkSender (routing_table_ s) (interfaces_ s)
                     (u16 (identification_counter_ s + 1))
                     (handed_to_device s
                      ++ [mkDeviceSend (Z.to_nat (interface_index route))
                            (if next_hop =? 4294967295
                             then replicate 6 255 else replicate 6 0)
                            2048
                            (build_header (if_address iface) next_hop proto
                                          (identification_counter_ s)
                                          (Z.of_nat (length data)) checksum
                             ++ data)])).
Proof.
  intros Hroute Hif next_hop.
  unfold send_packet. rewrite Hroute. fold next_hop.
  unfold send_packet_to_interface. rewrite Hif.
  destruct (calculate_checksum_returns
              (build_header (if_address iface) next_hop proto (identification_counter_ s)
                            (Z.of_nat (length data)) 0)) as (c & Ec & Hc).
  exists c. rewrite Ec. split; reflexivity.
Qed.

(** What [send_packet] hands to the device of the routed interface is a
    datagram [process_packet] accepts: it passes [validate_packet] and
    is dispatched to the handlers of its protocol with the payload, the
    interface address as source and the identification counter as sent.
    The destination it carries is the next hop: the gateway of the
    route when it has one, the destination otherwise. *)
Theorem sent_datagram_is_delivered (now : Z) (s : Sender) (l : IPLayer)
  (destination proto : Z) (data : list Z) (route : RouteEntry) (iface : Interface) :
  find_route s destination = Some route ->
  interfaces_ s !! Z.to_nat (interface_index route) = Some iface ->
  0 <= if_address iface < 4294967296 ->
  0 <= destination < 4294967296 -> 0 <= gateway route < 4294967296 ->
  0 <= proto < 256 ->
  0 <= identification_counter_ s < 65536 ->
  20 + Z.of_nat (length data) <= 65535 ->
  exists s' frame,
    send_packet 3 s destination proto data = Some (true, s') /\
    handed_to_device s' = handed_to_device s ++ [frame] /\
    via frame = Z.to_nat (interface_index route) /\
    identification_counter_ s' = u16 (identification_counter_ s + 1) /\
    process_packet 3 now l (frame_data frame)
    = Some (mkLayer (fragment_buffers_ l) (protocol_handlers_ l)
              (delivered l
               ++ dispatch (protocol_handlers_ l)
                    (mkPacket (if_address iface)
                              (if gateway route =? 0 then destination else gateway route)
                              proto (identification_counter_ s) data false 0 false))).
Proof.
  intros Hroute Hif Hsrc Hdst Hgw Hproto Hid Hlen.
  destruct (send_packet_frame s destination proto data route iface Hroute Hif)
    as (c & Ec & ->).
  eexists. eexists. split; [reflexivity|].
  cbn [handed_to_device via identification_counter_ frame_data].
  split; [reflexivity|]. split; [reflexivity|]. split; [reflexivity|].
  apply process_built_packet; try assumption.
  destruct (gateway route =? 0); assumption.
Qed.

Lemma sent_datagram_witness :
  exists s' frame,
    send_packet 3 host 3232235796 17 [1; 2; 3] = Some (true, s') /\
    handed_to_device s' = handed_to_device host ++ [frame] /\
    via frame = 0%nat /\
    identification_counter_ s' = u16 (7 + 1) /\
    process_packet 3 0 listening (frame_data frame)
    = Some (mkLayer ∅ [(17, 0%nat)]
              ([] ++ dispatch [(17, 0%nat)]
                       (mkPacket 3232235786 3232235796 17 7 [1; 2; 3] false 0 false))).
Proof.
  apply (sent_datagram_is_delivered 0 host listening 3232235796 17 [1; 2; 3]
           (mkRoute 3232235786 0 4294967040 0 0)
           (mkInterface 0 3232235786 4294967040 0 true 1500));
    vm_compute; first [reflexivity | split; congruence | congruence].
Defined.

(** *** Fragments *)

Lemma coverage_two (p1 p2 : list Z) :
  Z.of_nat (length p1) + Z.of_nat (length p2) < 4294967296 ->
  coverage [(0, p1); (Z.of_nat (length p1), p2)] 0 0
  = (true, Z.of_nat (length p1) + Z.of_nat (length p2)).
Proof.
  intros H. cbn [coverage]. rewrite Z.eqb_refl. cbn [negb].
  rewrite !Z.add_0_l, (u32_small (Z.of_nat (length p1))) by lia.
  rewrite Z.eqb_refl. cbn [negb]. rewrite u32_small by lia. reflexivity.
Qed.

(** Two fragments of one datagram are reassembled in whichever order
    they reach [process_fragment]: the first fragment (offset 0, MF set,
    8k payload bytes) and the last one (offset k, MF clear), read from
    headers whose fields are laid out as the accessors expect, give one
    packet with the two payloads joined, dispatched to the handlers of
    the protocol, and the buffer of the datagram is gone again. *)
Theorem two_fragments_reassemble_in_any_order (l : IPLayer) (h1 h2 : IPv4Header)
  (d1 d2 : list Z) (size1 size2 now1 now2 k : Z) :
  let key := fragment_key (source_address h1) (destination_address h1)
                          (swap_endian_16 (identification h1)) (protocol h1) in
  let p1 := take (Z.to_nat (size1 - header_length h1))
                 (drop (Z.to_nat (header_length h1)) d1) in
  let p2 := take (Z.to_nat (size2 - header_length h2))
                 (drop (Z.to_nat (header_length h2)) d2) in
  let packet := mkPacket (source_address h1) (destination_address h1) (protocol h1)
                         (swap_endian_16 (identification h1)) (p1 ++ p2) false 0 false in
  let done := mkLayer (fragment_buffers_ l) (protocol_handlers_ l)
                      (delivered l ++ dispatch (protocol_handlers_ l) packet) in
  fragment_buffers_ l !! key = None ->
  source_address h2 = source_address h1 ->
  destination_address h2 = destination_address h1 ->
  identification h2 = identification h1 -> protocol h2 = protocol h1 ->
  fragment_offset h1 = 0 -> more_fragments h1 = true ->
  fragment_offset h2 = k -> more_fragments h2 = false ->
  0 < k -> Z.of_nat (length p1) = 8 * k ->
  8 * k + Z.of_nat (length p2) < 65536 ->
  process_fragment now2 (process_fragment now1 l h1 d1 size1) h2 d2 size2 = done /\
  process_fragment now2 (process_fragment now1 l h2 d2 size2) h1 d1 size1 = done.
Proof.
  intros key p1 p2 packet done Hnone Hsrc Hdst Hid Hproto Ho1 Hm1 Ho2 Hm2 Hk Hp1 Hp2.
  assert (Hoff : u16 (k * 8) = Z.of_nat (length p1))
    by (unfold u16, wrap; rewrite Z.mod_small by lia; lia).
  assert (Hcov := coverage_two p1 p2 ltac:(lia)).
  split.
  - unfold process_fragment at 2. fold key. rewrite Hnone, Ho1, Hm1.
    cbn [negb fb_total_length]. change (0 <? 0) with false. cbv iota.
    unfold process_fragment. rewrite Hsrc, Hdst, Hid, Hproto. fold key.
    cbn [fragment_buffers_ protocol_handlers_ delivered].
    rewrite lookup_insert_eq, Ho2, Hm2, Hoff. fold p1 p2.
    cbn [negb fragments frag_insert fb_total_length fb_source fb_destination
         fb_protocol fb_identification].
    change (u16 (0 * 8)) with 0.
    replace (Z.of_nat (length p1) <? 0) with false by (symmetry; apply Z.ltb_ge; lia).
    replace (Z.of_nat (length p1) =? 0) with false by (symmetry; apply Z.eqb_neq; lia).
    cbn [frag_insert]. rewrite Hcov, u32_small by lia.
    replace (0 <? Z.of_nat (length p1) + Z.of_nat (length p2)) with true
      by (symmetry; apply Z.ltb_lt; lia).
    rewrite Z.eqb_refl. cbn [andb].
    rewrite delete_insert_eq, delete_id by exact Hnone.
    unfold done, packet, reassemble. cbn [map snd concat]. rewrite app_nil_r.
    reflexivity.
  - unfold process_fragment at 2. rewrite Hsrc, Hdst, Hid, Hproto. fold key.
    rewrite Hnone, Ho2, Hm2, Hoff. fold p2.
    cbn [negb fragments frag_insert coverage fb_total_length].
    rewrite u32_small by lia.
    replace (0 <? Z.of_nat (length p1) + Z.of_nat (length p2)) with true
      by (symmetry; apply Z.ltb_lt; lia).
    replace (Z.of_nat (length p1) =? 0) with false by (symmetry; apply Z.eqb_neq; lia).
    cbn [negb andb]. cbv iota.
    unfold process_fragment. fold key.
    cbn [fragment_buffers_ protocol_handlers_ delivered].
    rewrite lookup_insert_eq, Ho1, Hm1. fold p1.
    cbn [negb fragments frag_insert fb_total_length fb_source fb_destination
         fb_protocol fb_identification].
    change (u16 (0 * 8)) with 0.
    replace (0 <? Z.of_nat (length p1)) with true by (symmetry; apply Z.ltb_lt; lia).
    rewrite Hcov.
    replace (0 <? Z.of_nat (length p1) + Z.of_nat (length p2)) with true
      by (symmetry; apply Z.ltb_lt; lia).
    rewrite Z.eqb_refl. cbn [andb].
    rewrite delete_insert_eq, delete_id by exact Hnone.
    unfold done, packet, reassemble. cbn [map snd concat]. rewrite app_nil_r.
    reflexivity.
Qed.

Lemma two_fragments_witness :
  let h1 := with_offset_swapped (load_header first_fragment) in
  let h2 := with_offset_swapped (load_header last_fragment) in
  let done :=
    mkLayer ∅ [(17, 0%nat)]
            ([] ++ dispatch [(17, 0%nat)]
                     (mkPacket 335653056 167880896 17 7
                               ([1; 2; 3; 4; 5; 6; 7; 8] ++ [9; 10; 11; 12])
                               false 0 false)) in
  process_fragment 2 (process_fragment 1 listening h1 first_fragment 28)
                   h2 last_fragment 24 = done /\
  process_fragment 2 (process_fragment 1 listening h2 last_fragment 24)
                   h1 first_fragment 28 = done.
Proof.
  apply (two_fragments_reassemble_in_any_order listening
           (with_offset_swapped (load_header first_fragment))
           (with_offset_swapped (load_header last_fragment))
           first_fragment last_fragment 28 24 1 2 1);
    vm_compute; first [reflexivity | congruence].
Defined.

(** *** Routes *)

Lemma find_in_app {A : Type} (p : A -> bool) (l1 l2 : list A) (x : A) :
  In x l2 -> p x = true -> exists y, List.find p (l1 ++ l2) = Some y.
Proof.
  intros Hin Hp. induction l1 as [|a l1 IH]; cbn [app List.find].
  - induction l2 as [|b l2 IH2]; [destruct Hin|].
    cbn [List.find]. destruct (p b) eqn:E; [eauto|].
    destruct Hin as [->|Hin]; [congruence | auto].
  - destruct (p a); eauto.
Qed.

(** [add_interface] makes the subnet of the interface routable, and
    with a gateway every destination: [find_route] then finds a route
    (the first that matches, whatever was added before) and
    [send_packet] returns true. *)
Theorem added_interface_is_routed (s : Sender)
  (address mask gw destination proto : Z) (data : list Z) :
  gw <> 0 \/ Z.land destination mask = Z.land address mask ->
  exists route s',
    find_route (add_interface s address mask gw) destination = Some route /\
    send_packet 3 (add_interface s address mask gw) destination proto data
    = Some (true, s').
Proof.
  intros H.
  assert (Hroute : exists route,
             find_route (add_interface s address mask gw) destination = Some route).
  { unfold find_route, add_interface. cbn [routing_table_].
    destruct (Z.eqb_spec gw 0) as [E|E]; cbn [negb].
    - destruct H as [H|H]; [contradiction|].
      apply (find_in_app _ _ _ (mkRoute address 0 mask (Z.of_nat (length (interfaces_ s))) 0));
        [left; reflexivity|].
      cbn [netmask network]. apply Z.eqb_eq. exact H.
    - apply (find_in_app _ _ _ (mkRoute 0 gw 0 (Z.of_nat (length (interfaces_ s))) 1));
        [right; left; reflexivity|].
      cbn [netmask network]. rewrite !Z.land_0_r. reflexivity. }
  destruct Hroute as [route Hroute]. exists route.
  unfold send_packet. rewrite Hroute. unfold send_packet_to_interface.
  destruct (interfaces_ (add_interface s address mask gw) !! _) as [iface|];
    [|eexists; split; reflexivity].
  match goal with
  | |- context [calculate_checksum 3 ?h] =>
      destruct (calculate_checksum_returns h) as (c & -> & _)
  end.
  eexists. split; reflexivity.
Qed.

Lemma added_interface_witness :
  exists route s',
    find_route host_behind_gateway 134744072 = Some route /\
    send_packet 3 host_behind_gateway 134744072 17 [1; 2; 3] = Some (true, s').
Proof.
  apply (added_interface_is_routed (mkSender [] [] 7 []) 3232235786 4294967040
           3232235777 134744072 17 [1; 2; 3]).
  left. discriminate.
Defined.

End IPLayerFacts.

(** ** UDP: datagrams sent, delivered and received *)

Module UDPFacts.
Import Ints UDP BytesFacts.

Lemma parse_built_datagram (lp port : Z) (payload : list Z) :
  0 <= lp < 65536 -> 0 <= port < 65536 ->
  Z.of_nat (length payload) <= 65507 ->
  let d := build_datagram lp port payload in
  Z.of_nat (length d) = 8 + Z.of_nat (length payload) /\
  swap_endian_16 (load16 d 0) = lp /\
  swap_endian_16 (load16 d 2) = port /\
  swap_endian_16 (load16 d 4) = 8 + Z.of_nat (length payload) /\
  drop 8 d = payload.
Proof.
  intros Hlp Hport Hlen d.
  assert (L : forall v rest k, 0 <= v < 65536 ->
              swap_endian_16 v = k -> 0 <= k < 65536 ->
              swap_endian_16 (load16 (IP.store16 k ++ rest) 0) = v).
  { intros v rest k Hv <- Hk. rewrite load16_store16 by exact Hk.
    apply swap_endian_16_involutive. exact Hv. }
  assert (Hu : u16 (8 + Z.of_nat (length payload)) = 8 + Z.of_nat (length payload))
    by (unfold u16, wrap; apply Z.mod_small; lia).
  pose proof (swap_endian_16_range lp). pose proof (swap_endian_16_range port).
  pose proof (swap_endian_16_range (8 + Z.of_nat (length payload))).
  repeat split.
  - unfold d, build_datagram, IP.store16. cbn [app length]. lia.
  - unfold d, build_datagram. apply (L lp _ _ Hlp eq_refl). assumption.
  - unfold d, build_datagram.
    change (load16 (IP.store16 (swap_endian_16 lp) ++ ?r) 2)
      with (load16 r 0).
    apply (L port _ _ Hport eq_refl). assumption.
  - unfold d, build_datagram.
    change (load16 (IP.store16 (swap_endian_16 lp)
                    ++ IP.store16 (swap_endian_16 port) ++ ?r) 4)
      with (load16 r 0).
    rewrite Hu.
    apply (L (8 + Z.of_nat (length payload)) _ _ ltac:(lia) eq_refl). assumption.
Qed.

Lemma process_built_datagram (now source destination lp port ident : Z)
  (payload : list Z) (l : UDPLayer) (r : UDPSocket) :
  0 <= lp < 65536 -> 0 <= port < 65536 ->
  Z.of_nat (length payload) <= 65507 ->
  bound_sockets_ l !! (destination, port) = Some r ->
  bound_ r = true -> local_port_ r = port ->
  connected_ r = false \/ (source = remote_address_ r /\ lp = remote_port_ r) ->
  process_udp_packet now l
    (IP.mkPacket source destination 17 ident (build_datagram lp port payload)
                 false 0 false)
  = mkUDPLayer
      (<[(destination, port) :=
           with_queue r (receive_queue_ r
                         ++ [mkDatagram source lp destination port payload now])]>
         (bound_sockets_ l))
      (next_port l).
Proof.
  intros Hlp Hport Hlen Hr Hbound Hlocal Haccept.
  destruct (parse_built_datagram lp port payload Hlp Hport Hlen)
    as (Ld & Es & Ed & El & Edrop).
  unfold process_udp_packet. cbn [IP.pkt_data IP.pkt_destination IP.pkt_source].
  rewrite Ld, Es, Ed, El, Edrop, Hr.
  replace (8 + Z.of_nat (length payload) <? 8) with false
    by (symmetry; apply Z.ltb_ge; lia).
  rewrite Z.ltb_irrefl. cbn [orb].
  replace (8 + Z.of_nat (length payload) - 8) with (Z.of_nat (length payload)) by lia.
  rewrite Nat2Z.id, firstn_all.
  unfold queue_datagram. rewrite Hbound. cbn [negb destination_port].
  rewrite Hlocal, Z.eqb_refl.
  cbn [negb source_address source_port].
  replace (negb (connected_ r)
           || connected_ r && (source =? remote_address_ r) && (lp =? remote_port_ r))
    with true; [reflexivity|].
  destruct Haccept as [-> | [-> ->]]; [reflexivity|].
  rewrite !Z.eqb_refl. destruct (connected_ r); reflexivity.
Qed.

Lemma receive_from_single (tsc : nat -> Z) (others : nat -> UDPSocket -> UDPSocket)
  (fuel : nat) (r : UDPSocket) (d : UDPDatagram) (size timeout_ms : Z) :
  bound_ r = true ->
  receive_from tsc others fuel (with_queue r [d]) size timeout_ms
  = Some (mkReceived (Z.min size (Z.of_nat (length (data d))))
                     (take (Z.to_nat (Z.min size (Z.of_nat (length (data d))))) (data d))
                     (Some (source_address d, source_port d)) (with_queue r [])).
Proof.
  intros Hbound. unfold receive_from. cbn [with_queue bound_].
  rewrite Hbound. cbn [negb].
  destruct fuel; cbn [wait_datagram receive_queue_ with_queue local_address_
                      local_port_ remote_address_ remote_port_ bound_ connected_];
    reflexivity.
Qed.

(** A datagram built by [send_to] and handed to [process_udp_packet]
    in an IP packet for a bound socket that accepts its sender is
    queued there with the sender's address and port and the payload as
    sent; on an empty queue the next [receive_from] returns at once,
    whatever the timeout and the time-stamp counter, with that payload
    cut to the size asked for, and the queue is empty again. *)
Theorem sent_datagram_is_received (now source destination lp port ident : Z)
  (payload : list Z) (l : UDPLayer) (r : UDPSocket) :
  0 <= lp < 65536 -> 0 <= port < 65536 ->
  Z.of_nat (length payload) <= 65507 ->
  bound_sockets_ l !! (destination, port) = Some r ->
  bound_ r = true -> local_port_ r = port ->
  connected_ r = false \/ (source = remote_address_ r /\ lp = remote_port_ r) ->
  let datagram := mkDatagram source lp destination port payload now in
  let queued := with_queue r (receive_queue_ r ++ [datagram]) in
  process_udp_packet now l
    (IP.mkPacket source destination 17 ident (build_datagram lp port payload)
                 false 0 false)
  = mkUDPLayer (<[(destination, port) := queued]> (bound_sockets_ l)) (next_port l) /\
  (receive_queue_ r = [] ->
   forall tsc others fuel size timeout_ms,
     receive_from tsc others fuel queued size timeout_ms
     = Some (mkReceived (Z.min size (Z.of_nat (length payload)))
                        (take (Z.to_nat (Z.min size (Z.of_nat (length payload)))) payload)
                        (Some (source, lp)) (with_queue r []))).
Proof.
  intros Hlp Hport Hlen Hr Hbound Hlocal Haccept datagram queued.
  split; [apply process_built_datagram; assumption|].
  intros Hempty tsc others fuel size timeout_ms.
  unfold queued. rewrite Hempty. cbn [app].
  apply (receive_from_single tsc others fuel r datagram). exact Hbound.
Qed.

Lemma sent_datagram_is_received_witness :
  let datagram := mkDatagram 3232235796 4000 3232235786 5353 [104; 105] 9 in
  let queued := with_queue idle_socket ([] ++ [datagram]) in
  process_udp_packet 9 one_bound
    (IP.mkPacket 3232235796 3232235786 17 7 (build_datagram 4000 5353 [104; 105])
                 false 0 false)
  = mkUDPLayer (<[(3232235786, 5353) := queued]> (bound_sockets_ one_bound)) 1024 /\
  (receive_queue_ idle_socket = [] ->
   forall tsc others fuel size timeout_ms,
     receive_from tsc others fuel queued size timeout_ms
     = Some (mkReceived (Z.min size 2) (take (Z.to_nat (Z.min size 2)) [104; 105])
                        (Some (3232235796, 4000)) (with_queue idle_socket []))).
Proof.
  apply (sent_datagram_is_received 9 3232235796 3232235786 4000 5353 7 [104; 105]
           one_bound idle_socket);
    first [reflexivity | lia | (cbn; lia) | (left; reflexivity)].
Defined.

(** *** Binding to port 0 *)

Lemma allocate_port_spec (fuel : nat) :
  forall l p l', 1024 <= next_port l <= 65535 ->
                 allocate_port fuel l = Some (p, l') ->
                 bound_sockets_ l' = bound_sockets_ l /\ next_port l' = p /\
                 1024 <= p <= 65535.
Proof.
  induction fuel as [|fuel IH]; intros l p l' Hrange H; cbn [allocate_port] in H;
    destruct (is_port_available l (next_port l)).
  - injection H as <- <-. auto.
  - discriminate H.
  - injection H as <- <-. auto.
  - apply IH in H; cbn [bound_sockets_ next_port] in *; [exact H|].
    destruct (_ || _) eqn:E; [lia|].
    apply orb_false_elim in E as [E1 E2].
    apply Z.ltb_ge in E1. apply Z.ltb_ge in E2. lia.
Qed.

Lemma deaf_socket_stays (now : Z) (l : UDPLayer) (packet : IP.IPPacket)
  (address p : Z) (s : UDPSocket) :
  local_port_ s <> p ->
  bound_sockets_ l !! (address, p) = Some s ->
  bound_sockets_ (process_udp_packet now l packet) !! (address, p) = Some s.
Proof.
  intros Hport Hs. unfold process_udp_packet.
  destruct (_ <? 8); [exact Hs|]. destruct (_ || _); [exact Hs|].
  match goal with |- context [bound_sockets_ l !! ?k] => set (key := k) end.
  destruct (bound_sockets_ l !! key) as [socket|] eqn:Ek; [|exact Hs].
  cbn [bound_sockets_].
  destruct (decide (key = (address, p))) as [E|E].
  - rewrite E, lookup_insert_eq. rewrite E in Ek. rewrite Hs in Ek. injection Ek as <-.
    unfold queue_datagram. destruct (negb (bound_ s)); [reflexivity|].
    cbn [destination_port]. unfold key in E. injection E as _ ->.
    replace (p =? local_port_ s) with false by (symmetry; apply Z.eqb_neq; congruence).
    reflexivity.
  - rewrite lookup_insert_ne by exact E. exact Hs.
Qed.

(** A socket bound with port 0 is registered under the port
    [allocate_port] picks while its own [local_port_] stays 0, so
    [queue_datagram] turns every datagram away: whatever packets the
    layer processes afterwards, the socket is unchanged and its receive
    queue never grows. *)
Theorem socket_bound_to_port_zero_never_receives (fuel : nat) (l l' : UDPLayer)
  (s s' : UDPSocket) (address : Z) (packets : list (Z * IP.IPPacket)) :
  1024 <= next_port l <= 65535 ->
  bind fuel l s address 0 = Some (true, s', l') ->
  local_port_ s' = 0 /\
  receive_queue_ s' = receive_queue_ s /\
  exists p,
    1024 <= p <= 65535 /\
    bound_sockets_ l' !! (address, p) = Some s' /\
    bound_sockets_
      (foldl (fun u np => process_udp_packet (fst np) u (snd np)) l' packets)
      !! (address, p) = Some s'.
Proof.
  intros Hrange H. unfold bind in H.
  destruct (bound_ s); [discriminate H|].
  unfold bind_socket in H. rewrite Z.eqb_refl in H.
  destruct (allocate_port fuel l) as [[p l1]|] eqn:Ea; [|discriminate H].
  destruct (allocate_port_spec _ _ _ _ Hrange Ea) as (Hsame & Hnext & Hp).
  destruct (bound_sockets_ l1 !! (address, p)) eqn:Ek; [discriminate H|].
  injection H as <- <-.
  split; [reflexivity|]. split; [reflexivity|].
  exists p. split; [exact Hp|]. cbn [bound_sockets_].
  split; [apply lookup_insert_eq|].
  match goal with |- context [foldl _ ?l0 _] => set (start := l0) end.
  assert (Hstart : bound_sockets_ start !! (address, p)
                   = Some (mkSocket address 0 (remote_address_ s) (remote_port_ s) true
                                    (connected_ s) (receive_queue_ s)))
    by apply lookup_insert_eq.
  clearbody start. revert start Hstart.
  induction packets as [|np packets IH]; intros start Hstart; [exact Hstart|].
  cbn [foldl]. apply IH. apply deaf_socket_stays; [cbn; lia | exact Hstart].
Qed.

Lemma socket_bound_to_port_zero_witness :
  let fresh := mkSocket 0 0 0 0 false false [] in
  let bound := mkSocket 3232235786 0 0 0 true false [] in
  let l' := mkUDPLayer (<[(3232235786, 1024) := bound]> (bound_sockets_ one_bound)) 1024 in
  local_port_ bound = 0 /\
  receive_queue_ bound = receive_queue_ fresh /\
  exists p,
    1024 <= p <= 65535 /\
    bound_sockets_ l' !! (3232235786, p) = Some bound /\
    bound_sockets_
      (foldl (fun u np => process_udp_packet (fst np) u (snd np)) l'
             [(5, IP.mkPacket 3232235796 3232235786 17 7
                              (build_datagram 4000 1024 [104; 105]) false 0 false)])
      !! (3232235786, p) = Some bound.
Proof.
  apply (socket_bound_to_port_zero_never_receives 3 one_bound _
           (mkSocket 0 0 0 0 false false []) _ 3232235786).
  - cbn. lia.
  - vm_compute. reflexivity.
Defined.

(** *** From [send_to] to [receive_from] *)

(** A datagram travels the whole way: what [send_to] hands to the IP
    layer and the IP layer to the device is accepted by [process_packet]
    on a host whose only protocol handler is the UDP callback, reaches
    the socket bound to the next hop and the destination port, and
    [receive_from] returns the payload with the sender's interface
    address and port. *)
Theorem datagram_travels_from_send_to_receive (now : Z) (s r : UDPSocket)
  (ip : IP.Sender) (route : IP.RouteEntry) (iface : IP.Interface)
  (ipl : IP.IPLayer) (udp : UDPLayer) (h : nat)
  (address port : Z) (payload : list Z) :
  let next_hop := if IP.gateway route =? 0 then address else IP.gateway route in
  let datagram := mkDatagram (IP.if_address iface) (local_port_ s) next_hop port
                             payload now in
  bound_ s = true -> 0 <= local_port_ s < 65536 -> 0 <= port < 65536 ->
  Z.of_nat (length payload) <= 65507 ->
  IP.find_route ip address = Some route ->
  IP.interfaces_ ip !! Z.to_nat (IP.interface_index route) = Some iface ->
  0 <= IP.if_address iface < 4294967296 ->
  0 <= address < 4294967296 -> 0 <= IP.gateway route < 4294967296 ->
  0 <= IP.identification_counter_ ip < 65536 ->
  IP.protocol_handlers_ ipl = [(17, h)] ->
  bound_sockets_ udp !! (next_hop, port) = Some r ->
  bound_ r = true -> local_port_ r = port -> receive_queue_ r = [] ->
  connected_ r = false
  \/ (IP.if_address iface = remote_address_ r /\ local_port_ s = remote_port_ r) ->
  exists ip' frame ipl',
    send_to 3 s ip address port payload = Some (Z.of_nat (length payload), ip') /\
    IP.handed_to_device ip' = IP.handed_to_device ip ++ [frame] /\
    IP.process_packet 3 now ipl (IP.frame_data frame) = Some ipl' /\
    bound_sockets_ (run_callbacks now h ipl ipl' udp) !! (next_hop, port)
    = Some (with_queue r [datagram]) /\
    forall tsc others fuel size timeout_ms,
      Z.of_nat (length payload) <= size ->
      receive_from tsc others fuel (with_queue r [datagram]) size timeout_ms
      = Some (mkReceived (Z.of_nat (length payload)) payload
                         (Some (IP.if_address iface, local_port_ s))
                         (with_queue r [])).
Proof.
  intros next_hop datagram Hbs Hlp Hport Hlen Hroute Hif Hsrc Haddr Hgw Hid Hh Hr
         Hbr Hlr Hq Haccept.
  assert (Hhop : 0 <= next_hop < 4294967296)
    by (unfold next_hop; destruct (IP.gateway route =? 0); assumption).
  assert (Ld : Z.of_nat (length (build_datagram (local_port_ s) port payload))
               = 8 + Z.of_nat (length payload))
    by (apply parse_built_datagram; assumption).
  destruct (IPLayerFacts.send_packet_frame ip address 17
              (build_datagram (local_port_ s) port payload) route iface Hroute Hif)
    as (c & Ec & Esend).
  fold next_hop in Ec, Esend.
  unfold send_to. rewrite Hbs. cbn [negb].
  replace (65507 <? Z.of_nat (length payload)) with false
    by (symmetry; apply Z.ltb_ge; lia).
  rewrite Esend. eexists. eexists. eexists.
  split; [reflexivity|]. cbn [IP.handed_to_device IP.frame_data].
  split; [reflexivity|].
  split; [apply IPLayerFacts.process_built_packet; try assumption; lia|].
  split.
  - unfold run_callbacks. cbn [IP.delivered]. rewrite drop_app_length, Hh.
    unfold IP.dispatch. cbn [IP.pkt_protocol].
    replace (filter (fun h0 : Z * nat => h0.1 = 17) [(17, h)]) with [(17, h)]
      by reflexivity.
    cbn [map foldl fst snd]. rewrite Nat.eqb_refl.
    rewrite (process_built_datagram now (IP.if_address iface) next_hop (local_port_ s)
               port (IP.identification_counter_ ip) payload udp r)
      by assumption.
    cbn [bound_sockets_]. rewrite lookup_insert_eq, Hq. reflexivity.
  - intros tsc others fuel size timeout_ms Hsize.
    rewrite receive_from_single by exact Hbr.
    unfold datagram. cbn [data source_address source_port].
    rewrite Z.min_r by lia. rewrite Nat2Z.id, firstn_all. reflexivity.
Qed.

Lemma datagram_travels_witness :
  let datagram := mkDatagram 3232235786 4000 3232235786 5353 [104; 105] 9 in
  exists ip' frame ipl',
    send_to 3 sender_socket IP.host 3232235786 5353 [104; 105] = Some (2, ip') /\
    IP.handed_to_device ip' = IP.handed_to_device IP.host ++ [frame] /\
    IP.process_packet 3 9 IP.listening (IP.frame_data frame) = Some ipl' /\
    bound_sockets_ (run_callbacks 9 0 IP.listening ipl' one_bound)
      !! (3232235786, 5353)
    = Some (with_queue idle_socket [datagram]) /\
    forall tsc others fuel size timeout_ms,
      2 <= size ->
      receive_from tsc others fuel (with_queue idle_socket [datagram]) size timeout_ms
      = Some (mkReceived 2 [104; 105] (Some (3232235786, 4000))
                         (with_queue idle_socket [])).
Proof.
  apply (datagram_travels_from_send_to_receive 9 sender_socket idle_socket IP.host
           (IP.mkRoute 3232235786 0 4294967040 0 0)
           (IP.mkInterface 0 3232235786 4294967040 0 true 1500)
           IP.listening one_bound 0 3232235786 5353 [104; 105]);
    first [reflexivity | (cbn; lia) | (left; reflexivity)].
Defined.

End UDPFacts.

(** ** TCP: ports, segments on the wire, sending and receiving data *)

Module TCPDataFacts.
Import Ints TCP BytesFacts.

Lemma allocate_port_in_use (fuel : nat) (l : TCPLayer) :
  forall next_port p n, allocate_port fuel l next_port = Some (p, n) ->
                        is_port_available l p = false.
Proof.
  induction fuel as [|fuel IH]; intros next_port p n H; cbn [allocate_port] in H;
    destruct (is_port_available l next_port) eqn:E; try discriminate H.
  - injection H as <- _. exact E.
  - eapply IH. exact H.
  - injection H as <- _. exact E.
Qed.

Lemma allocate_port_loops (fuel : nat) (l : TCPLayer) :
  (forall p, is_port_available l p = true) ->
  forall next_port, allocate_port fuel l next_port = None.
Proof.
  intros Hall. induction fuel as [|fuel IH]; intros next_port;
    cbn [allocate_port]; rewrite Hall; [reflexivity | apply IH].
Qed.

(** Binding a TCP socket with port 0 never succeeds.  [allocate_port]
    searches while the port is available, so the port it comes back
    with is one in use and [bind_socket] refuses it; when every port is
    available, as on a layer without sockets, the search never ends. *)
Theorem bind_to_port_zero_never_succeeds (fuel : nat) (l : TCPLayer)
  (next_port address : Z) (s : TCPSocket) :
  (forall s' n, bind fuel l next_port s address 0 <> Some (true, s', n)) /\
  (state_ s = Closed -> (forall p, is_port_available l p = true) ->
   bind fuel l next_port s address 0 = None) /\
  (state_ s = Closed ->
   bind fuel (mkLayer ∅ ∅ []) next_port s address 0 = None).
Proof.
  assert (Hloop : state_ s = Closed -> (forall p, is_port_available l p = true) ->
                  bind fuel l next_port s address 0 = None).
  { intros Hs Hall. unfold bind, bind_socket. rewrite Hs. cbn [TCPState_eqb negb].
    rewrite Z.eqb_refl, allocate_port_loops by exact Hall. reflexivity. }
  split; [|split; [exact Hloop|]].
  - intros s' n. unfold bind, bind_socket.
    destruct (negb (TCPState_eqb (state_ s) Closed)); [discriminate|].
    rewrite Z.eqb_refl.
    destruct (allocate_port fuel l next_port) as [[p n']|] eqn:E; [|discriminate].
    rewrite (allocate_port_in_use _ _ _ _ _ E). cbn [negb]. discriminate.
  - intros Hs. unfold bind, bind_socket. rewrite Hs. cbn [TCPState_eqb negb].
    rewrite Z.eqb_refl, allocate_port_loops; [reflexivity|].
    intros p. reflexivity.
Qed.

(** *** Data that arrives out of order *)

(** Once a data segment has been taken, [receive_sequence_] stands at
    its end and every later segment with payload that starts before
    that point fails [validate_sequence]: it is dropped without an
    answer and the socket is left as it is.  A segment that fills a gap
    before the data taken, a retransmission and a duplicate all meet
    this. *)
Theorem data_before_the_last_segment_is_dropped (now : Z) (s : TCPSocket)
  (seg : TCPSegment) :
  syn seg = false -> ack seg = false -> fin seg = false -> rst seg = false ->
  0 <= sequence_number seg -> 0 < Z.of_nat (length (data seg)) ->
  sequence_number seg + Z.of_nat (length (data seg)) < 4294967296 ->
  validate_sequence s (sequence_number seg) (u32 (Z.of_nat (length (data seg)))) = true ->
  let s' := snd (fst (receive_segment now s seg)) in
  fst (fst (receive_segment now s seg)) = true /\
  receive_sequence_ s' = sequence_number seg + Z.of_nat (length (data seg)) /\
  forall now' earlier,
    0 < Z.of_nat (length (data earlier)) < 4294967296 ->
    sequence_number earlier < sequence_number seg + Z.of_nat (length (data seg)) ->
    receive_segment now' s' earlier = (false, s', []).
Proof.
  intros Hsyn Hack Hfin Hrst Hseq Hlen Hend Hvalid s'.
  assert (Hs' : fst (fst (receive_segment now s seg)) = true /\
                receive_sequence_ s'
                = sequence_number seg + Z.of_nat (length (data seg))).
  { unfold s', receive_segment. rewrite Hvalid, Hsyn, Hack, Hfin, Hrst.
    replace (0 <? Z.of_nat (length (data seg))) with true
      by (symmetry; apply Z.ltb_lt; exact Hlen).
    cbn [negb]. unfold process_data, reorder_buffers.
    destruct (drain _ _ _) as [[bs q] n].
    cbn. split; [reflexivity|]. unfold u32, wrap. apply Z.mod_small. lia. }
  destruct Hs' as [Htaken Hrcv]. split; [exact Htaken|]. split; [exact Hrcv|].
  intros now' earlier Hlen' Hbefore.
  unfold receive_segment, validate_sequence.
  rewrite Hrcv.
  replace (u32 (Z.of_nat (length (data earlier))) =? 0) with false
    by (symmetry; apply Z.eqb_neq; unfold u32, wrap; rewrite Z.mod_small; lia).
  replace (sequence_number seg + Z.of_nat (length (data seg)) <=? sequence_number earlier)
    with false by (symmetry; apply Z.leb_gt; exact Hbefore).
  reflexivity.
Qed.

Lemma data_before_the_last_segment_witness :
  let seg := mkSegment 0 0 0 0 100 0 65535 false false false false [71; 69; 84; 32] 5 in
  let s' := snd (fst (receive_segment 5 idle_connection seg)) in
  fst (fst (receive_segment 5 idle_connection seg)) = true /\
  receive_sequence_ s' = 100 + Z.of_nat (length [71; 69; 84; 32]) /\
  forall now' earlier,
    0 < Z.of_nat (length (data earlier)) < 4294967296 ->
    sequence_number earlier < 100 + Z.of_nat (length [71; 69; 84; 32]) ->
    receive_segment now' s' earlier = (false, s', []).
Proof.
  apply (data_before_the_last_segment_is_dropped 5 idle_connection
           (mkSegment 0 0 0 0 100 0 65535 false false false false [71; 69; 84; 32] 5));
    first [reflexivity | (cbn; lia)].
Defined.

(** *** Segments on the wire *)

Lemma load16_at (pre : list Z) (v : Z) (rest : list Z) (n : nat) :
  length pre = n -> 0 <= v < 65536 ->
  load16 (pre ++ IP.store16 v ++ rest) n = v.
Proof.
  intros <- Hv. unfold load16, byte_at.
  rewrite (lookup_app_r pre _ (length pre)) by lia.
  rewrite (lookup_app_r pre _ (length pre + 1)) by lia.
  replace (length pre - length pre)%nat with 0%nat by lia.
  replace (length pre + 1 - length pre)%nat with 1%nat by lia.
  unfold IP.store16. cbn [app lookup list_lookup default]. unfold id.
  Z.div_mod_to_equations. lia.
Qed.

Lemma load32_at (pre : list Z) (v : Z) (rest : list Z) (n : nat) :
  length pre = n -> 0 <= v < 4294967296 ->
  load32 (pre ++ IP.store32 v ++ rest) n = v.
Proof.
  intros Hn Hv. unfold load32, IP.store32.
  rewrite <- !app_assoc.
  rewrite (load16_at pre (v mod 65536)) by (try exact Hn; Z.div_mod_to_equations; lia).
  rewrite (app_assoc pre).
  rewrite (load16_at (pre ++ IP.store16 (v mod 65536)) (v / 65536 mod 65536))
    by (try (rewrite length_app; cbn [IP.store16 length]; lia);
        Z.div_mod_to_equations; lia).
  Z.div_mod_to_equations. lia.
Qed.

Lemma swap_endian_32_range (x : Z) : 0 <= swap_endian_32 x < 4294967296.
Proof. rewrite swap_endian_32_value. Z.div_mod_to_equations. lia. Qed.

Lemma flags_decoded (seg : TCPSegment) :
  negb (Z.land (flags_byte seg) 2 =? 0) = syn seg /\
  negb (Z.land (flags_byte seg) 16 =? 0) = ack seg /\
  negb (Z.land (flags_byte seg) 1 =? 0) = fin seg /\
  negb (Z.land (flags_byte seg) 4 =? 0) = rst seg.
Proof.
  unfold flags_byte.
  destruct (syn seg), (ack seg), (fin seg), (rst seg); repeat split; reflexivity.
Qed.

Lemma parse_encoded_segment (s : TCPSocket) (seg : TCPSegment) (checksum : Z) :
  0 <= local_port_ s < 65536 -> 0 <= remote_port_ s < 65536 ->
  0 <= sequence_number seg < 4294967296 ->
  0 <= acknowledgment_number seg < 4294967296 ->
  let p := encode_segment s seg checksum in
  length p = (20 + length (data seg))%nat /\
  header_source_port p = local_port_ s /\
  header_destination_port p = remote_port_ s /\
  header_sequence p = sequence_number seg /\
  header_ack p = acknowledgment_number seg /\
  header_window p = u16 (window_size seg) /\
  header_data_offset p = 5 /\
  (forall mask, header_flag p mask = negb (Z.land (flags_byte seg) mask =? 0)) /\
  drop 20 p = data seg.
Proof.
  intros Hlp Hrp Hseq Hack p.
  pose proof (swap_endian_16_range (local_port_ s)).
  pose proof (swap_endian_16_range (remote_port_ s)).
  pose proof (swap_endian_16_range (u16 (window_size seg))).
  pose proof (swap_endian_32_range (sequence_number seg)).
  pose proof (swap_endian_32_range (acknowledgment_number seg)).
  assert (Hw : 0 <= u16 (window_size seg) < 65536)
    by (unfold u16, wrap; apply Z.mod_pos_bound; lia).
  set (a := IP.store16 (swap_endian_16 (local_port_ s))).
  set (b := IP.store16 (swap_endian_16 (remote_port_ s))).
  set (c := IP.store32 (swap_endian_32 (sequence_number seg))).
  set (d := IP.store32 (swap_endian_32 (acknowledgment_number seg))).
  set (w := IP.store16 (swap_endian_16 (u16 (window_size seg)))).
  set (tail := IP.store16 checksum ++ IP.store16 0 ++ data seg).
  repeat split.
  - unfold header_source_port.
    change p with ([] ++ a ++ b ++ c ++ d ++ [u8 (Z.shiftl 5 4); flags_byte seg] ++ w ++ tail).
    unfold a. rewrite load16_at by (try reflexivity; assumption).
    apply swap_endian_16_involutive. exact Hlp.
  - unfold header_destination_port.
    change p with (a ++ b ++ c ++ d ++ [u8 (Z.shiftl 5 4); flags_byte seg] ++ w ++ tail).
    unfold b. rewrite load16_at by (try reflexivity; assumption).
    apply swap_endian_16_involutive. exact Hrp.
  - unfold header_sequence.
    change p with ((a ++ b) ++ c ++ d ++ [u8 (Z.shiftl 5 4); flags_byte seg] ++ w ++ tail).
    unfold c. rewrite load32_at by (try reflexivity; assumption).
    apply swap_endian_32_involutive. exact Hseq.
  - unfold header_ack.
    change p with ((a ++ b ++ c) ++ d ++ [u8 (Z.shiftl 5 4); flags_byte seg] ++ w ++ tail).
    unfold d. rewrite load32_at by (try reflexivity; assumption).
    apply swap_endian_32_involutive. exact Hack.
  - unfold header_window.
    change p with ((a ++ b ++ c ++ d ++ [u8 (Z.shiftl 5 4); flags_byte seg]) ++ w ++ tail).
    unfold w. rewrite load16_at by (try reflexivity; assumption).
    apply swap_endian_16_involutive. exact Hw.
Qed.

(** Decoding undoes encoding: a packet laid out by [send_segment],
    arriving for a connection of the layer, reaches [receive_segment] of
    that connection as the segment that was sent, with the sender's
    ports, both numbers, the window cut to 16 bits, the four flags and
    the payload.  This holds whatever the checksum field carries: the
    receiving side never looks at it. *)
Theorem encoded_segment_is_decoded (now : Z) (l : TCPLayer) (s socket : TCPSocket)
  (seg : TCPSegment) (checksum source destination : Z) :
  0 <= local_port_ s < 65536 -> 0 <= remote_port_ s < 65536 ->
  0 <= sequence_number seg < 4294967296 ->
  0 <= acknowledgment_number seg < 4294967296 ->
  connections_ l !! (destination, remote_port_ s, source, local_port_ s) = Some socket ->
  process_tcp_packet now l (mkPacket source destination (encode_segment s seg checksum))
  = let '(_, s', out) :=
      receive_segment now socket
        (mkSegment source (local_port_ s) destination (remote_port_ s)
                   (sequence_number seg) (acknowledgment_number seg)
                   (u16 (window_size seg)) (syn seg) (ack seg) (fin seg) (rst seg)
                   (data seg) now) in
    mkLayer (<[(destination, remote_port_ s, source, local_port_ s) := s']>
               (connections_ l))
            (listening_sockets_ l) (wire l ++ out).
Proof.
  intros Hlp Hrp Hseq Hack Hconn.
  destruct (parse_encoded_segment s seg checksum Hlp Hrp Hseq Hack)
    as (Hlen & Esp & Edp & Eseq & Eack & Ewin & Eoff & Eflag & Edrop).
  destruct (flags_decoded seg) as (Fsyn & Fack & Ffin & Frst).
  unfold process_tcp_packet. cbn [payload TCP.source TCP.destination].
  rewrite Hlen, Esp, Edp, Eseq, Eack, Ewin, Eoff, !Eflag, Fsyn, Fack, Ffin, Frst.
  replace (Z.of_nat (20 + length (data seg)) <? 20) with false
    by (symmetry; apply Z.ltb_ge; lia).
  rewrite Hconn.
  change (Z.to_nat (5 * 4)) with 20%nat. rewrite Edrop.
  replace (Z.of_nat (20 + length (data seg)) - 5 * 4) with (Z.of_nat (length (data seg)))
    by lia.
  rewrite Nat2Z.id, firstn_all.
  replace (if 0 <? Z.of_nat (length (data seg)) then data seg else []) with (data seg);
    [reflexivity|].
  destruct (data seg); reflexivity.
Qed.

Lemma encoded_segment_witness :
  process_tcp_packet 3 after_syn
    (mkPacket client server
       (encode_segment client_socket
          (build 101 1 65535 false true false false [71; 69; 84; 32] 3) 0))
  = let '(_, s', out) :=
      receive_segment 3 (socket_of after_syn)
        (mkSegment client 5000 server 80 101 1 (u16 65535) false true false false
                   [71; 69; 84; 32] 3) in
    mkLayer (<[connection := s']> (connections_ after_syn))
            (listening_sockets_ after_syn) (wire after_syn ++ out).
Proof.
  apply (encoded_segment_is_decoded 3 after_syn client_socket (socket_of after_syn)
           (build 101 1 65535 false true false false [71; 69; 84; 32] 3) 0
           client server);
    vm_compute; first [reflexivity | split; congruence].
Defined.

(** *** Sending data *)

Lemma send_loop_spec (tsc : nat -> Z) (sends : nat -> bool) (mss : Z) (fuel : nat) :
  0 < mss -> (forall k, sends k = true) ->
  forall (k : nat) (s : TCPSocket) (rest : list Z) (sent : Z) (out : list TCPSegment),
    maximum_segment_size_ s = mss -> (length rest <= fuel)%nat ->
    0 <= send_sequence_ s < 4294967296 ->
    exists (n : nat) (s' : TCPSocket) (segments : list TCPSegment)
           (buffers : list SendBuffer),
      send_loop tsc sends fuel k s rest sent out
      = Some (sent + Z.of_nat n, s', out ++ segments) /\
      (n <= length rest)%nat /\ (rest <> [] -> (0 < n)%nat) /\
      concat (map data segments) = take n rest /\
      Forall (fun seg => 0 < Z.of_nat (length (data seg)) <= mss) segments /\
      send_buffers_ s' = send_buffers_ s ++ buffers /\
      map sb_data buffers = map data segments /\
      send_sequence_ s' = u32 (send_sequence_ s + Z.of_nat n) /\
      send_unacknowledged_ s' = send_unacknowledged_ s /\
      send_window_ s' = send_window_ s /\
      ((n < length rest)%nat ->
       send_window_ s < u32 (send_sequence_ s' - send_unacknowledged_ s)).
Proof.
  intros Hmss Hsends.
  induction fuel as [|fuel IH]; intros k s rest sent out Hm Hfuel Hseq;
    (destruct rest as [|x rest];
     [exists 0%nat, s, [], []; cbn [send_loop]; change (Z.of_nat 0) with 0;
      rewrite !Z.add_0_r, !app_nil_r, IPLayerFacts.u32_small by exact Hseq;
      repeat split; try reflexivity; try (cbn [length]; lia);
      try congruence; constructor|]).
  - cbn [length] in Hfuel. lia.
  - set (whole := x :: rest) in *.
    assert (Hwhole : (0 < length whole)%nat) by (unfold whole; cbn [length]; lia).
    cbn [send_loop]. fold whole. rewrite Hsends. cbn [negb]. rewrite Hm.
    set (cs := Z.min (Z.of_nat (length whole)) mss).
    assert (Hcs : 0 < cs <= Z.of_nat (length whole) /\ cs <= mss) by (unfold cs; lia).
    set (chunk := take (Z.to_nat cs) whole).
    assert (Hchunk : length chunk = Z.to_nat cs)
      by (unfold chunk; rewrite length_take; lia).
    set (buffer := mkSendBuffer _ _ _ _ _).
    set (s1 := set_sequences _ _ _ _ _).
    set (segment := send_segment s1 _).
    assert (Hdata : data segment = chunk) by reflexivity.
    assert (Hbuf : sb_data buffer = chunk) by reflexivity.
    destruct (send_window_ s1 <? u32 (send_sequence_ s1 - send_unacknowledged_ s1))
      eqn:Ewin.
    + exists (Z.to_nat cs), s1, [segment], [buffer].
      rewrite Z2Nat.id by lia. split; [reflexivity|].
      split; [lia|]. split; [intros _; lia|].
      split; [cbn [map concat]; rewrite Hdata, app_nil_r; reflexivity|].
      split; [repeat constructor; rewrite Hdata, Hchunk; lia|].
      split; [reflexivity|]. split; [cbn [map]; congruence|].
      split; [reflexivity|]. split; [reflexivity|]. split; [reflexivity|].
      intros _. apply Z.ltb_lt in Ewin. exact Ewin.
    + destruct (IH (S k) s1 (drop (Z.to_nat cs) whole) (sent + cs) (out ++ [segment]))
        as (n & s' & segments & buffers & Eloop & Hn & Hpos & Hcat & Hall & Hbufs
            & Hmap & Hsq & Huna & Hwnd & Hstop).
      * exact Hm.
      * rewrite length_drop. unfold whole in *. cbn [length] in *. lia.
      * apply IPLayerFacts.u32_range.
      * rewrite length_drop in Hn, Hstop.
        exists (Z.to_nat cs + n)%nat, s', (segment :: segments), (buffer :: buffers).
        rewrite Eloop, <- app_assoc. cbn [app].
        split; [f_equal; f_equal; f_equal; lia|].
        split; [lia|]. split; [intros _; lia|].
        split; [cbn [map concat]; rewrite Hdata, Hcat; apply take_take_drop|].
        split; [constructor; [rewrite Hdata, Hchunk; lia | exact Hall]|].
        split; [rewrite Hbufs; cbn [s1 set_sequences set_send_buffers send_buffers_];
                rewrite <- app_assoc; reflexivity|].
        split; [cbn [map]; congruence|].
        split; [rewrite Hsq; unfold s1, set_sequences, set_send_buffers;
                cbn [send_sequence_];
                rewrite IPLayerFacts.u32_add_l; f_equal; lia|].
        split; [exact Huna|]. split; [exact Hwnd|].
        intros Hless. apply Hstop. lia.
Qed.

(** [send] on an Established socket whose segments all reach the IP
    layer cuts the data into segments of at most
    [maximum_segment_size_] bytes, none of them empty: joined in the
    order sent they are the first [sent] bytes of the data, each is
    kept in [send_buffers_] for retransmission, [send_sequence_]
    advances by [sent], and less than everything is sent only when the
    bytes in flight exceed the send window.  One round per byte is
    enough for the loop. *)
Theorem send_splits_the_data_into_segments (tsc : nat -> Z) (sends : nat -> bool)
  (fuel : nat) (s : TCPSocket) (payload : list Z) :
  state_ s = Established -> 0 < maximum_segment_size_ s ->
  (forall k, sends k = true) ->
  0 <= send_sequence_ s < 4294967296 ->
  (length payload <= fuel)%nat ->
  exists (sent : nat) (s' : TCPSocket) (segments : list TCPSegment)
         (buffers : list SendBuffer),
    send tsc sends fuel s payload = Some (Z.of_nat sent, s', segments) /\
    (sent <= length payload)%nat /\ (payload <> [] -> (0 < sent)%nat) /\
    concat (map data segments) = take sent payload /\
    Forall (fun seg => 0 < Z.of_nat (length (data seg)) <= maximum_segment_size_ s)
           segments /\
    send_buffers_ s' = send_buffers_ s ++ buffers /\
    map sb_data buffers = map data segments /\
    send_sequence_ s' = u32 (send_sequence_ s + Z.of_nat sent) /\
    ((sent < length payload)%nat ->
     send_window_ s < u32 (send_sequence_ s' - send_unacknowledged_ s)).
Proof.
  intros Hstate Hmss Hsends Hseq Hfuel.
  destruct (send_loop_spec tsc sends (maximum_segment_size_ s) fuel Hmss Hsends
              0%nat s payload 0 [] eq_refl Hfuel Hseq)
    as (n & s' & segments & buffers & Eloop & Hn & Hpos & Hcat & Hall & Hbufs
        & Hmap & Hsq & _ & _ & Hstop).
  exists n, s', segments, buffers.
  unfold send. rewrite Hstate. cbn [TCPState_eqb negb]. rewrite Eloop.
  repeat split; try assumption.
Qed.

Lemma send_splits_witness :
  exists (sent : nat) (s' : TCPSocket) (segments : list TCPSegment)
         (buffers : list SendBuffer),
    send (fun _ => 7) (fun _ => true) 3000 idle_connection (replicate 3000 65)
    = Some (Z.of_nat sent, s', segments) /\
    (sent <= length (replicate 3000 65))%nat /\
    (replicate 3000 65 <> [] -> (0 < sent)%nat) /\
    concat (map data segments) = take sent (replicate 3000 65) /\
    Forall (fun seg => 0 < Z.of_nat (length (data seg)) <= 1460) segments /\
    send_buffers_ s' = send_buffers_ idle_connection ++ buffers /\
    map sb_data buffers = map data segments /\
    send_sequence_ s' = u32 (send_sequence_ idle_connection + Z.of_nat sent) /\
    ((sent < length (replicate 3000 65))%nat ->
     send_window_ idle_connection
     < u32 (send_sequence_ s' - send_unacknowledged_ idle_connection)).
Proof.
  apply (send_splits_the_data_into_segments (fun _ => 7) (fun _ => true) 3000
           idle_connection (replicate 3000 65)).
  - reflexivity.
  - reflexivity.
  - intros k. reflexivity.
  - cbn. lia.
  - rewrite length_replicate. lia.
Defined.

End TCPDataFacts.

(** ** Virtual memory manager: entries and mappings *)

Module VMMMapFacts.
Import Ints VMM VMMFacts.

Lemma set_address_zero (x : Z) : set_address 0 x = get_address x.
Proof. unfold set_address, get_address. rewrite Z.land_0_l, Z.lor_0_l. reflexivity. Qed.

Lemma get_address_bits (x k : Z) :
  0 <= k ->
  Z.testbit (get_address x) k = (12 <=? k) && (k <? 52) && Z.testbit x k.
Proof.
  intros Hk. unfold get_address.
  change (2 ^ 40 - 1) with (Z.ones 40). rewrite Z.land_ones by lia.
  destruct (Z.leb_spec 12 k) as [H12|H12]; cbn [andb].
  - rewrite Z.shiftl_spec by lia.
    destruct (Z.ltb_spec k 52) as [H52|H52]; cbn [andb].
    + rewrite Z.mod_pow2_bits_low by lia. rewrite Z.shiftr_spec by lia.
      f_equal. lia.
    + apply Z.mod_pow2_bits_high. lia.
  - apply Z.shiftl_spec_low. lia.
Qed.

Lemma set_field_bits (raw bit k : Z) (v : bool) :
  0 <= bit -> 0 <= k ->
  Z.testbit (set_field raw bit v) k = if k =? bit then v else Z.testbit raw k.
Proof.
  intros Hb Hk. unfold set_field. destruct v.
  - rewrite Z.setbit_eqb by lia. rewrite (Z.eqb_sym k bit).
    destruct (bit =? k); reflexivity.
  - rewrite Z.clearbit_eqb. rewrite (Z.eqb_sym k bit).
    destruct (bit =? k); [apply andb_false_r | apply andb_true_r].
Qed.

(** The bits of a leaf entry: the seven flags [map_page_internal]
    copies, the frame number in bits 12 to 51, nothing else. *)
Lemma leaf_entry_bits (phys flags k : Z) :
  0 <= k ->
  Z.testbit (leaf_entry phys flags) k
  = if k =? 63 then has_flag flags NoExecute
    else if k =? 8 then has_flag flags Global
    else if k =? 4 then has_flag flags CacheDisabled
    else if k =? 3 then has_flag flags WriteThrough
    else if k =? 2 then has_flag flags UserAccessible
    else if k =? 1 then has_flag flags Writable
    else if k =? 0 then has_flag flags Present
    else (12 <=? k) && (k <? 52) && Z.testbit phys k.
Proof.
  intros Hk. unfold leaf_entry.
  rewrite !set_field_bits by lia. rewrite set_address_zero, get_address_bits by lia.
  reflexivity.
Qed.

Lemma aligned_frame_bits (phys k : Z) :
  phys mod PAGE_SIZE = 0 -> 0 <= phys < 2 ^ 52 -> 0 <= k ->
  (12 <=? k) && (k <? 52) && Z.testbit phys k = Z.testbit phys k.
Proof.
  unfold PAGE_SIZE. intros Hal Hrange Hk.
  destruct (Z.leb_spec 12 k) as [H12|H12]; cbn [andb].
  - destruct (Z.ltb_spec k 52) as [H52|H52]; cbn [andb]; [reflexivity|].
    rewrite <- (Z.mod_small phys (2 ^ 52)) by lia.
    symmetry. apply Z.mod_pow2_bits_high. lia.
  - rewrite <- (Z.mod_pow2_bits_low phys 12 k) by lia.
    change (2 ^ 12) with 4096. rewrite Hal. symmetry. apply Z.bits_0.
Qed.

Lemma get_address_leaf_entry (phys flags : Z) :
  phys mod PAGE_SIZE = 0 -> 0 <= phys < 2 ^ 52 ->
  get_address (leaf_entry phys flags) = phys.
Proof.
  intros Hal Hrange. apply Z.bits_inj'. intros k Hk.
  rewrite get_address_bits, leaf_entry_bits by lia.
  rewrite <- (aligned_frame_bits phys k Hal Hrange Hk) at 2.
  destruct (Z.leb_spec 12 k) as [H12|H12]; cbn [andb]; [|reflexivity].
  destruct (Z.ltb_spec k 52) as [H52|H52]; cbn [andb]; [|reflexivity].
  replace (k =? 63) with false by (symmetry; apply Z.eqb_neq; lia).
  replace (k =? 8) with false by (symmetry; apply Z.eqb_neq; lia).
  replace (k =? 4) with false by (symmetry; apply Z.eqb_neq; lia).
  replace (k =? 3) with false by (symmetry; apply Z.eqb_neq; lia).
  replace (k =? 2) with false by (symmetry; apply Z.eqb_neq; lia).
  replace (k =? 1) with false by (symmetry; apply Z.eqb_neq; lia).
  replace (k =? 0) with false by (symmetry; apply Z.eqb_neq; lia).
  reflexivity.
Qed.

(** Encoding a leaf entry and reading it back: the frame address comes
    back as given, each accessor reads the flag that was passed, and
    the entry is never a huge page. *)
Theorem leaf_entry_round_trip (phys flags : Z) :
  phys mod PAGE_SIZE = 0 -> 0 <= phys < 2 ^ 52 ->
  get_address (leaf_entry phys flags) = phys /\
  is_present (leaf_entry phys flags) = has_flag flags Present /\
  is_huge (leaf_entry phys flags) = false /\
  Z.testbit (leaf_entry phys flags) 1 = has_flag flags Writable /\
  Z.testbit (leaf_entry phys flags) 2 = has_flag flags UserAccessible /\
  Z.testbit (leaf_entry phys flags) 8 = has_flag flags Global /\
  Z.testbit (leaf_entry phys flags) 63 = has_flag flags NoExecute.
Proof.
  intros Hal Hrange. split.
  - apply get_address_leaf_entry; assumption.
  - unfold is_present, is_huge.
    rewrite !leaf_entry_bits by lia. cbn [Z.eqb Pos.eqb Z.leb Z.compare andb].
    repeat split; reflexivity.
Qed.

Lemma leaf_entry_witness :
  get_address (leaf_entry 0x101000 3) = 0x101000 /\
  is_present (leaf_entry 0x101000 3) = has_flag 3 Present /\
  is_huge (leaf_entry 0x101000 3) = false /\
  Z.testbit (leaf_entry 0x101000 3) 1 = has_flag 3 Writable /\
  Z.testbit (leaf_entry 0x101000 3) 2 = has_flag 3 UserAccessible /\
  Z.testbit (leaf_entry 0x101000 3) 8 = has_flag 3 Global /\
  Z.testbit (leaf_entry 0x101000 3) 63 = has_flag 3 NoExecute.
Proof.
  apply (leaf_entry_round_trip 0x101000 3); [reflexivity | lia].
Defined.

(** *** Mapping a page *)

(** Writing the leaf entry leaves the walk to it as it was, when the
    page table is not one of the upper tables. *)
Lemma descent_after_leaf_write (m : Memory) (root virt t3 t2 t1 t0 v : Z) :
  root mod PAGE_SIZE = 0 ->
  unmap_descend m root virt [3; 2; 1]%nat = Some [t3; t2; t1; t0] ->
  t0 <> t1 -> t0 <> t2 -> t0 <> t3 ->
  let m' := write m t0 (index_of virt 0) v in
  read m' t3 (index_of virt 3) = read m t3 (index_of virt 3) /\
  read m' t2 (index_of virt 2) = read m t2 (index_of virt 2) /\
  read m' t1 (index_of virt 1) = read m t1 (index_of virt 1) /\
  unmap_descend m' root virt [3; 2; 1]%nat = Some [t3; t2; t1; t0].
Proof.
  intros Hroot Hwalk H01 H02 H03 m'.
  destruct (descent_aligned _ _ _ _ _ _ _ Hroot Hwalk) as (A3 & A2 & A1 & A0).
  assert (K3 : read m' t3 (index_of virt 3) = read m t3 (index_of virt 3))
    by (apply read_write_other; auto using index_of_range).
  assert (K2 : read m' t2 (index_of virt 2) = read m t2 (index_of virt 2))
    by (apply read_write_other; auto using index_of_range).
  assert (K1 : read m' t1 (index_of virt 1) = read m t1 (index_of virt 1))
    by (apply read_write_other; auto using index_of_range).
  repeat split; try assumption.
  destruct (descent_entries _ _ _ _ _ _ _ Hwalk) as (E3 & P3 & E2 & P2 & E1 & P1 & E0).
  cbn [unmap_descend].
  rewrite <- E3, K3, P3. cbn [negb]. rewrite <- E2, K2, P2. cbn [negb].
  rewrite <- E1, K1, P1. cbn [negb]. rewrite <- E0. reflexivity.
Qed.

(** With the tables of the walk in place the descent of
    [map_page_internal] allocates nothing. *)
Lemma map_descend_existing (s : State) (root virt t3 t2 t1 t0 : Z) :
  unmap_descend (mem s) root virt [3; 2; 1]%nat = Some [t3; t2; t1; t0] ->
  map_descend s root virt [3; 2; 1]%nat = (Some t0, s).
Proof.
  intros Hwalk.
  destruct (descent_entries _ _ _ _ _ _ _ Hwalk) as (E3 & P3 & E2 & P2 & E1 & P1 & E0).
  subst t3. cbn [map_descend]. unfold get_next_table.
  rewrite P3. cbn [negb]. rewrite <- E2, P2. cbn [negb].
  rewrite <- E1, P1. cbn [negb]. rewrite <- E0. reflexivity.
Qed.

(** [map_page] on a page whose tables exist and whose leaf entry is
    free writes the entry and counts the mapping; with the Present flag
    the page then translates, every address of it to the frame plus
    its offset, and any further [map_page] of the page is refused and
    changes nothing. *)
Theorem mapped_page_translates (s : State) (virt phys flags off t3 t2 t1 t0 : Z) :
  virt mod PAGE_SIZE = 0 -> phys mod PAGE_SIZE = 0 -> 0 <= phys < 2 ^ 52 ->
  0 <= off < PAGE_SIZE ->
  pml4 (current_space_ s) mod PAGE_SIZE = 0 ->
  unmap_descend (mem s) (pml4 (current_space_ s)) virt [3; 2; 1]%nat
    = Some [t3; t2; t1; t0] ->
  is_huge (read (mem s) t3 (index_of virt 3)) = false ->
  is_huge (read (mem s) t2 (index_of virt 2)) = false ->
  is_huge (read (mem s) t1 (index_of virt 1)) = false ->
  is_present (read (mem s) t0 (index_of virt 0)) = false ->
  t0 <> t1 -> t0 <> t2 -> t0 <> t3 ->
  has_flag flags Present = true ->
  let s' := mkState (write (mem s) t0 (index_of virt 0) (leaf_entry phys flags))
                    (count_mapping (current_space_ s) 1) (pmm s)
                    (virt :: invalidated s) in
  map_page s virt phys flags = (true, s') /\
  get_physical_address s' (virt + off) = Some (phys + off) /\
  forall phys' flags', map_page s' virt phys' flags' = (false, s').
Proof.
  intros Hvirt Hphys Hrange Hoff Hroot Hwalk G3 G2 G1 Hfree H01 H02 H03 Hpresent s'.
  assert (Hleaf : read (mem s') t0 (index_of virt 0) = leaf_entry phys flags)
    by apply read_write_same.
  assert (Hp : is_present (leaf_entry phys flags) = true).
  { unfold is_present. rewrite leaf_entry_bits by lia. exact Hpresent. }
  assert (Ha : get_address (leaf_entry phys flags) = phys)
    by (apply get_address_leaf_entry; assumption).
  destruct (descent_after_leaf_write (mem s) _ virt t3 t2 t1 t0 (leaf_entry phys flags)
              Hroot Hwalk H01 H02 H03) as (K3 & K2 & K1 & Hwalk').
  split; [|split].
  - unfold map_page, map_page_internal.
    replace (virt mod PAGE_SIZE =? 0) with true by (symmetry; apply Z.eqb_eq; exact Hvirt).
    replace (phys mod PAGE_SIZE =? 0) with true by (symmetry; apply Z.eqb_eq; exact Hphys).
    cbn [negb orb]. rewrite (map_descend_existing _ _ _ _ _ _ _ Hwalk), Hfree.
    reflexivity.
  - unfold get_physical_address, walk_page_table.
    rewrite (walk_reaches_leaf _ _ _ t3 t2 t1 t0);
      rewrite ?descent_offset, ?index_of_offset by assumption;
      try assumption; try (cbn [mem s']; rewrite ?K3, ?K2, ?K1; assumption).
    rewrite Hleaf, Hp, Ha. cbn [negb].
    rewrite page_offset by assumption.
    unfold PAGE_SIZE in Hoff. unfold u64, wrap. rewrite Z.mod_small by lia. reflexivity.
  - intros phys' flags'. unfold map_page, map_page_internal.
    destruct (negb (virt mod PAGE_SIZE =? 0) || negb (phys' mod PAGE_SIZE =? 0));
      [reflexivity|].
    rewrite (map_descend_existing s' _ virt t3 t2 t1 t0) by exact Hwalk'.
    rewrite Hleaf, Hp. reflexivity.
Qed.

Lemma mapped_page_witness :
  let s' := mkState (write (mem one_mapping) 0x104000 (index_of 0x401000 0)
                           (leaf_entry 0x105000 3))
                    (count_mapping (current_space_ one_mapping) 1) (pmm one_mapping)
                    (0x401000 :: invalidated one_mapping) in
  map_page one_mapping 0x401000 0x105000 3 = (true, s') /\
  get_physical_address s' (0x401000 + 0x10) = Some (0x105000 + 0x10) /\
  forall phys' flags', map_page s' 0x401000 phys' flags' = (false, s').
Proof.
  apply (mapped_page_translates one_mapping 0x401000 0x105000 3 0x10
           0x100000 0x102000 0x103000 0x104000);
    vm_compute; first [reflexivity | split; congruence | congruence].
Defined.

End VMMMapFacts.

(** ** Physical memory manager: counters and single pages *)

Module PMMCounterFacts.
Import Ints PMM PMMFacts.

Lemma clear_after_set (bm : list bool) :
  forall i, bm !! i = Some false ->
            S (length (filter (fun b => b = false) (<[i := true]> bm)))
            = length (filter (fun b => b = false) bm).
Proof.
  induction bm as [|b bm IH]; intros i H; [discriminate H|].
  destruct i as [|i]; cbn [lookup list_lookup] in H.
  - injection H as ->. cbn [insert list_insert]. rewrite !filter_cons.
    destruct (decide (true = false)) as [E|_]; [discriminate E|].
    destruct (decide (false = false)) as [_|E]; [reflexivity | contradiction].
  - cbn [insert list_insert]. rewrite !filter_cons.
    destruct (decide (b = false)); cbn [length]; rewrite <- (IH i H); reflexivity.
Qed.

Lemma clear_after_reset (bm : list bool) :
  forall i, bm !! i = Some true ->
            length (filter (fun b => b = false) (<[i := false]> bm))
            = S (length (filter (fun b => b = false) bm)).
Proof.
  induction bm as [|b bm IH]; intros i H; [discriminate H|].
  destruct i as [|i]; cbn [lookup list_lookup] in H.
  - injection H as ->. cbn [insert list_insert]. rewrite !filter_cons.
    destruct (decide (true = false)) as [E|_]; [discriminate E|].
    destruct (decide (false = false)) as [_|E]; [reflexivity | contradiction].
  - cbn [insert list_insert]. rewrite !filter_cons.
    destruct (decide (b = false)); cbn [length]; rewrite <- (IH i H); reflexivity.
Qed.

Lemma test_lookup (bm : list bool) (i : nat) (v : bool) :
  (i < length bm)%nat -> test bm i = v -> bm !! i = Some v.
Proof.
  intros Hi <-. unfold test.
  destruct (lookup_lt_is_Some_2 bm i Hi) as [b ->]. reflexivity.
Qed.

Lemma clear_in_single (r : MemoryRegion) :
  clear_in [r] = Z.of_nat (length (filter (fun b => b = false) (region_bitmap r))).
Proof. unfold clear_in, list_sum. cbn [map foldr fold_right]. lia. Qed.

Lemma clear_in_cons (r : MemoryRegion) (rs : list MemoryRegion) :
  clear_in (r :: rs)
  = Z.of_nat (length (filter (fun b => b = false) (region_bitmap r))) + clear_in rs.
Proof. unfold clear_in, list_sum. cbn [map foldr fold_right]. lia. Qed.

Lemma pages_in_cons (r : MemoryRegion) (rs : list MemoryRegion) :
  pages_in (r :: rs) = Z.of_nat (length (region_bitmap r)) + pages_in rs.
Proof. unfold pages_in, list_sum. cbn [map foldr fold_right]. lia. Qed.

Lemma clear_in_bound (rs : list MemoryRegion) : 0 <= clear_in rs <= pages_in rs.
Proof.
  induction rs as [|r rs IH]; [unfold clear_in, pages_in; cbn; lia|].
  rewrite clear_in_cons, pages_in_cons.
  pose proof (length_filter (fun b => b = false) (region_bitmap r)). lia.
Qed.

Lemma u64_id (x : Z) : 0 <= x < 2 ^ 52 -> u64 x = x.
Proof. intros H. apply u64_small. lia. Qed.

Lemma allocate_page_in_consistent (rs : list MemoryRegion) :
  forall a rs', Forall region_ok rs -> pages_in rs < 2 ^ 52 ->
                allocate_page_in rs = Some (a, rs') ->
                Forall region_ok rs' /\ clear_in rs' + 1 = clear_in rs /\
                pages_in rs' = pages_in rs.
Proof.
  induction rs as [|r rs IH]; intros a rs' Hok Hpages H; [discriminate H|].
  apply Forall_cons in Hok as [(Hlen & Htot & Hfree) Hok].
  rewrite pages_in_cons in Hpages. pose proof (clear_in_bound rs) as Brs.
  cbn [allocate_page_in] in H.
  destruct (find_free_page_in_region r) as [page|] eqn:E.
  - injection H as _ <-.
    destruct (find_free_from_spec _ _ _ _ E) as [Ht Hp].
    assert (Hl : region_bitmap r !! page = Some false)
      by (apply test_lookup; [lia | exact Ht]).
    pose proof (clear_after_set _ _ Hl) as Hc.
    pose proof (length_filter (fun b => b = false) (region_bitmap r)) as Hle.
    rewrite clear_in_single in Hfree.
    split; [|split].
    + constructor; [|exact Hok]. unfold region_ok, set.
      cbn [region_bitmap region_total_pages region_free_pages].
      rewrite length_insert, clear_in_single. cbn [region_bitmap].
      split; [exact Hlen|]. split; [exact Htot|].
      rewrite Hfree. rewrite u64_id by lia. lia.
    + rewrite !clear_in_cons. unfold set. cbn [region_bitmap]. lia.
    + rewrite !pages_in_cons. unfold set. cbn [region_bitmap].
      rewrite length_insert. reflexivity.
  - destruct (allocate_page_in rs) as [[a0 rest]|] eqn:Er; [|discriminate H].
    injection H as _ <-.
    destruct (IH a0 rest Hok ltac:(lia) eq_refl) as (Hok' & Hclear & Hsame).
    split; [|split].
    + constructor; [repeat split; assumption | exact Hok'].
    + rewrite !clear_in_cons. lia.
    + rewrite !pages_in_cons. lia.
Qed.

Lemma free_page_in_consistent (rs : list MemoryRegion) (page : Z) :
  forall rs', Forall region_ok rs -> pages_in rs < 2 ^ 52 ->
              free_page_in rs page = Some rs' ->
              Forall region_ok rs' /\ clear_in rs' = clear_in rs + 1 /\
              pages_in rs' = pages_in rs.
Proof.
  induction rs as [|r rs IH]; intros rs' Hok Hpages H; [discriminate H|].
  apply Forall_cons in Hok as [(Hlen & Htot & Hfree) Hok].
  rewrite pages_in_cons in Hpages. pose proof (clear_in_bound rs) as Brs.
  cbn [free_page_in] in H.
  destruct (in_region r page).
  - destruct (Z.leb_spec (region_total_pages r) (Z.of_nat (page_index r page)))
      as [Hi|Hi]; [discriminate H|].
    destruct (test (region_bitmap r) (page_index r page)) eqn:Ht;
      cbn [negb] in H; [|discriminate H].
    injection H as <-.
    assert (Hl : region_bitmap r !! page_index r page = Some true)
      by (apply test_lookup; [lia | exact Ht]).
    pose proof (clear_after_reset _ _ Hl) as Hc.
    pose proof (length_filter (fun b => b = false)
                  (<[page_index r page := false]> (region_bitmap r))) as Hle.
    rewrite length_insert in Hle.
    rewrite clear_in_single in Hfree.
    split; [|split].
    + constructor; [|exact Hok]. unfold region_ok, set.
      cbn [region_bitmap region_total_pages region_free_pages].
      rewrite length_insert, clear_in_single. cbn [region_bitmap].
      split; [exact Hlen|]. split; [exact Htot|].
      rewrite Hfree. rewrite u64_id by lia. lia.
    + rewrite !clear_in_cons. unfold set. cbn [region_bitmap]. lia.
    + rewrite !pages_in_cons. unfold set. cbn [region_bitmap].
      rewrite length_insert. reflexivity.
  - destruct (free_page_in rs page) as [rest|] eqn:Er; [|discriminate H].
    injection H as <-.
    destruct (IH rest Hok ltac:(lia) eq_refl) as (Hok' & Hclear & Hsame).
    split; [|split].
    + constructor; [repeat split; assumption | exact Hok'].
    + rewrite !clear_in_cons. lia.
    + rewrite !pages_in_cons. lia.
Qed.

(** [allocate_page] and [free_page] keep the counters true to the
    bitmaps: from a state in which every region counts its clear bits
    and the manager's free, used and memory counters add up, both
    return a state of that kind, whether they succeed or refuse. *)
Theorem single_page_calls_keep_the_counters (s : State) :
  consistent s ->
  consistent (snd (allocate_page s)) /\
  forall page, consistent (free_page s page).
Proof.
  intros (Hok & Htotal & Hbound & Hfree & Hused & Hfm & Hum).
  pose proof (clear_in_bound (regions_ s)) as B.
  assert (Hpages : pages_in (regions_ s) < 2 ^ 52) by lia.
  unfold PAGE_SIZE in *.
  split.
  - unfold allocate_page.
    destruct (allocate_page_in (regions_ s)) as [[a rs]|] eqn:E;
      [|cbn [snd]; unfold consistent, PAGE_SIZE; auto 10].
    destruct (allocate_page_in_consistent _ _ _ Hok Hpages E) as (Hok' & Hclear & Hsame).
    pose proof (clear_in_bound rs) as B'.
    cbn [snd]. unfold consistent, charge, PAGE_SIZE.
    cbn [regions_ total_pages_ free_pages_ used_pages_ free_memory_ used_memory_].
    rewrite !u64_small by lia.
    repeat split; try assumption; lia.
  - intros page. unfold free_page.
    destruct (negb _);
      [unfold consistent, PAGE_SIZE; auto 10|].
    destruct (free_page_in (regions_ s) page) as [rs|] eqn:E;
      [|unfold consistent, PAGE_SIZE; auto 10].
    destruct (free_page_in_consistent _ _ _ Hok Hpages E) as (Hok' & Hclear & Hsame).
    pose proof (clear_in_bound rs) as B'.
    unfold consistent, refund, PAGE_SIZE.
    cbn [regions_ total_pages_ free_pages_ used_pages_ free_memory_ used_memory_].
    rewrite !u64_small by lia.
    repeat split; try assumption; lia.
Qed.

Lemma single_page_calls_witness :
  consistent (snd (allocate_page (snd (allocate_page (fresh 1048576 4))))) /\
  forall page, consistent (free_page (snd (allocate_page (fresh 1048576 4))) page).
Proof.
  apply (single_page_calls_keep_the_counters (snd (allocate_page (fresh 1048576 4)))).
  unfold consistent. split.
  - constructor; [|constructor]. unfold region_ok.
    repeat split; vm_compute; first [reflexivity | congruence].
  - repeat split; vm_compute; first [reflexivity | congruence].
Defined.

Lemma u64_back (x : Z) : 0 <= x < 2 ^ 64 -> u64 (u64 (x - 1) + 1) = x /\
                                             u64 (u64 (x + 1) - 1) = x.
Proof.
  intros H. unfold u64, wrap. split.
  - rewrite Zplus_mod_idemp_l. replace (x - 1 + 1) with x by lia.
    apply Z.mod_small. exact H.
  - rewrite Zminus_mod_idemp_l. replace (x + 1 - 1) with x by lia.
    apply Z.mod_small. exact H.
Qed.

(** Allocating a page and freeing it again is a round trip: on a
    single page-aligned region that ends below 2^64, with one bitmap
    bit per page and counters within 64 bits, [free_page] of the
    address [allocate_page] returned restores the bitmap and every
    counter; only the two statistics of frames allocated and freed have
    each moved by one. *)
Theorem freeing_the_allocated_page_restores_the_state (s s' : State)
  (r : MemoryRegion) (a : Z) :
  regions_ s = [r] ->
  0 <= region_base r -> region_base r mod PAGE_SIZE = 0 ->
  region_size r = region_total_pages r * PAGE_SIZE ->
  region_base r + region_size r < 2 ^ 64 ->
  length (region_bitmap r) = Z.to_nat (region_total_pages r) ->
  0 <= region_free_pages r < 2 ^ 64 ->
  0 <= free_pages_ s < 2 ^ 64 -> 0 <= used_pages_ s < 2 ^ 64 ->
  0 <= free_memory_ s < 2 ^ 64 -> 0 <= used_memory_ s < 2 ^ 64 ->
  allocate_page s = (Some a, s') ->
  free_page s' a
  = mkState (regions_ s) (total_pages_ s) (free_pages_ s) (used_pages_ s)
            (free_memory_ s) (used_memory_ s)
            (u64 (page_frames_allocated_ s + 1)) (u64 (page_frames_freed_ s + 1)).
Proof.
  intros Hrs Hbase Hal Hsize Hend Hlen Hrf Hf Hu Hfm Hum H.
  unfold allocate_page in H. rewrite Hrs in H. cbn [allocate_page_in] in H.
  destruct (find_free_page_in_region r) as [page|] eqn:E; [|discriminate].
  injection H as <- <-.
  destruct (find_free_from_spec _ _ _ _ E) as [Hfree Hpage].
  unfold PAGE_SIZE in *.
  assert (Hpg : Z.of_nat page < region_total_pages r) by lia.
  assert (Hl : region_bitmap r !! page = Some false)
    by (apply test_lookup; [lia | exact Hfree]).
  rewrite (u64_small (region_base r + Z.of_nat page * 4096)) by lia.
  assert (Haligned : (region_base r + Z.of_nat page * 4096) mod 4096 = 0)
    by (rewrite Z.add_mod, Hal, Z.mod_mul by lia; reflexivity).
  unfold free_page, PAGE_SIZE. rewrite Haligned. cbn [Z.eqb negb].
  cbn [charge regions_ free_page_in].
  unfold in_region. cbn [region_base region_size].
  rewrite (u64_small (region_base r + region_size r)) by lia.
  replace (region_base r <=? region_base r + Z.of_nat page * 4096) with true
    by (symmetry; apply Z.leb_le; lia).
  replace (region_base r + Z.of_nat page * 4096 <? region_base r + region_size r)
    with true by (symmetry; apply Z.ltb_lt; lia).
  cbn [andb]. unfold page_index, PAGE_SIZE. cbn [region_base region_total_pages].
  replace (region_base r + Z.of_nat page * 4096 - region_base r)
    with (Z.of_nat page * 4096) by lia.
  rewrite Z.div_mul, Nat2Z.id by lia.
  replace (region_total_pages r <=? Z.of_nat page) with false
    by (symmetry; apply Z.leb_gt; lia).
  cbn [region_bitmap region_free_pages]. unfold test, set.
  rewrite list_lookup_insert_eq by lia. cbn [default negb]. unfold id. cbn [negb].
  unfold refund, charge.
  cbn [regions_ total_pages_ free_pages_ used_pages_ free_memory_ used_memory_
       page_frames_allocated_ page_frames_freed_ region_free_pages].
  rewrite list_insert_insert_eq, list_insert_id by exact Hl.
  destruct (u64_back (region_free_pages r) Hrf) as [-> _].
  destruct (u64_back (free_pages_ s) Hf) as [-> _].
  destruct (u64_back (used_pages_ s) Hu) as [_ ->].
  unfold u64, wrap.
  rewrite Zplus_mod_idemp_l, Zminus_mod_idemp_l. unfold PAGE_SIZE.
  replace (free_memory_ s - 1 * 4096 + 1 * 4096) with (free_memory_ s) by lia.
  replace (used_memory_ s + 1 * 4096 - 1 * 4096) with (used_memory_ s) by lia.
  rewrite (Z.mod_small (free_memory_ s)), (Z.mod_small (used_memory_ s)) by lia.
  rewrite Hrs. destruct r. reflexivity.
Qed.

Lemma freeing_the_allocated_page_witness :
  free_page (snd (allocate_page (fresh 1048576 4))) 1048576
  = mkState (regions_ (fresh 1048576 4)) 4 4 0 16384 0 (u64 (0 + 1)) (u64 (0 + 1)).
Proof.
  apply (freeing_the_allocated_page_restores_the_state (fresh 1048576 4)
           (snd (allocate_page (fresh 1048576 4)))
           (mkRegion 1048576 16384 4 4 (replicate 4 false)) 1048576);
    vm_compute; first [reflexivity | split; congruence | congruence].
Defined.

End PMMCounterFacts.

(** ** Scheduler: selection and preemption *)

Module SchedSelectFacts.
Import Ints Sched.

Lemma with_threads_id (s : Scheduler) : with_threads s (thread_heap s) = s.
Proof. destruct s. reflexivity. Qed.

(** Marking a Ready thread Ready changes nothing. *)
Lemma set_state_ready_id (h : gmap nat Thread) (t : nat) :
  ThreadState_eqb (get_state h t) Ready = true -> set_state h t Ready = h.
Proof.
  unfold get_state, set_state. destruct (h !! t) as [th|] eqn:E; [|reflexivity].
  intros H. destruct th as [st p su pr]. cbn in *.
  destruct st; try discriminate H. apply insert_id. exact E.
Qed.

Lemma step_index (c i len : nat) :
  (((c + 1) mod len + i) mod len = (c + S i) mod len)%nat.
Proof.
  rewrite Nat.Div0.add_mod_idemp_l. f_equal. lia.
Qed.

(** The scan of one band, started inside the band: the thread it
    returns is the first runnable one in cyclic order from the current
    index, which then stands just past it. *)
Lemma scan_band_spec (s : Scheduler) (ct : Z) (h : gmap nat Thread) (n : nat) :
  forall q, (current_index q < length (threads q))%nat ->
  scan_result s ct h q n (scan_band s ct h q n).
Proof.
  induction n as [|n IH]; intros q Hc.
  - cbn [scan_band]. unfold scan_result. repeat split. intros j t' Hj. lia.
  - cbn [scan_band].
    set (len := length (threads q)) in *. set (c := current_index q) in *.
    destruct (lookup_lt_is_Some_2 (threads q) c Hc) as [t0 Ht0].
    rewrite Ht0. cbn [default]. unfold id.
    assert (Hc0 : ((c + 0) mod len = c)%nat)
      by (rewrite Nat.add_0_r; apply Nat.mod_small; exact Hc).
    assert (Hnext : (current_index (mkQueue (threads q) ((c + 1) mod len))
                     < length (threads (mkQueue (threads q) ((c + 1) mod len))))%nat)
      by (cbn [current_index threads]; apply Nat.mod_upper_bound; unfold len; lia).
    pose proof (IH _ Hnext) as IHq.
    assert (Hrec :
      runnable (with_threads s h) ct t0 = false ->
      scan_result s ct h q (S n)
        (scan_band s ct h (mkQueue (threads q) ((c + 1) mod len)%nat) n)).
    { intros Hno. unfold scan_result in *.
      cbn [current_index threads] in IHq. fold len c in IHq |- *.
      destruct (scan_band s ct h (mkQueue (threads q) ((c + 1) mod len)%nat) n)
        as [[[t|] q'] h'].
      - destruct IHq as (i & Hi & Hat & Hrun & Hbefore & Hq & Hh).
        exists (S i). rewrite step_index in Hat.
        split; [lia|]. split; [exact Hat|]. split; [exact Hrun|].
        split; [|split; [|exact Hh]].
        + intros j t' Hj Hl. destruct j as [|j].
          * rewrite Hc0, Ht0 in Hl. injection Hl as <-. exact Hno.
          * apply (Hbefore j t'); [lia|]. rewrite step_index. exact Hl.
        + rewrite Hq. f_equal.
          replace ((c + 1) mod len + i + 1)%nat with ((c + 1) mod len + (i + 1))%nat by lia.
          rewrite Nat.Div0.add_mod_idemp_l. f_equal. lia.
      - destruct IHq as (Hh & Hq & Hnone). split; [exact Hh|]. split; [exact Hq|].
        intros j t' Hj Hl. destruct j as [|j].
        + rewrite Hc0, Ht0 in Hl. injection Hl as <-. exact Hno.
        + apply (Hnone j t'); [lia|]. rewrite step_index. exact Hl. }
    unfold runnable in Hrec at 1. cbn [thread_heap with_threads] in Hrec.
    destruct (validate_thread (with_threads s h) t0) eqn:Hv; [|apply Hrec; reflexivity].
    destruct (ThreadState_eqb (get_state h t0) Ready) eqn:Hr.
    + unfold scan_result. fold len c.
      exists 0%nat. rewrite Hc0. split; [lia|]. split; [exact Ht0|].
      split; [unfold runnable; cbn [thread_heap with_threads]; rewrite Hv, Hr; reflexivity|].
      split; [intros j t' Hj; lia|]. split; [f_equal; f_equal; lia|].
      symmetry. apply set_state_ready_id. exact Hr.
    + destruct (ThreadState_eqb (get_state h t0) Sleeping && should_wake_up h t0 ct) eqn:Hw.
      * unfold scan_result. fold len c.
        exists 0%nat. rewrite Hc0. split; [lia|]. split; [exact Ht0|].
        split; [unfold runnable; cbn [thread_heap with_threads]; rewrite Hv, Hr, Hw;
                reflexivity|].
        split; [intros j t' Hj; lia|]. split; [f_equal; f_equal; lia|reflexivity].
      * apply Hrec. reflexivity.
Qed.

Lemma cyclic_cover (c j len : nat) :
  (c < len)%nat -> (j < len)%nat ->
  exists i, (i < len)%nat /\ ((c + i) mod len = j)%nat.
Proof.
  intros Hc Hj. destruct (le_lt_dec c j) as [H|H].
  - exists (j - c)%nat. split; [lia|].
    replace (c + (j - c))%nat with j by lia. apply Nat.mod_small. exact Hj.
  - exists (len + j - c)%nat. split; [lia|].
    replace (c + (len + j - c))%nat with (j + 1 * len)%nat by lia.
    rewrite Nat.Div0.mod_add. apply Nat.mod_small. exact Hj.
Qed.

(** A full scan that returns nothing has found no runnable thread in
    the band. *)
Lemma scan_none_all (s : Scheduler) (ct : Z) (h h' : gmap nat Thread)
  (q q' : RunQueue) :
  (current_index q < length (threads q))%nat ->
  scan_result s ct h q (length (threads q)) (None, q', h') ->
  forall t, t ∈ threads q -> runnable (with_threads s h) ct t = false.
Proof.
  intros Hc (_ & _ & Hnone) t Hin.
  apply list_elem_of_lookup in Hin as [j Hj].
  pose proof (lookup_lt_Some _ _ _ Hj) as Hlt.
  destruct (cyclic_cover _ _ _ Hc Hlt) as (i & Hi & Heq).
  apply (Hnone i t Hi). rewrite Heq. exact Hj.
Qed.

(** The loop over the bands. *)
Lemma select_bands_spec (s : Scheduler) (ct : Z) (h : gmap nat Thread)
  (qs : list RunQueue) :
  match select_bands s ct h qs with
  | (Some t, qs', h') =>
      map threads qs' = map threads qs /\
      first_runnable (with_threads s h) ct qs qs' t /\
      h' = set_state h t Ready
  | (None, qs', h') =>
      map threads qs' = map threads qs /\
      none_runnable (with_threads s h) ct qs /\ h' = h
  end.
Proof.
  induction qs as [|q rest IH]; cbn [select_bands].
  - split; [reflexivity|]. split; [|reflexivity].
    intros q t Hq. apply elem_of_nil in Hq. destruct Hq.
  - destruct (threads q) as [|t1 ts] eqn:Eq.
    + destruct (select_bands s ct h rest) as [[[t|] rest'] h'].
      * destruct IH as (Hmap & (band & qb & i & Hb & Hi & Hat & Hrun & Hbefore & Hq' & Hearlier)
                        & Hh).
        split; [cbn [map]; rewrite Hmap; reflexivity|]. split; [|exact Hh].
        exists (S band), qb, i. repeat split; try assumption.
        intros band' q' t' Hlt Hl Hin. destruct band' as [|band'].
        -- cbn in Hl. injection Hl as <-. rewrite Eq in Hin.
           apply elem_of_nil in Hin. destruct Hin.
        -- apply (Hearlier band' q' t'); [lia | exact Hl | exact Hin].
      * destruct IH as (Hmap & Hnone & Hh).
        split; [cbn [map]; rewrite Hmap; reflexivity|]. split; [|exact Hh].
        intros q' t' Hq' Hin. apply elem_of_cons in Hq' as [->|Hq'].
        -- rewrite Eq in Hin. apply elem_of_nil in Hin. destruct Hin.
        -- apply (Hnone q' t' Hq' Hin).
    + rewrite <- Eq.
      set (len := length (threads q)).
      assert (Hlen : (0 < len)%nat) by (unfold len; rewrite Eq; cbn; lia).
      set (q0 := mkQueue (threads q) (current_index q mod len)%nat).
      assert (Hc : (current_index q0 < length (threads q0))%nat)
        by (cbn [q0 current_index threads]; apply Nat.mod_upper_bound; lia).
      pose proof (scan_band_spec s ct h (length (threads q0)) q0 Hc) as Hscan.
      destruct (scan_band s ct h q0 (length (threads q0))) as [[[t|] q'] h'] eqn:Es.
      * destruct Hscan as (i & Hi & Hat & Hrun & Hbefore & Hq' & Hh).
        cbn [q0 current_index threads] in Hi, Hat, Hbefore, Hq'. fold len in Hat, Hbefore, Hq'.
        rewrite Nat.Div0.add_mod_idemp_l in Hat.
        split; [cbn [map]; rewrite Hq'; reflexivity|]. split; [|exact Hh].
        exists 0%nat, q, i. fold len. repeat split; try assumption.
        -- intros j t' Hj Hl. apply (Hbefore j t' Hj).
           rewrite Nat.Div0.add_mod_idemp_l. exact Hl.
        -- cbn. rewrite Hq'. do 2 f_equal.
           replace (current_index q mod len + i + 1)%nat
             with (current_index q mod len + (i + 1))%nat by lia.
           rewrite Nat.Div0.add_mod_idemp_l. f_equal. lia.
        -- intros band' q'' t' Hlt. lia.
      * pose proof (scan_none_all s ct h h' q0 q' Hc Hscan) as Hnoneq.
        destruct Hscan as (Hh & Hq' & _). subst h'.
        destruct (select_bands s ct h rest) as [[[t|] rest'] h''].
        -- destruct IH as (Hmap & (band & qb & i & Hb & Hi & Hat & Hrun & Hbefore & Hqb
                                   & Hearlier) & Hh).
           split; [cbn [map]; rewrite Hmap, Hq'; reflexivity|]. split; [|exact Hh].
           exists (S band), qb, i. repeat split; try assumption.
           intros band' q'' t' Hlt Hl Hin. destruct band' as [|band'].
           ++ cbn in Hl. injection Hl as <-. apply Hnoneq. exact Hin.
           ++ apply (Hearlier band' q'' t'); [lia | exact Hl | exact Hin].
        -- destruct IH as (Hmap & Hnone & Hh).
           split; [cbn [map]; rewrite Hmap, Hq'; reflexivity|]. split; [|exact Hh].
           intros q'' t' Hq'' Hin. apply elem_of_cons in Hq'' as [->|Hq''].
           ++ apply Hnoneq. exact Hin.
           ++ apply (Hnone q'' t' Hq'' Hin).
Qed.

Lemma get_state_set_state (h : gmap nat Thread) (t : nat) (st : ThreadState) :
  is_Some (h !! t) -> get_state (set_state h t st) t = st.
Proof.
  intros [th E]. unfold get_state, set_state. rewrite E, lookup_insert_eq. reflexivity.
Qed.

Lemma validate_thread_in_heap (s : Scheduler) (t : nat) :
  validate_thread s t = true -> is_Some (thread_heap s !! t).
Proof.
  unfold validate_thread. destruct (Nat.eqb t 0); [discriminate|].
  destruct (thread_heap s !! t); [eauto | discriminate].
Qed.

(** [select_next_thread] is a strict-priority, round-robin choice: after
    the clock is read and the dead threads are removed, it returns the
    first runnable thread (valid, and Ready or Sleeping and due), in
    cyclic order from the band's index, of the first band that has one,
    marks it Ready and leaves the index of the band just past it; it
    returns the idle thread, and leaves every thread as it was, only
    when no queued thread is runnable.  The threads stay in their
    queues. *)
Theorem select_next_thread_takes_the_first_runnable (tsc : nat -> Z) (s : Scheduler) :
  let now := fst (read_tsc tsc s) in
  let s0 := cleanup_dead_threads (snd (read_tsc tsc s)) in
  let t := fst (select_next_thread tsc s) in
  let s' := snd (select_next_thread tsc s) in
  map threads (run_queues_ s') = map threads (run_queues_ s0) /\
  ((first_runnable s0 now (run_queues_ s0) (run_queues_ s') t /\
    thread_heap s' = set_state (thread_heap s0) t Ready /\
    get_state (thread_heap s') t = Ready)
   \/ (none_runnable s0 now (run_queues_ s0) /\
       t = idle_thread_ s /\ thread_heap s' = thread_heap s0)).
Proof.
  intros now s0 t s'. subst t s'. unfold select_next_thread.
  destruct (read_tsc tsc s) as [ct s1] eqn:Et. cbn [fst snd] in now, s0.
  fold s0. subst now.
  pose proof (select_bands_spec s0 ct (thread_heap s0) (run_queues_ s0)) as H.
  rewrite with_threads_id in H.
  destruct (select_bands s0 ct (thread_heap s0) (run_queues_ s0)) as [[[t|] qs] h].
  - destruct H as (Hmap & Hfirst & Hh). cbn [fst snd run_queues_ with_queues thread_heap
                                               with_threads].
    split; [exact Hmap|]. left. split; [exact Hfirst|]. split; [exact Hh|].
    rewrite Hh. apply get_state_set_state.
    destruct Hfirst as (band & q & i & _ & _ & _ & Hrun & _).
    unfold runnable in Hrun. apply andb_true_iff in Hrun as [Hv _].
    apply validate_thread_in_heap. exact Hv.
  - destruct H as (Hmap & Hnone & Hh). cbn [fst snd run_queues_ with_queues thread_heap
                                              with_threads idle_thread_].
    split; [exact Hmap|]. right. split; [exact Hnone|]. split; [|exact Hh].
    unfold read_tsc in Et. injection Et as _ <-. reflexivity.
Qed.

(** *** Preemption *)

Lemma get_state_set_state_ne (h : gmap nat Thread) (t t' : nat) (st : ThreadState) :
  t <> t' -> get_state (set_state h t st) t' = get_state h t'.
Proof.
  intros Hne. unfold get_state, set_state.
  destruct (h !! t) as [th|]; [|reflexivity].
  rewrite lookup_insert_ne by exact Hne. reflexivity.
Qed.

Lemma set_state_is_Some (h : gmap nat Thread) (t t' : nat) (st : ThreadState) :
  is_Some (h !! t') -> is_Some (set_state h t st !! t').
Proof.
  intros H. unfold set_state. destruct (h !! t) as [th|] eqn:E; [|exact H].
  destruct (decide (t = t')) as [->|Hne].
  - rewrite lookup_insert_eq. eauto.
  - rewrite lookup_insert_ne by exact Hne. exact H.
Qed.

(** A thread that is valid stays valid when it is marked Ready. *)
Lemma validate_thread_marked_ready (s : Scheduler) (t : nat) :
  validate_thread s t = true ->
  validate_thread (with_threads s (set_state (thread_heap s) t Ready)) t = true.
Proof.
  unfold validate_thread, set_state. cbn [thread_heap process_heap with_threads].
  destruct (Nat.eqb t 0); [discriminate|].
  destruct (thread_heap s !! t) as [th|] eqn:E; [|discriminate].
  rewrite lookup_insert_eq. cbn [state_ process_ ThreadState_eqb].
  destruct (ThreadState_eqb (state_ th) Dead); [discriminate|]. trivial.
Qed.

Lemma calculate_priority_in_range (s : Scheduler) (t : nat) :
  run_queues_ s <> [] ->
  (calculate_priority s t < length (run_queues_ s))%nat.
Proof.
  intros Hne. assert (0 < length (run_queues_ s))%nat
    by (destruct (run_queues_ s); [congruence | cbn; lia]).
  unfold calculate_priority.
  destruct (thread_heap s !! t) as [th|]; [|lia].
  destruct (process_heap s !! process_ th); [|lia].
  destruct (length (run_queues_ s) <=? _)%nat eqn:E; [lia|].
  apply Nat.leb_gt in E. exact E.
Qed.

(** Appending to a band adds one entry of the thread and none of any
    other. *)
Lemma entries_after_push_back (qs : list RunQueue) (band t x : nat) :
  (band < length qs)%nat ->
  length (filter (fun y => y = x) (concat (map threads (push_back qs band t))))
  = ((if decide (t = x) then 1 else 0)
     + length (filter (fun y => y = x) (concat (map threads qs))))%nat.
Proof.
  unfold push_back. revert band. induction qs as [|q qs IH]; intros band Hlt.
  - cbn in Hlt. lia.
  - destruct band as [|band].
    + cbn [lookup list_lookup]. cbn. rewrite !filter_app, !length_app.
      rewrite filter_cons, filter_nil.
      destruct (decide (t = x)); cbn [length]; lia.
    + cbn in Hlt. specialize (IH band ltac:(lia)).
      change ((q :: qs) !! S band) with (qs !! band).
      destruct (qs !! band) as [qb|] eqn:E.
      * change (<[S band := ?v]> (q :: qs)) with (q :: <[band := v]> qs).
        cbn [map concat]. rewrite !filter_app, !length_app, IH. lia.
      * apply lookup_ge_None in E. lia.
Qed.

(** A preempted thread is queued again: when [switch_to_thread] takes
    the processor from a valid, Running thread that is not the idle
    thread, that thread becomes Ready and gets one more entry in the
    run queues, beside those it has (the entry [add_thread] made when
    the thread was first queued is never removed by
    [select_next_thread]); the entries of every other thread stay as
    they are, and the new thread is current and Running. *)
Theorem preempted_thread_is_queued_again (tsc : nat -> Z) (s : Scheduler)
  (thread : nat) :
  let old := current_thread_ s in
  thread <> 0%nat -> thread <> old -> old <> idle_thread_ s ->
  validate_thread s old = true ->
  get_state (thread_heap s) old = Running ->
  run_queues_ s <> [] ->
  let s' := switch_to_thread tsc s thread in
  current_thread_ s' = thread /\
  get_state (thread_heap s') old = Ready /\
  (is_Some (thread_heap s !! thread) -> get_state (thread_heap s') thread = Running) /\
  queued s' old = S (queued s old) /\
  (forall x, x <> old -> queued s' x = queued s x).
Proof.
  intros old H0 Hne Hidle Hvalid Hrun Hqs s'.
  assert (Hold0 : Nat.eqb old 0 = false).
  { unfold validate_thread in Hvalid. destruct (Nat.eqb old 0); [discriminate|reflexivity]. }
  pose proof (validate_thread_in_heap s old Hvalid) as Hin.
  set (s1 := with_threads (with_current s thread) (set_state (thread_heap s) old Ready)).
  assert (Hv1 : validate_thread s1 old = true).
  { pose proof (validate_thread_marked_ready s old Hvalid) as H.
    unfold validate_thread in H |- *. exact H. }
  assert (Hband : (calculate_priority s1 old < length (run_queues_ s1))%nat)
    by (apply calculate_priority_in_range; exact Hqs).
  assert (Hs' :
    current_thread_ s' = thread /\
    thread_heap s' = set_state (set_state (thread_heap s1) old Ready) thread Running /\
    run_queues_ s' = push_back (run_queues_ s) (calculate_priority s1 old) old).
  { subst s'. unfold switch_to_thread.
    replace (Nat.eqb thread 0) with false by (symmetry; apply Nat.eqb_neq; exact H0).
    replace (Nat.eqb thread (current_thread_ s)) with false
      by (symmetry; apply Nat.eqb_neq; exact Hne).
    fold old. rewrite Hold0. cbn [orb negb andb idle_thread_ with_current].
    replace (Nat.eqb old (idle_thread_ s)) with false
      by (symmetry; apply Nat.eqb_neq; exact Hidle).
    cbn [negb thread_heap with_current]. rewrite Hrun. cbn [ThreadState_eqb].
    fold s1.
    assert (F : current_thread_ (add_thread s1 old) = thread /\
                thread_heap (add_thread s1 old) = set_state (thread_heap s1) old Ready /\
                run_queues_ (add_thread s1 old)
                = push_back (run_queues_ s) (calculate_priority s1 old) old).
    { unfold add_thread. rewrite Hv1. cbn [negb].
      replace (length (run_queues_ s1) <=? calculate_priority s1 old)%nat with false
        by (symmetry; apply Nat.leb_gt; exact Hband).
      repeat split; reflexivity. }
    revert F. generalize (add_thread s1 old). intros s2 (F1 & F2 & F3).
    destruct s2. unfold read_tsc, charge_cpu, with_threads.
    cbn in F1, F2, F3 |- *. subst. repeat split; reflexivity. }
  destruct Hs' as (Hcur & Hheap & Hqueues).
  unfold queued. rewrite Hcur, Hheap, Hqueues.
  split; [reflexivity|]. split; [|split; [|split]].
  - rewrite get_state_set_state_ne by exact Hne.
    apply get_state_set_state. apply set_state_is_Some. exact Hin.
  - intros Hthread. apply get_state_set_state.
    do 2 apply set_state_is_Some. exact Hthread.
  - rewrite entries_after_push_back by exact Hband.
    rewrite decide_True by reflexivity. reflexivity.
  - intros x Hx. rewrite entries_after_push_back by exact Hband.
    rewrite decide_False by congruence. reflexivity.
Qed.

Lemma preempted_thread_witness :
  let s' := switch_to_thread (fun _ => 0) a_running 3 in
  current_thread_ s' = 3%nat /\
  get_state (thread_heap s') 2 = Ready /\
  (is_Some (thread_heap a_running !! 3%nat) -> get_state (thread_heap s') 3 = Running) /\
  queued s' 2 = S (queued a_running 2) /\
  (forall x, x <> 2%nat -> queued s' x = queued a_running x).
Proof.
  apply (preempted_thread_is_queued_again (fun _ => 0) a_running 3);
    vm_compute; first [reflexivity | congruence].
Defined.

End SchedSelectFacts.

(** ** AHCI driver: the command FIS *)

Module AHCIFisFacts.
Import Ints AHCI BytesFacts.

Lemma shifted_byte (x n : Z) : 0 <= n -> Z.land (Z.shiftr x n) 255 = (x / 2 ^ n) mod 256.
Proof. intros Hn. rewrite land_255, Z.shiftr_div_pow2 by exact Hn. reflexivity. Qed.

(** The low [n + 8] bits are the low [n] bits and the byte above them. *)
Lemma low_bits_split (x n : Z) :
  0 <= n -> x mod 2 ^ (n + 8) = x mod 2 ^ n + 2 ^ n * ((x / 2 ^ n) mod 256).
Proof.
  intros Hn. rewrite Z.pow_add_r by lia. change (2 ^ 8) with 256.
  apply Z.rem_mul_r; lia.
Qed.

Lemma six_bytes (x : Z) :
  x mod 256 + 2 ^ 8 * ((x / 2 ^ 8) mod 256) + 2 ^ 16 * ((x / 2 ^ 16) mod 256)
  + 2 ^ 24 * ((x / 2 ^ 24) mod 256) + 2 ^ 32 * ((x / 2 ^ 32) mod 256)
  + 2 ^ 40 * ((x / 2 ^ 40) mod 256) = x mod 2 ^ 48.
Proof.
  change 48 with (40 + 8). rewrite (low_bits_split x 40) by lia.
  change 40 with (32 + 8) at 3. rewrite (low_bits_split x 32) by lia.
  change 32 with (24 + 8) at 3. rewrite (low_bits_split x 24) by lia.
  change 24 with (16 + 8) at 3. rewrite (low_bits_split x 16) by lia.
  change 16 with (8 + 8) at 3. rewrite (low_bits_split x 8) by lia.
  change (x mod 2 ^ 8) with (x mod 256). reflexivity.
Qed.

Lemma low_nibble (a : Z) :
  0 <= a < 16 ->
  Z.lor (u8 (Z.lor 64 a)) 224 = 224 + a /\ Z.land (224 + a) 15 = a.
Proof.
  intros H.
  assert (E : a = 0 \/ a = 1 \/ a = 2 \/ a = 3 \/ a = 4 \/ a = 5 \/ a = 6 \/ a = 7 \/
              a = 8 \/ a = 9 \/ a = 10 \/ a = 11 \/ a = 12 \/ a = 13 \/ a = 14 \/ a = 15)
    by lia.
  repeat (destruct E as [->|E]; [split; reflexivity|]). subst a. split; reflexivity.
Qed.

Lemma build_fis_48 (info : PortInfo) (cmd48 cmd28 lba count : Z) :
  supports_48bit info = true ->
  let f := build_fis info cmd48 cmd28 lba count in
  command f = cmd48 /\ fis_lba48 f = lba mod 2 ^ 48 /\
  fis_count f = count mod 2 ^ 16 /\ device f = 224.
Proof.
  intros H48 f. subst f. unfold build_fis, fis_lba48, fis_count. rewrite H48.
  cbn [command lba0 lba1 lba2 lba3 lba4 lba5 count_low count_high device].
  rewrite !shifted_byte by lia. rewrite land_255.
  change (2 ^ 0) with 1. rewrite Z.div_1_r.
  split; [reflexivity|]. split; [apply six_bytes|]. split; [|reflexivity].
  change 16 with (8 + 8). rewrite (low_bits_split count 8) by lia. reflexivity.
Qed.

Lemma build_fis_28 (info : PortInfo) (cmd48 cmd28 lba count : Z) :
  supports_48bit info = false ->
  let f := build_fis info cmd48 cmd28 lba count in
  command f = cmd28 /\ fis_lba28 f = lba mod 2 ^ 28 /\
  fis_count f = count mod 2 ^ 8 /\ device f = 224 + (lba / 2 ^ 24) mod 16 /\
  lba3 f = 0 /\ lba4 f = 0 /\ lba5 f = 0.
Proof.
  intros H48 f. subst f. unfold build_fis, fis_lba28, fis_count. rewrite H48.
  cbn [command lba0 lba1 lba2 lba3 lba4 lba5 count_low count_high device].
  rewrite !shifted_byte by lia. rewrite land_255.
  change (2 ^ 0) with 1. rewrite Z.div_1_r.
  assert (Hn : Z.land (Z.shiftr lba 24) 15 = (lba / 2 ^ 24) mod 16).
  { change 15 with (Z.ones 4). rewrite Z.land_ones, Z.shiftr_div_pow2 by lia.
    reflexivity. }
  rewrite Hn.
  assert (Hr : 0 <= (lba / 2 ^ 24) mod 16 < 16) by (apply Z.mod_pos_bound; lia).
  destruct (low_nibble _ Hr) as [-> ->].
  split; [reflexivity|]. split; [|split; [|repeat split; reflexivity]].
  - replace (2 ^ 28) with (2 ^ 24 * 16) by reflexivity.
    rewrite (Z.rem_mul_r lba (2 ^ 24) 16) by lia. f_equal.
    change 24 with (16 + 8). rewrite (low_bits_split lba 16) by lia.
    change 16 with (8 + 8) at 3. rewrite (low_bits_split lba 8) by lia.
    reflexivity.
  - change (2 ^ 8) with 256. lia.
Qed.

(** The command FIS of an issued read carries the request as far as
    its fields reach: under LBA48 the six address bytes hold the low 48
    bits of [lba] and the two count bytes the low 16 bits of [count];
    under LBA28 the address is cut to 28 bits, its top four in the
    device register, and the count to 8 bits.  A command is issued only
    when the 64-bit sum [lba + count] is within the disk; when that sum
    does not wrap, the range read is inside the disk, and then on a
    disk of at most 2^48 (2^28) sectors the address is exact.  A count
    below 2^16 (2^8) is exact. *)
Theorem issued_fis_carries_the_request (send_command : Command -> bool)
  (ports_ : list PortInfo) (header table : Z) (phys : option Z)
  (port_number lba count : Z) (r : bool) (cmd : Command) :
  0 <= lba -> 0 <= count ->
  read_sectors send_command ports_ header table phys port_number lba count
    = (r, Some cmd) ->
  let f := command_fis cmd in
  exists info,
    ports_ !! Z.to_nat port_number = Some info /\
    u64 (lba + count) <= sector_count info /\
    (lba + count < 2 ^ 64 -> lba + count <= sector_count info) /\
    fis_type f = 0x27 /\ device f = Z.lor (device f) 0xE0 /\
    if supports_48bit info
    then command f = 0x25 /\ fis_lba48 f = lba mod 2 ^ 48 /\
         fis_count f = count mod 2 ^ 16 /\
         (lba + count < 2 ^ 64 -> sector_count info <= 2 ^ 48 -> fis_lba48 f = lba) /\
         (count < 2 ^ 16 -> fis_count f = count)
    else command f = 0x20 /\ fis_lba28 f = lba mod 2 ^ 28 /\
         fis_count f = count mod 2 ^ 8 /\
         lba3 f = 0 /\ lba4 f = 0 /\ lba5 f = 0 /\
         (lba + count < 2 ^ 64 -> sector_count info <= 2 ^ 28 -> fis_lba28 f = lba) /\
         (count < 2 ^ 8 -> fis_count f = count).
Proof.
  intros Hlba Hcount H f. unfold read_sectors in H.
  destruct (ports_ !! Z.to_nat port_number) as [info|] eqn:Hport; [|discriminate H].
  destruct (negb (initialized info)); [discriminate H|].
  destruct (Z.ltb_spec (sector_count info) (u64 (lba + count))) as [|Hin];
    [discriminate H|].
  destruct (Z.eqb_spec count 0) as [|Hpos]; [discriminate H|].
  destruct (header =? 0); [discriminate H|].
  destruct (table =? 0); [discriminate H|].
  destruct (default 0 phys =? 0); [discriminate H|].
  destruct (8 <? _); [discriminate H|].
  injection H as _ <-. subst f. cbn [command_fis].
  assert (Hu : lba + count < 2 ^ 64 -> u64 (lba + count) = lba + count)
    by (intros Hwrap; unfold u64, wrap; apply Z.mod_small; lia).
  exists info. split; [reflexivity|]. split; [exact Hin|].
  split; [intros Hwrap; rewrite <- (Hu Hwrap); exact Hin|].
  destruct (supports_48bit info) eqn:H48.
  - destruct (build_fis_48 info 37 32 lba count H48) as (Hc & Ha & Hn & Hd).
    split; [unfold build_fis; rewrite H48; reflexivity|].
    split; [rewrite Hd; reflexivity|].
    split; [exact Hc|]. split; [exact Ha|]. split; [exact Hn|]. split.
    + intros Hwrap Hdisk. specialize (Hu Hwrap). rewrite Ha. apply Z.mod_small. lia.
    + intros Hsmall. rewrite Hn. apply Z.mod_small. lia.
  - destruct (build_fis_28 info 37 32 lba count H48) as (Hc & Ha & Hn & Hd & H3 & H4 & H5).
    split; [unfold build_fis; rewrite H48; reflexivity|].
    split.
    { rewrite Hd.
      assert (Hr : 0 <= (lba / 2 ^ 24) mod 16 < 16) by (apply Z.mod_pos_bound; lia).
      revert Hr. generalize ((lba / 2 ^ 24) mod 16). intros a Hr.
      assert (E : a = 0 \/ a = 1 \/ a = 2 \/ a = 3 \/ a = 4 \/ a = 5 \/ a = 6 \/ a = 7 \/
                a = 8 \/ a = 9 \/ a = 10 \/ a = 11 \/ a = 12 \/ a = 13 \/ a = 14 \/ a = 15)
        by lia.
      repeat (destruct E as [->|E]; [reflexivity|]). subst a. reflexivity. }
    split; [exact Hc|]. split; [exact Ha|]. split; [exact Hn|].
    split; [exact H3|]. split; [exact H4|]. split; [exact H5|]. split.
    + intros Hwrap Hdisk. specialize (Hu Hwrap). rewrite Ha. apply Z.mod_small. lia.
    + intros Hsmall. rewrite Hn. apply Z.mod_small. lia.
Qed.

Lemma issued_fis_witness :
  let f := command_fis
             (mkCommand (build_fis (mkPort 16777216 512 false true) 37 32 2048 8)
                        (fill_prdt 8 (replicate 8 zero_entry) 0 1 4096 0x200000)
                        5 false 1 true) in
  exists info,
    old_disk !! Z.to_nat 0 = Some info /\
    u64 (2048 + 8) <= sector_count info /\
    (2048 + 8 < 2 ^ 64 -> 2048 + 8 <= sector_count info) /\
    fis_type f = 0x27 /\ device f = Z.lor (device f) 0xE0 /\
    if supports_48bit info
    then command f = 0x25 /\ fis_lba48 f = 2048 mod 2 ^ 48 /\
         fis_count f = 8 mod 2 ^ 16 /\
         (2048 + 8 < 2 ^ 64 -> sector_count info <= 2 ^ 48 -> fis_lba48 f = 2048) /\
         (8 < 2 ^ 16 -> fis_count f = 8)
    else command f = 0x20 /\ fis_lba28 f = 2048 mod 2 ^ 28 /\
         fis_count f = 8 mod 2 ^ 8 /\
         lba3 f = 0 /\ lba4 f = 0 /\ lba5 f = 0 /\
         (2048 + 8 < 2 ^ 64 -> sector_count info <= 2 ^ 28 -> fis_lba28 f = 2048) /\
         (8 < 2 ^ 8 -> fis_count f = 8).
Proof.
  apply (issued_fis_carries_the_request (fun _ => true) old_disk 0x1000 0x2000
           (Some 0x200000) 0 2048 8 true); [lia | lia | reflexivity].
Defined.

End AHCIFisFacts.

(** ** IP layer: the routing table and the protocol handlers *)

Module IPTableFacts.
Import Ints IP.

Lemma find_app_last {A : Type} (p : A -> bool) (l : list A) (y : A) :
  List.find p (l ++ [y])
  = match List.find p l with
    | Some r => Some r
    | None => if p y then Some y else None
    end.
Proof.
  induction l as [|a l IH]; cbn [app List.find]; [reflexivity|].
  destruct (p a); [reflexivity | exact IH].
Qed.

Lemma erase_first_app_last {A : Type} (p : A -> bool) (l : list A) (y : A) :
  existsb p l = false -> p y = true -> erase_first p (l ++ [y]) = Some l.
Proof.
  intros Hl Hy. induction l as [|a l IH]; cbn [app erase_first].
  - rewrite Hy. reflexivity.
  - cbn [existsb] in Hl. apply orb_false_iff in Hl as [Ha Hl].
    rewrite Ha, (IH Hl). reflexivity.
Qed.

Lemma existsb_app_last {A : Type} (p : A -> bool) (l : list A) (y : A) :
  p y = true -> existsb p (l ++ [y]) = true.
Proof.
  intros Hy. rewrite existsb_app. cbn [existsb]. rewrite Hy.
  rewrite orb_true_r. reflexivity.
Qed.

(** Routes are tried in the order they were added: [add_route] for an
    interface that exists puts the route last, so a destination that
    had a route keeps it, whatever the netmask and the metric of the
    new one, and the new route serves only destinations that had none;
    [remove_route] takes it out again when no older route has its
    network and netmask. *)
Theorem added_route_comes_last (s : Sender) (net mask gw index metric_ : Z) :
  0 <= index < Z.of_nat (length (interfaces_ s)) ->
  let new := mkRoute net gw mask index metric_ in
  let s' := snd (add_route s net mask gw index metric_) in
  fst (add_route s net mask gw index metric_) = true /\
  (forall d, find_route s' d
             = match find_route s d with
               | Some r => Some r
               | None => if Z.land d mask =? Z.land net mask then Some new else None
               end) /\
  (existsb (fun e => (network e =? net) && (netmask e =? mask)) (routing_table_ s) = false ->
   remove_route s' net mask = (true, s)).
Proof.
  intros Hindex new s'. subst s'. unfold add_route.
  replace (Z.of_nat (length (interfaces_ s)) <=? index) with false
    by (symmetry; apply Z.leb_gt; lia).
  cbn [fst snd]. split; [reflexivity|]. split.
  - intros d. unfold find_route. cbn [routing_table_]. rewrite find_app_last.
    subst new. cbn [network netmask]. reflexivity.
  - intros Hnone. unfold remove_route. cbn [routing_table_ interfaces_
      identification_counter_ handed_to_device].
    rewrite erase_first_app_last;
      [destruct s; reflexivity | exact Hnone |].
    cbn [network netmask]. rewrite !Z.eqb_refl. reflexivity.
Qed.

Lemma added_route_witness :
  let new := mkRoute 0 3232235777 0 0 5 in
  let s' := snd (add_route host 0 0 3232235777 0 5) in
  fst (add_route host 0 0 3232235777 0 5) = true /\
  (forall d, find_route s' d
             = match find_route host d with
               | Some r => Some r
               | None => if Z.land d 0 =? Z.land 0 0 then Some new else None
               end) /\
  (existsb (fun e => (network e =? 0) && (netmask e =? 0)) (routing_table_ host) = false ->
   remove_route s' 0 0 = (true, host)).
Proof.
  apply (added_route_comes_last host 0 0 3232235777 0 5). vm_compute.
  split; congruence.
Defined.

(** A protocol handler is registered once: after
    [register_protocol_handler] has accepted a callback for a protocol,
    a second registration of the pair is refused and changes nothing,
    and [unregister_protocol_handler] gives back the layer as it was. *)
Theorem registered_handler_round_trip (l l' : IPLayer) (proto : Z) (callback : nat) :
  register_protocol_handler l proto callback = (true, l') ->
  register_protocol_handler l' proto callback = (false, l') /\
  unregister_protocol_handler l' proto callback = (true, l).
Proof.
  unfold register_protocol_handler, unregister_protocol_handler.
  destruct (existsb _ (protocol_handlers_ l)) eqn:E; [discriminate|].
  intros H. injection H as <-. cbn [protocol_handlers_ fragment_buffers_ delivered].
  rewrite existsb_app_last
    by (cbn [fst snd]; rewrite Z.eqb_refl, Nat.eqb_refl; reflexivity).
  split; [reflexivity|].
  rewrite erase_first_app_last;
    [destruct l; reflexivity | exact E |].
  cbn [fst snd]. rewrite Z.eqb_refl, Nat.eqb_refl. reflexivity.
Qed.

Lemma registered_handler_witness :
  register_protocol_handler (mkLayer ∅ [(17, 1%nat)] []) 17 1 = (false, mkLayer ∅ [(17, 1%nat)] [])
  /\ unregister_protocol_handler (mkLayer ∅ [(17, 1%nat)] []) 17 1 = (true, mkLayer ∅ [] []).
Proof.
  apply (registered_handler_round_trip (mkLayer ∅ [] []) (mkLayer ∅ [(17, 1%nat)] []) 17 1).
  reflexivity.
Defined.

End IPTableFacts.

(** ** TCP: data that arrives in order *)

Module TCPStreamFacts.
Import Ints TCP.

Lemma push_bytes_room (bytes q : list Z) :
  Z.of_nat (length q) + Z.of_nat (length bytes) <= receive_capacity ->
  push_bytes q bytes = q ++ bytes.
Proof.
  revert q. induction bytes as [|b bytes IH]; intros q H; cbn [push_bytes].
  - rewrite app_nil_r. reflexivity.
  - cbn [length] in H.
    replace (receive_capacity <=? Z.of_nat (length q)) with false
      by (symmetry; apply Z.leb_gt; lia).
    rewrite IH by (rewrite length_app; cbn [length]; lia).
    rewrite <- app_assoc. reflexivity.
Qed.

(** Consumed buffers are passed over. *)
Lemma drain_consumed (bs : list ReceiveBuffer) (q : list Z) (n : Z) :
  all_consumed bs -> drain bs q n = (bs, q, n).
Proof.
  intros H. induction H as [|b bs Hb _ IH]; cbn [drain]; [reflexivity|].
  rewrite Hb, andb_false_r, IH. reflexivity.
Qed.

(** One fresh buffer that starts at the byte expected next, among
    consumed ones: its bytes are pushed and it is marked. *)
Lemma drain_one (l1 l2 : list ReceiveBuffer) (b : ReceiveBuffer) (q : list Z) :
  all_consumed l1 -> all_consumed l2 -> consumed b = false ->
  drain (l1 ++ b :: l2) q (rb_sequence_start b)
  = (l1 ++ mkReceiveBuffer (rb_sequence_start b) (rb_sequence_end b) (rb_data b) true
        :: l2,
     push_bytes q (rb_data b), rb_sequence_end b).
Proof.
  intros H1 H2 Hb. induction H1 as [|a l1 Ha _ IH]; cbn [app drain].
  - rewrite Z.eqb_refl, Hb. cbn [negb andb].
    rewrite (drain_consumed l2 _ _ H2). reflexivity.
  - rewrite Ha, andb_false_r, IH. reflexivity.
Qed.

Lemma insert_sorted_consumed (x : ReceiveBuffer) (l : list ReceiveBuffer) :
  consumed x = true -> all_consumed l -> all_consumed (insert_sorted x l).
Proof.
  intros Hx H. induction H as [|a l Ha Hl IH]; cbn [insert_sorted].
  - repeat constructor. exact Hx.
  - destruct (rb_sequence_start x <? rb_sequence_start a).
    + constructor; [exact Hx|]. constructor; assumption.
    + constructor; assumption.
Qed.

Lemma insert_sorted_among (x b : ReceiveBuffer) (l : list ReceiveBuffer) :
  consumed x = true -> among_consumed b l -> among_consumed b (insert_sorted x l).
Proof.
  intros Hx (l1 & l2 & -> & H1 & H2).
  induction H1 as [|a l1 Ha Hl1 IH]; cbn [app insert_sorted].
  - destruct (rb_sequence_start x <? rb_sequence_start b).
    + exists [x], l2. repeat split; [repeat constructor; exact Hx | exact H2].
    + exists [], (insert_sorted x l2).
      repeat split; [constructor | apply insert_sorted_consumed; assumption].
  - destruct (rb_sequence_start x <? rb_sequence_start a).
    + exists (x :: a :: l1), l2.
      repeat split; [|exact H2]. constructor; [exact Hx|]. constructor; assumption.
    + destruct IH as (k1 & k2 & -> & K1 & K2).
      exists (a :: k1), k2. repeat split; [constructor; assumption | exact K2].
Qed.

Lemma sort_among (b : ReceiveBuffer) (l : list ReceiveBuffer) :
  all_consumed l -> among_consumed b (sort (l ++ [b])).
Proof.
  intros H. unfold sort. induction H as [|a l Ha _ IH]; cbn [app foldr].
  - exists [], []. repeat split; constructor.
  - apply insert_sorted_among; assumption.
Qed.

Lemma all_consumed_marked (l1 l2 : list ReceiveBuffer) (b : ReceiveBuffer) :
  all_consumed l1 -> all_consumed l2 -> consumed b = true ->
  all_consumed (l1 ++ b :: l2).
Proof.
  intros H1 H2 Hb. apply Forall_app. split; [exact H1|]. constructor; assumption.
Qed.

(** Data that arrives in order reaches the application: a segment
    without flags whose payload starts at the byte expected next is
    taken when it passes [validate_sequence]; with the earlier buffers
    consumed and room in the ring, its bytes are appended to
    [receive_queue_], [receive_next_expected_] and [receive_sequence_]
    move to its end, an acknowledgment for that point is sent, and the
    buffers are all consumed again, so the next segment finds the
    socket in the same condition. *)
Theorem in_order_data_reaches_the_application (now : Z) (s : TCPSocket)
  (seg : TCPSegment) :
  syn seg = false -> ack seg = false -> fin seg = false -> rst seg = false ->
  data seg <> [] -> Z.of_nat (length (data seg)) < 2 ^ 32 ->
  sequence_number seg = receive_next_expected_ s ->
  validate_sequence s (sequence_number seg) (Z.of_nat (length (data seg))) = true ->
  all_consumed (receive_buffers_ s) ->
  Z.of_nat (length (receive_queue_ s)) + Z.of_nat (length (data seg))
    <= receive_capacity ->
  let next := u32 (sequence_number seg + Z.of_nat (length (data seg))) in
  exists s',
    receive_segment now s seg
    = (true, s', [send_segment s (build (send_sequence_ s) next (receive_window_ s)
                                        false true false false [] now)]) /\
    receive_queue_ s' = receive_queue_ s ++ data seg /\
    receive_next_expected_ s' = next /\ receive_sequence_ s' = next /\
    all_consumed (receive_buffers_ s') /\
    length (receive_buffers_ s') = S (length (receive_buffers_ s)) /\
    state_ s' = state_ s.
Proof.
  intros Hsyn Hack Hfin Hrst Hdata Hlen Hseq Hvalid Hbufs Hroom next.
  set (len := Z.of_nat (length (data seg))) in *.
  assert (Hpos : 0 < len)
    by (unfold len; destruct (data seg); [congruence | cbn [length]; lia]).
  set (b := mkReceiveBuffer (sequence_number seg) next (data seg) false).
  destruct (sort_among b (receive_buffers_ s) Hbufs) as (l1 & l2 & Hsort & H1 & H2).
  assert (Hdrain : drain (sort (receive_buffers_ s ++ [b])) (receive_queue_ s)
                         (receive_next_expected_ s)
                   = (l1 ++ mkReceiveBuffer (sequence_number seg) next (data seg) true :: l2,
                      receive_queue_ s ++ data seg, next)).
  { pose proof (drain_one l1 l2 b (receive_queue_ s) H1 H2 eq_refl) as D.
    change (rb_sequence_start b) with (sequence_number seg) in D.
    change (rb_sequence_end b) with next in D.
    change (rb_data b) with (data seg) in D.
    rewrite Hsort, <- Hseq, D, push_bytes_room by exact Hroom. reflexivity. }
  assert (Hcount : length (l1 ++ b :: l2) = S (length (receive_buffers_ s))).
  { rewrite <- Hsort. unfold sort.
    clear. induction (receive_buffers_ s) as [|a l IH]; [reflexivity|].
    cbn [app foldr length]. rewrite <- IH.
    generalize (foldr insert_sorted [] (l ++ [b])). intros k.
    induction k as [|x k IHk]; cbn [insert_sorted length]; [reflexivity|].
    destruct (rb_sequence_start a <? rb_sequence_start x); cbn [length]; congruence. }
  unfold receive_segment.
  replace (u32 (Z.of_nat (length (data seg)))) with len
    by (unfold u32, wrap; rewrite Z.mod_small by (fold len; lia); reflexivity).
  rewrite Hvalid, Hsyn, Hack, Hfin, Hrst. cbn [negb].
  replace (0 <? Z.of_nat (length (data seg))) with true
    by (symmetry; apply Z.ltb_lt; exact Hpos).
  unfold process_data, reorder_buffers.
  cbn [receive_buffers_ receive_queue_ receive_next_expected_ set_receive].
  fold len. fold next. fold b. rewrite Hdrain.
  eexists. split; [reflexivity|].
  cbn [receive_queue_ receive_next_expected_ receive_sequence_ receive_buffers_ state_
       set_last_activity set_sequences set_receive].
  repeat split.
  - apply all_consumed_marked; [exact H1 | exact H2 | reflexivity].
  - rewrite <- Hcount, !length_app. reflexivity.
Qed.

Lemma in_order_data_witness :
  let seg := mkSegment 3232235796 5000 3232235786 80 0 0 65535
                       false false false false [72; 105] 9 in
  let next := u32 (0 + Z.of_nat 2) in
  exists s',
    receive_segment 9 idle_connection seg
    = (true, s', [send_segment idle_connection
                    (build (send_sequence_ idle_connection) next
                           (receive_window_ idle_connection)
                           false true false false [] 9)]) /\
    receive_queue_ s' = receive_queue_ idle_connection ++ [72; 105] /\
    receive_next_expected_ s' = next /\ receive_sequence_ s' = next /\
    all_consumed (receive_buffers_ s') /\
    length (receive_buffers_ s') = S (length (receive_buffers_ idle_connection)) /\
    state_ s' = state_ idle_connection.
Proof.
  apply (in_order_data_reaches_the_application 9 idle_connection
           (mkSegment 3232235796 5000 3232235786 80 0 0 65535
                      false false false false [72; 105] 9));
    try reflexivity; try (vm_compute; congruence); constructor.
Defined.

End TCPStreamFacts.
